(** * Order ingestion and entity resolution: a shallow embedding

    The development follows [services/importService.js] (row grouping,
    customer and product resolution, the per-order transaction and the job
    counters), the route handler that creates the job entry, the Sequelize
    models, and [data_reconciliation.js] (the delta analysis of bill
    numbers).

    Modelling conventions.
    - A JavaScript value is a [JsVal].  Numbers are the integers of the
      safe range ([JNum n] with [n : Z], below 2^53 in magnitude), which
      [toString] prints in full; the code only ever tests a number for
      being zero, compares it, prints it, or hands it to the storage engine.
      Fractions and [Date] objects are not represented.
    - A string is the sequence of its code units, each below 256 (the
      Latin-1 range).  [trim] removes the white space and line terminators
      of that range: U+0009 to U+000D, U+0020 and U+00A0.
    - A table is the list of its rows in insertion order; [findOne] returns
      the first matching row, and a [where] on a column is equality of
      strings.  The JSON columns [all_phones] and
      [all_emails] hold lists of strings ([JSON.stringify] on the way in and
      [JSON.parse] on the way out cancel), and [JSON_CONTAINS] is list
      membership.
    - Every query of the loop passes [transaction: t], and the runs of one
      process are sequential: the transaction of an order works on the
      store; commit keeps the resulting rows, rollback restores the rows
      the transaction started from (the auto-increment counters are not
      restored, as in InnoDB).  Begin, commit and rollback do not raise.
    - What the storage engine accepts (validation, constraints) and the
      numeric builtins [parseFloat], [parseInt] and [Date] are parameters,
      gathered in the class [Host]. *)

From stdpp Require Import base option list gmap strings pretty.
From Stdlib Require Import ZArith Ascii String Lia.

Local Open Scope string_scope.
Local Open Scope list_scope.
Local Open Scope Z_scope.

(** ** JavaScript values *)

Inductive JsVal : Type :=
| JUndefined
| JNull
| JBool (b : bool)
| JNum (n : Z)
| JStr (s : string)
| JObj (ref : nat) (result : JsVal).

(** [!!v] of JavaScript: [undefined], [null], [false], [0] and [''] are the
    falsy values. *)
Definition truthy (v : JsVal) : bool :=
  match v with
  | JUndefined | JNull => false
  | JBool b => b
  | JNum n => negb (n =? 0)
  | JStr s => negb (String.eqb s "")
  | JObj _ _ => true
  end.

(** [a || b] *)
Definition js_or (a b : JsVal) : JsVal := if truthy a then a else b.

(** [String(v)]; for a truthy [v] this is [v.toString()].  An object is a
    plain object. *)
Definition js_toString (v : JsVal) : string :=
  match v with
  | JUndefined => "undefined"
  | JNull => "null"
  | JBool true => "true"
  | JBool false => "false"
  | JNum n => pretty n
  | JStr s => s
  | JObj _ _ => "[object Object]"
  end.

(** Key equality of a JavaScript [Map] (SameValueZero): primitives by type
    and value, objects by identity. *)
Definition sameValueZero (a b : JsVal) : bool :=
  match a, b with
  | JUndefined, JUndefined => true
  | JNull, JNull => true
  | JBool x, JBool y => Bool.eqb x y
  | JNum x, JNum y => x =? y
  | JStr x, JStr y => String.eqb x y
  | JObj r _, JObj r' _ => Nat.eqb r r'
  | _, _ => false
  end.

(** ** Strings *)

Definition is_digit (a : ascii) : bool :=
  let n := nat_of_ascii a in (48 <=? n)%nat && (n <=? 57)%nat.

(** White space removed by [String.prototype.trim]: TAB, LF, VT, FF, CR,
    the space and the no-break space. *)
Definition is_space (a : ascii) : bool :=
  let n := nat_of_ascii a in
  ((9 <=? n)%nat && (n <=? 13)%nat) || (n =? 32)%nat || (n =? 160)%nat.

(** [s.replace(/\D/g, '')] *)
Fixpoint strip_non_digits (s : string) : string :=
  match s with
  | EmptyString => EmptyString
  | String a s' =>
      if is_digit a then String a (strip_non_digits s') else strip_non_digits s'
  end.

(** [s.startsWith(p)] *)
Fixpoint startsWith (p s : string) : bool :=
  match p, s with
  | EmptyString, _ => true
  | String a p', String b s' => Ascii.eqb a b && startsWith p' s'
  | String _ _, EmptyString => false
  end.

(** [s.substring(n)] for [n >= 0] *)
Fixpoint substring_from (n : nat) (s : string) : string :=
  match n, s with
  | O, _ => s
  | S n', String _ s' => substring_from n' s'
  | S _, EmptyString => EmptyString
  end.

Fixpoint trimStart (s : string) : string :=
  match s with
  | EmptyString => EmptyString
  | String a s' => if is_space a then trimStart s' else s
  end.

Fixpoint trimEnd (s : string) : string :=
  match s with
  | EmptyString => EmptyString
  | String a s' =>
      match trimEnd s' with
      | EmptyString => if is_space a then EmptyString else String a EmptyString
      | t => String a t
      end
  end.

Definition trim (s : string) : string := trimEnd (trimStart s).

(** ** Exceptions *)

Inductive Exn : Type :=
| TypeError (msg : string)
| Error (msg : string)
| StorageError (msg : string).

(** ** [normalizePhone] (importService.js) *)

Definition normalizePhone (phoneNumber : JsVal) : Exn + string :=
  if negb (truthy phoneNumber) then inr ""
  else
    match phoneNumber with
    | JStr s =>
        let cleaned := strip_non_digits s in
        if startsWith "91" cleaned && (10 <? String.length cleaned)%nat
        then inr (substring_from 2 cleaned)
        else inr cleaned
    | _ => inl (TypeError "phoneNumber.replace is not a function")
    end.

(** ** The row grouper: [parseFileAndGroupOrders] (importService.js) *)

(** A JavaScript object used as a record of named fields. *)
Abbreviation JsObject := (gmap string JsVal).

(** [o.k], [undefined] when the property is absent *)
Definition get (o : JsObject) (k : string) : JsVal := default JUndefined (o !! k).

(** The own properties of the object literal. *)
Definition COLUMN_MAP : gmap string string :=
  list_to_map
    [ ("Bill Number", "bill_number");
      ("Order Number", "order_number");
      ("Order Date", "order_date");
      ("Customer User ID", "customer_user_id");
      ("Customer Username", "customer_username");
      ("Party Name", "party_name");
      ("Company (Billing)", "company_billing");
      ("GST Number", "gst_number");
      ("State Name", "state_name");
      ("Address", "address");
      ("Pincode", "pincode");
      ("Country", "country");
      ("Email", "email");
      ("Phone", "phone");
      ("Item #", "item_hash");
      ("Product Id", "product_id");
      ("Item Name", "item_name");
      ("HSN Code", "hsn_code");
      ("GST Rate", "gst_rate");
      ("Quantity", "quantity");
      ("Item Cost", "item_cost");
      ("Order Line Tax", "order_line_tax");
      ("Cart Discount Amount", "cart_discount_amount");
      ("Order Subtotal Amount", "order_subtotal_amount");
      ("Order Total Tax Amount", "order_total_tax_amount");
      ("Order Total Amount", "order_total_amount");
      ("Payment Method", "payment_method");
      ("Transaction ID", "transaction_id") ].

(** The properties the object literal inherits from [Object.prototype],
    each with the property key its value converts to: the source text of a
    built-in function, and [[object Object]] for the prototype that the
    accessor [__proto__] returns. *)
Definition Object_prototype : gmap string string :=
  list_to_map
    [ ("constructor", "function Object() { [native code] }");
      ("__defineGetter__", "function __defineGetter__() { [native code] }");
      ("__defineSetter__", "function __defineSetter__() { [native code] }");
      ("hasOwnProperty", "function hasOwnProperty() { [native code] }");
      ("__lookupGetter__", "function __lookupGetter__() { [native code] }");
      ("__lookupSetter__", "function __lookupSetter__() { [native code] }");
      ("isPrototypeOf", "function isPrototypeOf() { [native code] }");
      ("propertyIsEnumerable", "function propertyIsEnumerable() { [native code] }");
      ("toString", "function toString() { [native code] }");
      ("valueOf", "function valueOf() { [native code] }");
      ("__proto__", "[object Object]");
      ("toLocaleString", "function toLocaleString() { [native code] }") ].

(** The property key of [rowData] that [COLUMN_MAP[headerKey]] gives: the
    mapped name for an own property, the converted inherited value (always
    truthy) otherwise, [None] when the lookup is [undefined]. *)
Definition COLUMN_MAP_at (headerKey : string) : option string :=
  match COLUMN_MAP !! headerKey with
  | Some dbKey => Some dbKey
  | None => Object_prototype !! headerKey
  end.

(** A worksheet as the parser hands it over: rows in sheet order, each with
    its row number and its cells (column number, [cell.value]). *)
Record Row : Type := { number : nat; cells : list (nat * JsVal) }.

Definition Worksheet : Type := list Row.

Definition is_nullish (v : JsVal) : bool :=
  match v with JUndefined | JNull => true | _ => false end.

(** [row.hasValues] *)
Definition hasValues (r : Row) : bool :=
  existsb (fun c => negb (is_nullish c.2)) (cells r).

(** [worksheet.getRow(1).values]: the cells of row 1, none when the sheet
    has no such row. *)
Definition headerRow_values (ws : Worksheet) : list (nat * JsVal) :=
  match List.find (fun r => (number r =? 1)%nat) ws with
  | Some r => cells r
  | None => []
  end.

(** [headers[colNumber]] where
    [headers = headerRow.values.map(v => v ? v.toString().trim() : null)];
    [None] stands for both [null] and a hole of the array. *)
Definition headers_at (values : list (nat * JsVal)) (colNumber : nat) : option string :=
  match List.find (fun c => (c.1 =? colNumber)%nat) values with
  | Some (_, v) => if truthy v then Some (trim (js_toString v)) else None
  | None => None
  end.

(** The formula unwrapping of a cell value. *)
Definition cell_value (v : JsVal) : JsVal :=
  match v with
  | JObj _ JUndefined => v
  | JObj _ result => result
  | _ => v
  end.

(** The body of [row.eachCell]'s callback. *)
Definition eachCell_step (values : list (nat * JsVal)) (rowData : JsObject)
    (c : nat * JsVal) : JsObject :=
  match headers_at values c.1 with
  | Some headerKey =>
      if negb (String.eqb headerKey "") then
        match COLUMN_MAP_at headerKey with
        | Some dbKey => <[dbKey := cell_value c.2]> rowData
        | None => rowData
        end
      else rowData
  | None => rowData
  end.

(** [rowData] after [row.eachCell], which visits the cells that hold a
    value. *)
Definition rowData_of (values : list (nat * JsVal)) (r : Row) : JsObject :=
  fold_left (eachCell_step values)
    (List.filter (fun c => negb (is_nullish c.2)) (cells r)) ∅.

Module Item.
Record t : Type := {
  product_id : JsVal;
  item_hash : JsVal;
  item_name : JsVal;
  hsn_code : JsVal;
  gst_rate : JsVal;
  quantity : JsVal;
  unit_cost_at_sale : JsVal;
  order_line_tax : JsVal }.
End Item.

(** The object pushed on [items] for a row. *)
Definition item_of (rowData : JsObject) : Item.t :=
  {| Item.product_id := js_or (get rowData "product_id") (get rowData "item_hash");
     Item.item_hash := get rowData "item_hash";
     Item.item_name := get rowData "item_name";
     Item.hsn_code := get rowData "hsn_code";
     Item.gst_rate := get rowData "gst_rate";
     Item.quantity := get rowData "quantity";
     Item.unit_cost_at_sale := get rowData "item_cost";
     Item.order_line_tax := get rowData "order_line_tax" |}.

(** An order aggregate: [{ ...rowData, items }]. *)
Record OrderData : Type := { fields : JsObject; items : list Item.t }.

Definition bill_number_of (o : OrderData) : JsVal := get (fields o) "bill_number".

(** The JavaScript [Map] from bill number to aggregate, in insertion
    order. *)
Definition OrdersMap : Type := list (JsVal * OrderData).

Definition Map_has (m : OrdersMap) (k : JsVal) : bool :=
  existsb (fun e => sameValueZero e.1 k) m.

(** [m.set(k, v)] *)
Fixpoint Map_set (m : OrdersMap) (k : JsVal) (v : OrderData) : OrdersMap :=
  match m with
  | [] => [(k, v)]
  | e :: m' => if sameValueZero e.1 k then (e.1, v) :: m' else e :: Map_set m' k v
  end.

(** [m.get(k).items.push(it)]; the entry exists at the only call. *)
Fixpoint Map_push_item (m : OrdersMap) (k : JsVal) (it : Item.t) : OrdersMap :=
  match m with
  | [] => []
  | e :: m' =>
      if sameValueZero e.1 k
      then (e.1, {| fields := fields e.2; items := items e.2 ++ [it] |}) :: m'
      else e :: Map_push_item m' k it
  end.

(** The test that drops a row (importService.js, line 71). *)
Definition lacks_critical_data (rowData : JsObject) : bool :=
  negb (truthy (get rowData "bill_number"))
  || negb (truthy (get rowData "order_total_amount")).

(** State of the [eachRow] loop: the map and the row numbers warned
    about. *)
Record Grouping : Type := { ordersMap : OrdersMap; warnings : list nat }.

(** Lines 76 to 93: the aggregate of the row's bill number is created when
    the map has none, and the row's line item is pushed on it. *)
Definition add_to_group (m : OrdersMap) (rowData : JsObject) : OrdersMap :=
  let billNumber := get rowData "bill_number" in
  let m1 :=
    if negb (Map_has m billNumber)
    then Map_set m billNumber {| fields := rowData; items := [] |}
    else m in
  Map_push_item m1 billNumber (item_of rowData).

(** The body of [worksheet.eachRow]'s callback. *)
Definition eachRow_step (values : list (nat * JsVal)) (g : Grouping) (r : Row) : Grouping :=
  if (number r =? 1)%nat || negb (hasValues r) then g
  else
    let rowData := rowData_of values r in
    if lacks_critical_data rowData
    then {| ordersMap := ordersMap g; warnings := warnings g ++ [number r] |}
    else {| ordersMap := add_to_group (ordersMap g) rowData; warnings := warnings g |}.

Definition groupRows (ws : Worksheet) : Grouping :=
  fold_left (eachRow_step (headerRow_values ws)) ws {| ordersMap := []; warnings := [] |}.

(** [Array.from(ordersMap.values())] *)
Definition parseFileAndGroupOrders (ws : Worksheet) : list OrderData :=
  map snd (ordersMap (groupRows ws)).

(** ** The relational store (models/*.js) *)

Module Customer.
Record row : Type := {
  id : nat;
  customer_user_id : JsVal;
  customer_username : JsVal;
  email : string;
  all_emails : list string;
  all_phones : list string;
  party_name : JsVal;
  company_billing : JsVal;
  gst_number : JsVal;
  state_name : JsVal;
  address : JsVal;
  pincode : JsVal;
  country : JsVal }.
End Customer.

Module Product.
Record row : Type := {
  id : nat;
  product_id : string;
  item_name : JsVal;
  hsn_code : JsVal }.
End Product.

Module Order.
Record row : Type := {
  id : nat;
  bill_number : string;
  order_number : JsVal;
  order_date : JsVal;
  cart_discount_amount : JsVal;
  order_subtotal_amount : JsVal;
  order_total_tax_amount : JsVal;
  order_total_amount : JsVal;
  payment_method : JsVal;
  transaction_id : JsVal;
  customerId : nat }.
End Order.

Module OrderItem.
Record row : Type := {
  id : nat;
  item_hash : JsVal;
  quantity : JsVal;
  unit_cost_at_sale : JsVal;
  gst_rate : JsVal;
  order_line_tax : JsVal;
  orderId : nat;
  productId : nat }.
End OrderItem.

(** The four tables and their auto-increment counters. *)
Record Db : Type := {
  customers : list Customer.row;
  orders : list Order.row;
  order_items : list OrderItem.row;
  products : list Product.row;
  next_customer_id : nat;
  next_order_id : nat;
  next_order_item_id : nat;
  next_product_id : nat }.

(** The values of a row to insert, waiting for the id the engine gives it. *)
Definition New (R : Type) : Type := nat -> R.

(** The writes the pipeline sends to the engine. *)
Inductive Write : Type :=
| InsertCustomer (c : Customer.row)
| UpdateCustomer (c : Customer.row)
| InsertOrder (o : Order.row)
| InsertProduct (p : Product.row)
| InsertOrderItems (l : list OrderItem.row).

(** What the code takes from its environment: the numeric builtins, the
    clock, and the storage engine's verdict on a write ([rejects db w] when
    validation or a constraint makes the write raise). *)
Class Host : Type := {
  parseFloat : JsVal -> JsVal;
  parseInt : JsVal -> JsVal;
  newDate : JsVal -> JsVal;
  currentDate : JsVal;
  rejects : Db -> Write -> bool }.

(** ** Code running inside a transaction *)

Definition Tx (A : Type) : Type := Db -> (Exn + A) * Db.

#[global] Instance Tx_ret : MRet Tx := fun A a db => (inr a, db).

#[global] Instance Tx_bind : MBind Tx := fun A B f m db =>
  match m db with
  | (inl e, db') => (inl e, db')
  | (inr a, db') => f a db'
  end.

Definition throw {A : Type} (e : Exn) : Tx A := fun db => (inl e, db).

Definition query {A : Type} (f : Db -> A) : Tx A := fun db => (inr (f db), db).

Definition try_pure {A : Type} (r : Exn + A) : Tx A := fun db => (r, db).

(** [t.rollback()]: the rows are those the transaction started from; the
    auto-increment counters stay where the transaction left them. *)
Definition rollback (before after : Db) : Db :=
  {| customers := customers before;
     orders := orders before;
     order_items := order_items before;
     products := products before;
     next_customer_id := next_customer_id after;
     next_order_id := next_order_id after;
     next_order_item_id := next_order_item_id after;
     next_product_id := next_product_id after |}.

(** ** The job tracker (the route handler of [/api/import-orders]) *)

Inductive Status : Type := PENDING | COMPLETED | FAILED.

Module Summary.
Record t : Type := {
  totalProcessed : nat;
  successfulInserts : nat;
  failedInserts : nat;
  skippedDuplicates : nat }.
End Summary.

Record JobState : Type := {
  status : Status;
  summary : Summary.t;
  error : option string }.

(** How the [try] block of one order ends when nothing is raised. *)
Inductive Completion : Type :=
| Inserted    (* reached [t.commit()] *)
| Duplicate.  (* [existingOrder] found: [t.rollback()] and [continue] *)

(** The [where] clauses of the three lookups. *)
Definition by_phone (phone : string) (c : Customer.row) : bool :=
  bool_decide (phone ∈ Customer.all_phones c).

Definition by_email (email : string) (c : Customer.row) : bool :=
  bool_decide (Customer.email c = email).

Definition by_bill (bill_number : string) (o : Order.row) : bool :=
  bool_decide (Order.bill_number o = bill_number).

Section WithHost.
Context {host : Host}.

Definition execute (w : Write) (apply : Db -> Db) : Tx unit := fun db =>
  if rejects db w then (inl (StorageError "write rejected"), db) else (inr tt, apply db).

(** [Customer.findOne({ where: JSON_CONTAINS(all_phones, '"phone"') })] *)
Definition Customer_findOne_by_phone (phone : string) : Tx (option Customer.row) :=
  query (fun db => List.find (by_phone phone) (customers db)).

(** [Customer.findOne({ where: { email } })] *)
Definition Customer_findOne_by_email (email : string) : Tx (option Customer.row) :=
  query (fun db => List.find (by_email email) (customers db)).

Definition set_customers (l : list Customer.row) (n : nat) (db : Db) : Db :=
  {| customers := l; orders := orders db; order_items := order_items db;
     products := products db; next_customer_id := n;
     next_order_id := next_order_id db;
     next_order_item_id := next_order_item_id db;
     next_product_id := next_product_id db |}.

Definition set_orders (l : list Order.row) (n : nat) (db : Db) : Db :=
  {| customers := customers db; orders := l; order_items := order_items db;
     products := products db; next_customer_id := next_customer_id db;
     next_order_id := n;
     next_order_item_id := next_order_item_id db;
     next_product_id := next_product_id db |}.

Definition set_order_items (l : list OrderItem.row) (n : nat) (db : Db) : Db :=
  {| customers := customers db; orders := orders db; order_items := l;
     products := products db; next_customer_id := next_customer_id db;
     next_order_id := next_order_id db;
     next_order_item_id := n;
     next_product_id := next_product_id db |}.

Definition set_products (l : list Product.row) (n : nat) (db : Db) : Db :=
  {| customers := customers db; orders := orders db; order_items := order_items db;
     products := l; next_customer_id := next_customer_id db;
     next_order_id := next_order_id db;
     next_order_item_id := next_order_item_id db;
     next_product_id := n |}.

(** The rows after [UPDATE customers SET ... WHERE id = c'.id]. *)
Definition replace_customer (c' : Customer.row) (l : list Customer.row) : list Customer.row :=
  map (fun c => if (Customer.id c =? Customer.id c')%nat then c' else c) l.

(** [customer.update(fields)]: the row with the instance's id is
    replaced. *)
Definition Customer_update (c' : Customer.row) : Tx unit :=
  execute (UpdateCustomer c') (fun db =>
    set_customers (replace_customer c' (customers db)) (next_customer_id db) db).

Definition Customer_create (data : New Customer.row) : Tx Customer.row := fun db =>
  let c := data (next_customer_id db) in
  (_ ← execute (InsertCustomer c) (fun db =>
         set_customers (customers db ++ [c]) (S (next_customer_id db)) db);
   mret c) db.

(** [Order.findOne({ where: { bill_number } })] *)
Definition Order_findOne (bill_number : string) : Tx (option Order.row) :=
  query (fun db => List.find (by_bill bill_number) (orders db)).

Definition Order_create (data : New Order.row) : Tx Order.row := fun db =>
  let o := data (next_order_id db) in
  (_ ← execute (InsertOrder o) (fun db =>
         set_orders (orders db ++ [o]) (S (next_order_id db)) db);
   mret o) db.

(** [Product.findOne({ where: { product_id } })] *)
Definition Product_findOne (product_id : string) : Tx (option Product.row) :=
  query (fun db =>
    List.find (fun p => bool_decide (Product.product_id p = product_id)) (products db)).

Definition Product_create (data : New Product.row) : Tx Product.row := fun db =>
  let p := data (next_product_id db) in
  (_ ← execute (InsertProduct p) (fun db =>
         set_products (products db ++ [p]) (S (next_product_id db)) db);
   mret p) db.

(** The staged rows receive consecutive ids. *)
Definition number_rows {R : Type} (first : nat) (l : list (New R)) : list R :=
  imap (fun i data => data (first + i)%nat) l.

Definition OrderItem_bulkCreate (l : list (New OrderItem.row)) : Tx unit := fun db =>
  let rows := number_rows (next_order_item_id db) l in
  execute (InsertOrderItems rows) (fun db =>
    set_order_items (order_items db ++ rows)
      (next_order_item_id db + List.length l)%nat db) db.

(** ** [findOrCreateCustomer] (importService.js) *)

Definition nonempty (s : string) : bool := negb (String.eqb s "").

(** The list after [if (x && !l.includes(x)) l.push(x)]. *)
Definition push_if_new (x : string) (l : list string) : list string :=
  if nonempty x && negb (bool_decide (x ∈ l)) then l ++ [x] else l.

(** The instance after [customer.update(customerUpdateFields)] in the
    merge branch. *)
Definition merge_customer (orderData : JsObject) (phone email : string)
    (customer : Customer.row) : Customer.row :=
  {| Customer.id := Customer.id customer;
     Customer.customer_user_id :=
       js_or (get orderData "customer_user_id") (Customer.customer_user_id customer);
     Customer.customer_username :=
       js_or (get orderData "customer_username") (Customer.customer_username customer);
     Customer.email := Customer.email customer;
     Customer.all_emails := push_if_new email (Customer.all_emails customer);
     Customer.all_phones := push_if_new phone (Customer.all_phones customer);
     Customer.party_name := js_or (get orderData "party_name") (Customer.party_name customer);
     Customer.company_billing :=
       js_or (get orderData "company_billing") (Customer.company_billing customer);
     Customer.gst_number := js_or (get orderData "gst_number") (Customer.gst_number customer);
     Customer.state_name := js_or (get orderData "state_name") (Customer.state_name customer);
     Customer.address := js_or (get orderData "address") (Customer.address customer);
     Customer.pincode := js_or (get orderData "pincode") (Customer.pincode customer);
     Customer.country := Customer.country customer |}.

(** [newCustomerData] *)
Definition new_customer (orderData : JsObject) (phone email : string) : New Customer.row :=
  fun id =>
  {| Customer.id := id;
     Customer.customer_user_id := get orderData "customer_user_id";
     Customer.customer_username := get orderData "customer_username";
     Customer.email := email;
     Customer.all_emails := if nonempty email then [email] else [];
     Customer.all_phones := if nonempty phone then [phone] else [];
     Customer.party_name := js_or (get orderData "party_name") (JStr "N/A");
     Customer.company_billing := js_or (get orderData "company_billing") (JStr "N/A");
     Customer.gst_number := get orderData "gst_number";
     Customer.state_name := js_or (get orderData "state_name") (JStr "N/A");
     Customer.address := js_or (get orderData "address") (JStr "N/A");
     Customer.pincode := js_or (get orderData "pincode") (JStr "N/A");
     Customer.country := js_or (get orderData "country") (JStr "N/A") |}.

(** [(orderData.email || '').toString().trim()] *)
Definition email_of (orderData : JsObject) : string :=
  trim (js_toString (js_or (get orderData "email") (JStr ""))).

(** The two searches: by phone first, by email when that found nobody. *)
Definition search_customer (phone email : string) : Tx (option Customer.row) :=
  (* 1. primary search, by phone *)
  customer ← (if nonempty phone then Customer_findOne_by_phone phone else mret None);
  (* 2. secondary search, by email *)
  match customer with
  | None => if nonempty email then Customer_findOne_by_email email else mret None
  | Some _ => mret customer
  end.

Definition findOrCreateCustomer (orderData : JsObject) : Tx Customer.row :=
  phone ← try_pure (normalizePhone (get orderData "phone"));
  let email := email_of orderData in
  customer ← search_customer phone email;
  match customer with
  | Some customer =>
      let merged := merge_customer orderData phone email customer in
      _ ← Customer_update merged;
      mret merged
  | None =>
      if negb (nonempty email) then
        throw (Error ("Missing primary unique key (Email) for new customer creation from party: "
                      +:+ js_toString (get orderData "party_name")))
      else Customer_create (new_customer orderData phone email)
  end.

(** ** [findOrCreateProduct] (importService.js) *)

Definition findOrCreateProduct (itemData : Item.t) : Tx Product.row :=
  let masterProductId := Item.product_id itemData in
  if negb (truthy masterProductId) then
    throw (Error ("Product Id/Item # is missing for item: "
                  +:+ js_toString (Item.item_name itemData)))
  else
    product ← Product_findOne (js_toString masterProductId);
    match product with
    | Some product => mret product
    | None =>
        Product_create (fun id =>
          {| Product.id := id;
             Product.product_id := js_toString masterProductId;
             Product.item_name := js_or (Item.item_name itemData) (JStr "Unknown Product");
             Product.hsn_code := Item.hsn_code itemData |})
    end.

(** ** The per-order transaction of [processOrderFile] *)

(** [orderToInsert] *)
Definition orderToInsert (orderData : JsObject) (customer : Customer.row) : New Order.row :=
  fun id =>
  {| Order.id := id;
     Order.bill_number := js_toString (get orderData "bill_number");
     Order.order_number := get orderData "order_number";
     Order.order_date :=
       if truthy (get orderData "order_date") then newDate (get orderData "order_date")
       else currentDate;
     Order.cart_discount_amount :=
       js_or (parseFloat (get orderData "cart_discount_amount")) (JNum 0);
     Order.order_subtotal_amount :=
       js_or (parseFloat (get orderData "order_subtotal_amount")) (JNum 0);
     Order.order_total_tax_amount :=
       js_or (parseFloat (get orderData "order_total_tax_amount")) (JNum 0);
     Order.order_total_amount :=
       js_or (parseFloat (get orderData "order_total_amount")) (JNum 0);
     Order.payment_method := get orderData "payment_method";
     Order.transaction_id := get orderData "transaction_id";
     Order.customerId := Customer.id customer |}.

(** The object pushed on [itemsToInsert]. *)
Definition itemToInsert (itemData : Item.t) (newOrder : Order.row) (product : Product.row)
    : New OrderItem.row :=
  fun id =>
  {| OrderItem.id := id;
     OrderItem.item_hash :=
       js_or (Item.item_hash itemData) (js_or (Item.product_id itemData) (JStr "N/A"));
     OrderItem.quantity := js_or (parseInt (Item.quantity itemData)) (JNum 0);
     OrderItem.unit_cost_at_sale :=
       js_or (parseFloat (Item.unit_cost_at_sale itemData)) (JNum 0);
     OrderItem.gst_rate := js_or (parseFloat (Item.gst_rate itemData)) (JNum 0);
     OrderItem.order_line_tax := js_or (parseFloat (Item.order_line_tax itemData)) (JNum 0);
     OrderItem.orderId := Order.id newOrder;
     OrderItem.productId := Product.id product |}.

(** The loop over [orderData.items]. *)
Fixpoint stage_items (newOrder : Order.row) (l : list Item.t)
    : Tx (list (New OrderItem.row)) :=
  match l with
  | [] => mret []
  | itemData :: l' =>
      product ← findOrCreateProduct itemData;
      rest ← stage_items newOrder l';
      mret (itemToInsert itemData newOrder product :: rest)
  end.

Definition orderTransaction (orderData : OrderData) : Tx Completion :=
  customer ← findOrCreateCustomer (fields orderData);
  existingOrder ← Order_findOne (js_toString (bill_number_of orderData));
  match existingOrder with
  | Some _ => mret Duplicate
  | None =>
      newOrder ← Order_create (orderToInsert (fields orderData) customer);
      itemsToInsert ← stage_items newOrder (items orderData);
      _ ← (if (0 <? List.length itemsToInsert)%nat
           then OrderItem_bulkCreate itemsToInsert else mret tt);
      mret Inserted
  end.

(** ** The loop of [processOrderFile] *)

(** The local counters, the store and the shared [jobStatus] object. *)
Record Loop : Type := {
  db : Db;
  successfulInserts : nat;
  skippedDuplicates : nat;
  failedInserts : nat;
  jobStatus : gmap string JobState }.

(** [jobStatus[jobId].summary = f(jobStatus[jobId].summary)] *)
Definition set_summary (f : Summary.t -> Summary.t) (jobId : string)
    (js : gmap string JobState) : gmap string JobState :=
  alter (fun j => {| status := status j; summary := f (summary j); error := error j |})
    jobId js.

Definition set_totalProcessed (n : nat) (s : Summary.t) : Summary.t :=
  {| Summary.totalProcessed := n;
     Summary.successfulInserts := Summary.successfulInserts s;
     Summary.failedInserts := Summary.failedInserts s;
     Summary.skippedDuplicates := Summary.skippedDuplicates s |}.

Definition set_successfulInserts (n : nat) (s : Summary.t) : Summary.t :=
  {| Summary.totalProcessed := Summary.totalProcessed s;
     Summary.successfulInserts := n;
     Summary.failedInserts := Summary.failedInserts s;
     Summary.skippedDuplicates := Summary.skippedDuplicates s |}.

Definition set_failedInserts (n : nat) (s : Summary.t) : Summary.t :=
  {| Summary.totalProcessed := Summary.totalProcessed s;
     Summary.successfulInserts := Summary.successfulInserts s;
     Summary.failedInserts := n;
     Summary.skippedDuplicates := Summary.skippedDuplicates s |}.

Definition set_skippedDuplicates (n : nat) (s : Summary.t) : Summary.t :=
  {| Summary.totalProcessed := Summary.totalProcessed s;
     Summary.successfulInserts := Summary.successfulInserts s;
     Summary.failedInserts := Summary.failedInserts s;
     Summary.skippedDuplicates := n |}.

(** One iteration of [for (const orderData of groupedOrders)]. *)
Definition processOrder (jobId : string) (st : Loop) (orderData : OrderData) : Loop :=
  match orderTransaction orderData (db st) with
  | (inr Duplicate, db') =>
      {| db := rollback (db st) db';
         successfulInserts := successfulInserts st;
         skippedDuplicates := S (skippedDuplicates st);
         failedInserts := failedInserts st;
         jobStatus :=
           set_summary (set_skippedDuplicates (S (skippedDuplicates st))) jobId (jobStatus st) |}
  | (inr Inserted, db') =>
      {| db := db';
         successfulInserts := S (successfulInserts st);
         skippedDuplicates := skippedDuplicates st;
         failedInserts := failedInserts st;
         jobStatus :=
           set_summary (set_successfulInserts (S (successfulInserts st))) jobId (jobStatus st) |}
  | (inl _, db') =>
      {| db := rollback (db st) db';
         successfulInserts := successfulInserts st;
         skippedDuplicates := skippedDuplicates st;
         failedInserts := S (failedInserts st);
         jobStatus :=
           set_summary (set_failedInserts (S (failedInserts st))) jobId (jobStatus st) |}
  end.

Definition processOrders (jobId : string) (st : Loop) (groupedOrders : list OrderData) : Loop :=
  fold_left (processOrder jobId) groupedOrders st.

(** [processOrderFile]: the summary it returns, the store and the job
    map it leaves; a [TypeError] when [jobStatus[jobId]] is missing. *)
Definition processOrderFile (ws : Worksheet) (js : gmap string JobState) (jobId : string)
    (d : Db) : Exn + (Summary.t * Loop) :=
  let groupedOrders := parseFileAndGroupOrders ws in
  match js !! jobId with
  | None => inl (TypeError "Cannot read properties of undefined (reading 'summary')")
  | Some _ =>
      let st :=
        processOrders jobId
          {| db := d; successfulInserts := 0; skippedDuplicates := 0; failedInserts := 0;
             jobStatus := set_summary (set_totalProcessed (List.length groupedOrders)) jobId js |}
          groupedOrders in
      match jobStatus st !! jobId with
      | Some j => inr (summary j, st)
      | None => inl (TypeError "Cannot read properties of undefined (reading 'summary')")
      end
  end.

(** The route handler: the job entry is created, the file processed, and
    the entry completed with the returned summary (or marked failed). *)
Definition initial_job : JobState :=
  {| status := PENDING;
     summary := {| Summary.totalProcessed := 0; Summary.successfulInserts := 0;
                   Summary.failedInserts := 0; Summary.skippedDuplicates := 0 |};
     error := None |}.

Definition exn_message (e : Exn) : string :=
  match e with TypeError m | Error m | StorageError m => m end.

Definition import_orders (ws : Worksheet) (js : gmap string JobState) (job_id : string)
    (d : Db) : gmap string JobState * Db :=
  let js0 := <[job_id := initial_job]> js in
  match processOrderFile ws js0 job_id d with
  | inr (finalSummary, st) =>
      (alter (fun j => {| status := COMPLETED; summary := finalSummary; error := error j |})
         job_id (jobStatus st), db st)
  | inl e =>
      (alter (fun j => {| status := FAILED; summary := summary j;
                          error := Some (exn_message e) |}) job_id js0, d)
  end.

End WithHost.

(** ** The delta auditor (data_reconciliation.js) *)

(** A JavaScript [Set] of strings, in insertion order. *)
Definition Set_has (s : list string) (x : string) : bool := bool_decide (x ∈ s).

Definition Set_add (s : list string) (x : string) : list string :=
  if Set_has s x then s else s ++ [x].

Definition Set_delete (s : list string) (x : string) : list string :=
  List.filter (fun y => negb (String.eqb y x)) s.

(** [new Set(l)] *)
Definition Set_from (l : list string) : list string := fold_left Set_add l [].

(** [getImportedBillNumbersFromDB]: the trimmed bill numbers of all orders. *)
Definition getImportedBillNumbersFromDB (d : Db) : list string :=
  Set_from (map (fun order => trim (Order.bill_number order)) (orders d)).

Record Delta : Type := {
  missingInDb : list string;
  extraInDb : list string;
  matched : nat }.

(** State of the loop over the CSV records. *)
Record Audit : Type := {
  csvBillNumbers : list string;
  importedDbBills : list string;
  result : Delta }.

(** [record['Invoice Number'] ? record['Invoice Number'].toString().trim() : null],
    with [None] for [null]. *)
Definition invoice_number (record : JsObject) : option string :=
  let v := get record "Invoice Number" in
  if truthy v then Some (trim (js_toString v)) else None.

(** The body of [for (const record of records)]. *)
Definition audit_record (a : Audit) (record : JsObject) : Audit :=
  match invoice_number record with
  | Some billNumber =>
      if negb (String.eqb billNumber "") then
        if Set_has (csvBillNumbers a) billNumber then a
        else
          let csv := Set_add (csvBillNumbers a) billNumber in
          if Set_has (importedDbBills a) billNumber then
            {| csvBillNumbers := csv;
               importedDbBills := Set_delete (importedDbBills a) billNumber;
               result := {| missingInDb := missingInDb (result a);
                            extraInDb := extraInDb (result a);
                            matched := S (matched (result a)) |} |}
          else
            {| csvBillNumbers := csv;
               importedDbBills := importedDbBills a;
               result := {| missingInDb := missingInDb (result a) ++ [billNumber];
                            extraInDb := extraInDb (result a);
                            matched := matched (result a) |} |}
      else a
  | None => a
  end.

(** [performDeltaAnalysis], from the set fetched from the store and the
    parsed records to the three-way result. *)
Definition deltaAnalysis (imported : list string) (records : list JsObject) : Delta :=
  let a := fold_left audit_record records
             {| csvBillNumbers := []; importedDbBills := imported;
                result := {| missingInDb := []; extraInDb := []; matched := 0 |} |} in
  {| missingInDb := missingInDb (result a);
     extraInDb := importedDbBills a;
     matched := matched (result a) |}.

Definition performDeltaAnalysis (d : Db) (records : list JsObject) : Delta :=
  deltaAnalysis (getImportedBillNumbersFromDB d) records.

(** The record of a CSV line whose invoice-number column holds [s]. *)
Definition csv_record (s : string) : JsObject := {[ "Invoice Number" := JStr s ]}.

(** ** Concrete hosts and inputs *)

(** A host whose engine accepts every write. *)
Definition reliable_host : Host :=
  {| parseFloat := fun v => match v with JNum n => JNum n | _ => JNum 0 end;
     parseInt := fun v => match v with JNum n => JNum n | _ => JNum 0 end;
     newDate := fun v => v;
     currentDate := JStr "2025-11-11";
     rejects := fun _ _ => false |}.

(** A host whose engine enforces [allowNull: false] on [order_number]
    (models/Order.js). *)
Definition strict_host : Host :=
  {| parseFloat := fun v => match v with JNum n => JNum n | _ => JNum 0 end;
     parseInt := fun v => match v with JNum n => JNum n | _ => JNum 0 end;
     newDate := fun v => v;
     currentDate := JStr "2025-11-11";
     rejects := fun _ w =>
       match w with
       | InsertOrder o => is_nullish (Order.order_number o)
       | _ => false
       end |}.

Definition empty_db : Db :=
  {| customers := []; orders := []; order_items := []; products := [];
     next_customer_id := 1; next_order_id := 1; next_order_item_id := 1;
     next_product_id := 1 |}.

Definition demo_header : Row :=
  {| number := 1;
     cells := [ (1, JStr "Bill Number"); (2, JStr "Order Number"); (3, JStr "Email");
                (4, JStr "Phone"); (5, JStr "Product Id"); (6, JStr "Quantity");
                (7, JStr "Order Total Amount") ]%nat |}.

Definition demo_row (n : nat) (bill order email phone product quantity total : JsVal) : Row :=
  {| number := n;
     cells := [ (1, bill); (2, order); (3, email); (4, phone); (5, product);
                (6, quantity); (7, total) ]%nat |}.

(** Two orders of one person: the first gives only a phone, the second the
    same phone and an email. *)
Definition ws_two_channels : Worksheet :=
  [ demo_header;
    demo_row 2 (JStr "B1") (JStr "O1") JNull (JStr "98765 43210") (JStr "P1") (JNum 1) (JNum 10);
    demo_row 3 (JStr "B2") (JStr "O2") (JStr "a@x.in") (JStr "+91 98765-43210") (JStr "P1")
      (JNum 2) (JNum 20) ].

Definition run (h : Host) (ws : Worksheet) (d : Db) : option (Summary.t * Db) :=
  match @processOrderFile h ws {[ "job" := initial_job ]} "job" d with
  | inr (s, st) => Some (s, db st)
  | inl _ => None
  end.

(** ** Notions used to state the properties *)

(** Two profiles: Asha is known by a phone, Ravi by another. *)
Definition asha : Customer.row :=
  {| Customer.id := 1; Customer.customer_user_id := JNum 11;
     Customer.customer_username := JStr "asha"; Customer.email := "asha@x.in";
     Customer.all_emails := ["asha@x.in"]; Customer.all_phones := ["9876543210"];
     Customer.party_name := JStr "Asha"; Customer.company_billing := JStr "N/A";
     Customer.gst_number := JUndefined; Customer.state_name := JStr "Kerala";
     Customer.address := JStr "N/A"; Customer.pincode := JStr "N/A";
     Customer.country := JStr "IN" |}.

Definition ravi : Customer.row :=
  {| Customer.id := 2; Customer.customer_user_id := JNum 12;
     Customer.customer_username := JStr "ravi"; Customer.email := "ravi@x.in";
     Customer.all_emails := ["ravi@x.in"]; Customer.all_phones := ["9000000001"];
     Customer.party_name := JStr "Ravi"; Customer.company_billing := JStr "N/A";
     Customer.gst_number := JUndefined; Customer.state_name := JStr "Goa";
     Customer.address := JStr "N/A"; Customer.pincode := JStr "N/A";
     Customer.country := JStr "IN" |}.

Definition db_two_profiles : Db :=
  {| customers := [asha; ravi];
     orders := []; order_items := []; products := [];
     next_customer_id := 3; next_order_id := 1; next_order_item_id := 1;
     next_product_id := 1 |}.

(** An order whose phone is Asha's and whose email is Ravi's. *)
Definition order_mixed_channels : JsObject :=
  list_to_map [ ("bill_number", JStr "B9"); ("order_total_amount", JNum 5);
                ("phone", JStr "+91 98765 43210"); ("email", JStr " ravi@x.in ");
                ("party_name", JStr "A. Ravi") ].

(** A row the callback of [eachRow] does not return from at once. *)
Definition visited (r : Row) : bool := negb ((number r =? 1)%nat || negb (hasValues r)).

(** The rows that reach the grouping: those [eachRow] visits after the
    header, with a truthy bill number and a truthy total, as [rowData]. *)
Definition surviving_rows (ws : Worksheet) : list JsObject :=
  List.filter (fun rowData => negb (lacks_critical_data rowData))
    (map (rowData_of (headerRow_values ws))
       (List.filter visited ws)).

(** The first occurrence of every element, in order of appearance. *)
Fixpoint first_occurrences {A : Type} (eqb : A -> A -> bool) (l : list A) : list A :=
  match l with
  | [] => []
  | k :: l' => k :: List.filter (fun k' => negb (eqb k k')) (first_occurrences eqb l')
  end.

(** No two elements of the list are equal for [eqb]. *)
Fixpoint pairwise_distinct {A : Type} (eqb : A -> A -> bool) (l : list A) : bool :=
  match l with
  | [] => true
  | k :: l' => negb (existsb (eqb k) l') && pairwise_distinct eqb l'
  end.

Definition bill_of_row (rowData : JsObject) : JsVal := get rowData "bill_number".

(** The rows of one bill number, in encounter order. *)
Definition rows_of_bill (k : JsVal) (rows : list JsObject) : list JsObject :=
  List.filter (fun rowData => sameValueZero k (bill_of_row rowData)) rows.

(** The aggregate the specification asks for: the order-level fields of the
    first row of the bill number, and the line items of all its rows. *)
Definition aggregate_of (rows : list JsObject) (k : JsVal) : OrderData :=
  {| fields := default ∅ (head (rows_of_bill k rows));
     items := map item_of (rows_of_bill k rows) |}.

Definition grouped (rows : list JsObject) : list OrderData :=
  map (aggregate_of rows) (first_occurrences sameValueZero (map bill_of_row rows)).

(** The rows that are dropped with a warning. *)
Definition dropped_rows (ws : Worksheet) : list Row :=
  List.filter (fun r => visited r && lacks_critical_data (rowData_of (headerRow_values ws) r)) ws.

(** Bills whose rows are interleaved; row 3 has no total and row 5 a zero
    total. *)
Definition ws_interleaved : Worksheet :=
  [ demo_header;
    demo_row 2 (JStr "B1") (JStr "O1") (JStr "a@x.in") JNull (JStr "P1") (JNum 1) (JNum 10);
    demo_row 3 (JStr "B2") (JStr "O2") (JStr "b@x.in") JNull (JStr "P2") (JNum 1) JNull;
    demo_row 4 (JStr "B3") (JStr "O3") (JStr "c@x.in") JNull (JStr "P3") (JNum 1) (JNum 30);
    demo_row 5 (JStr "B4") (JStr "O4") (JStr "d@x.in") JNull (JStr "P4") (JNum 1) (JNum 0);
    demo_row 6 (JStr "B1") (JStr "O1") (JStr "a@x.in") JNull (JStr "P5") (JNum 2) (JNum 10);
    demo_row 7 (JStr "B3") (JStr "O3") (JStr "c@x.in") JNull (JStr "P1") (JNum 3) (JNum 30) ].

(** The bill numbers of the source: the trimmed, non-blank values of the
    invoice-number column, in file order. *)
Definition source_bill_numbers (records : list JsObject) : list string :=
  List.filter nonempty (omap invoice_number records).

(** ** Notions about the store and a run *)

(** The customer the two searches return on a store. *)
Definition existing_customer (d : Db) (phone email : string) : option Customer.row :=
  match (if nonempty phone then List.find (by_phone phone) (customers d) else None) with
  | Some c => Some c
  | None => if nonempty email then List.find (by_email email) (customers d) else None
  end.

(** The two stores hold the same rows in every table. *)
Definition same_rows (d d' : Db) : Prop :=
  customers d' = customers d /\ orders d' = orders d
  /\ order_items d' = order_items d /\ products d' = products d.

(** The primary key of [customers]: ids are unique and below the counter. *)
Definition wf (d : Db) : Prop :=
  NoDup (map Customer.id (customers d))
  /\ Forall (fun i => (i < next_customer_id d)%nat) (map Customer.id (customers d)).

Definition knows_phone (d : Db) (phone : string) : Prop :=
  exists c, c ∈ customers d /\ phone ∈ Customer.all_phones c.

Definition has_bill (d : Db) (bill_number : string) : Prop :=
  exists o, o ∈ orders d /\ Order.bill_number o = bill_number.

(** The contact data of the order lets [findOrCreateCustomer] find or create
    a profile: the phone is a string or absent, and the email is non-empty
    or the phone is known. *)
Definition resolvable (d : Db) (orderData : JsObject) : Prop :=
  exists phone, normalizePhone (get orderData "phone") = inr phone
    /\ (email_of orderData ≠ "" \/ (phone ≠ "" /\ knows_phone d phone)).

(** The engine accepts every write to [customers]. *)
Definition accepts_customer_writes (host : Host) : Prop :=
  forall d c, rejects d (UpdateCustomer c) = false /\ rejects d (InsertCustomer c) = false.

(** How one order of the loop ends, and the store it leaves. *)
Inductive Outcome : Type := Success | Skipped | Failure.

Definition outcome_of {A : Type} (r : (Exn + Completion) * A) : Outcome :=
  match r with
  | (inr Inserted, _) => Success
  | (inr Duplicate, _) => Skipped
  | (inl _, _) => Failure
  end.

Definition outcome {host : Host} (orderData : OrderData) (d : Db) : Outcome :=
  outcome_of (orderTransaction orderData d).

Definition store_after {host : Host} (orderData : OrderData) (d : Db) : Db :=
  match orderTransaction orderData d with
  | (inr Inserted, d') => d'
  | (_, d') => rollback d d'
  end.

Fixpoint outcomes {host : Host} (l : list OrderData) (d : Db) : list Outcome :=
  match l with
  | [] => []
  | orderData :: l' => outcome orderData d :: outcomes l' (store_after orderData d)
  end.

Definition final_store {host : Host} (l : list OrderData) (d : Db) : Db :=
  fold_left (fun d orderData => store_after orderData d) l d.

Definition Outcome_eqb (a b : Outcome) : bool :=
  match a, b with
  | Success, Success | Skipped, Skipped | Failure, Failure => true
  | _, _ => false
  end.

Definition count (o : Outcome) (l : list Outcome) : nat :=
  List.length (List.filter (Outcome_eqb o) l).

Definition zero_summary : Summary.t :=
  {| Summary.totalProcessed := 0; Summary.successfulInserts := 0;
     Summary.failedInserts := 0; Summary.skippedDuplicates := 0 |}.

(** The entry of the job, with the summary that mirrors the local
    counters. *)
Definition mirrors (jobId : string) (total : nat) (st : Loop) : Prop :=
  exists j, jobStatus st !! jobId = Some j
    /\ Summary.totalProcessed (summary j) = total
    /\ Summary.successfulInserts (summary j) = successfulInserts st
    /\ Summary.skippedDuplicates (summary j) = skippedDuplicates st
    /\ Summary.failedInserts (summary j) = failedInserts st.

(** What a step of a run may do to the store, as far as the orders that
    follow can tell. *)
Record grows (d d' : Db) : Prop := {
  grows_wf : wf d -> wf d';
  grows_phone : wf d -> forall p, knows_phone d p -> knows_phone d' p;
  grows_orders : forall o, o ∈ orders d -> o ∈ orders d';
  grows_next : (next_customer_id d <= next_customer_id d')%nat }.

(** The text stored for the bill number of an aggregate. *)
Definition bill_text (orderData : OrderData) : string :=
  js_toString (bill_number_of orderData).

(** The order can be resolved to a customer and its bill number is
    persisted: a later pass over it is a duplicate. *)
Definition settled (d : Db) (orderData : OrderData) : Prop :=
  resolvable d (fields orderData) /\ has_bill d (bill_text orderData).

(** An order whose bill number is B2 and which names no contact at all. *)
Definition ws_no_contact : Worksheet :=
  [ demo_header;
    demo_row 2 (JStr "B2") (JStr "O2") JNull JNull (JStr "P1") (JNum 1) (JNum 20) ].

(** An order whose only line has no quantity. *)
Definition ws_no_quantity : Worksheet :=
  [ demo_header;
    demo_row 2 (JStr "B7") (JStr "O7") (JStr "k@x.in") (JStr "9000000007") (JStr "P7") JNull
      (JNum 70) ].

(** An order whose two rows carry a zero total. *)
Definition ws_zero_total : Worksheet :=
  [ demo_header;
    demo_row 2 (JStr "B5") (JStr "O5") (JStr "z@x.in") JNull (JStr "P1") (JNum 1) (JNum 0);
    demo_row 3 (JStr "B5") (JStr "O5") (JStr "z@x.in") JNull (JStr "P2") (JNum 1) (JStr "") ].

(** An exception is raised in the transaction of [orderData] started on
    [d], at one of its four steps; [d'] is the store the transaction sees
    at that point. *)
Inductive raised {host : Host} (orderData : OrderData) (d : Db) (e : Exn) (d' : Db) : Prop :=
| raised_by_customer_resolution :
    findOrCreateCustomer (fields orderData) d = (inl e, d') ->
    raised orderData d e d'
| raised_by_order_insert (customer : Customer.row) :
    findOrCreateCustomer (fields orderData) d = (inr customer, d') ->
    List.find (by_bill (bill_text orderData)) (orders d') = None ->
    rejects d' (InsertOrder (orderToInsert (fields orderData) customer (next_order_id d')))
    = true ->
    e = StorageError "write rejected" ->
    raised orderData d e d'
| raised_by_product_resolution (customer : Customer.row) (d1 : Db) :
    findOrCreateCustomer (fields orderData) d = (inr customer, d1) ->
    List.find (by_bill (bill_text orderData)) (orders d1) = None ->
    let o := orderToInsert (fields orderData) customer (next_order_id d1) in
    rejects d1 (InsertOrder o) = false ->
    stage_items o (items orderData)
      (set_orders (orders d1 ++ [o]) (S (next_order_id d1)) d1) = (inl e, d') ->
    raised orderData d e d'
| raised_by_items_insert (customer : Customer.row) (d1 : Db)
    (staged : list (New OrderItem.row)) :
    findOrCreateCustomer (fields orderData) d = (inr customer, d1) ->
    List.find (by_bill (bill_text orderData)) (orders d1) = None ->
    let o := orderToInsert (fields orderData) customer (next_order_id d1) in
    rejects d1 (InsertOrder o) = false ->
    stage_items o (items orderData)
      (set_orders (orders d1 ++ [o]) (S (next_order_id d1)) d1) = (inr staged, d') ->
    (0 < List.length staged)%nat ->
    rejects d' (InsertOrderItems (number_rows (next_order_item_id d') staged)) = true ->
    e = StorageError "write rejected" ->
    raised orderData d e d'.

Definition no_order : OrderData := {| fields := ∅; items := [] |}.

(** An order without order number. *)
Definition ws_no_order_number : Worksheet :=
  [ demo_header;
    demo_row 2 (JStr "B8") JNull (JStr "n@x.in") (JStr "9000000008") (JStr "P8") (JNum 1)
      (JNum 80) ].

(** The aggregate of [ws_no_order_number]. *)
Definition order_no_number : OrderData :=
  hd no_order (parseFileAndGroupOrders ws_no_order_number).

(** The loop state at the start of a run for the job "job". *)
Definition start_loop (d : Db) : Loop :=
  {| db := d; successfulInserts := 0; skippedDuplicates := 0; failedInserts := 0;
     jobStatus := {[ "job" := initial_job ]} |}.

(** ** Notions for the further properties *)

(** The loop state [processOrderFile] enters its loop with (lines 242 to
    246): the total is written to the job entry, the local counters are
    zero. *)
Definition loop_entry (total : nat) (js : gmap string JobState) (jobId : string) (d : Db)
    : Loop :=
  {| db := d; successfulInserts := 0; skippedDuplicates := 0; failedInserts := 0;
     jobStatus := set_summary (set_totalProcessed total) jobId js |}.

(** The summary of a job that has seen the outcomes [out] of [total]
    aggregates. *)
Definition summary_of (total : nat) (out : list Outcome) : Summary.t :=
  {| Summary.totalProcessed := total;
     Summary.successfulInserts := count Success out;
     Summary.failedInserts := count Failure out;
     Summary.skippedDuplicates := count Skipped out |}.

(** The number of line items held by a list of aggregates. *)
Definition total_items (l : list OrderData) : nat :=
  sum_list_with (fun o => List.length (items o)) l.

(** A sheet whose bill-number column is labelled "Bill No". *)
Definition ws_wrong_header : Worksheet :=
  [ {| number := 1;
       cells := [ (1, JStr "Bill No"); (2, JStr "Email"); (3, JStr "Order Total Amount") ]%nat |};
    {| number := 2; cells := [ (1, JStr "B1"); (2, JStr "a@x.in"); (3, JNum 10) ]%nat |};
    {| number := 3; cells := [ (1, JStr "B2"); (2, JStr "b@x.in"); (3, JNum 20) ]%nat |} ].

(** An order whose phone cell holds a number, as a spreadsheet stores it. *)
Definition ws_numeric_phone : Worksheet :=
  [ demo_header;
    demo_row 2 (JStr "B8") (JStr "O8") (JStr "n@x.in") (JNum 9876543210) (JStr "P1") (JNum 1)
      (JNum 80) ].

(** An order with a line that has neither product id nor item number. *)
Definition ws_no_product : Worksheet :=
  [ demo_header;
    demo_row 2 (JStr "B6") (JStr "O6") (JStr "m@x.in") JNull (JStr "P1") (JNum 1) (JNum 60);
    demo_row 3 (JStr "B6") (JStr "O6") (JStr "m@x.in") JNull JNull (JNum 1) (JNum 60) ].

(** The keys the pipeline searches by occur once in their tables: the
    customer ids (with the counter above them), the primary emails, the
    bill numbers and the external product identifiers. *)
Record unique_keys (d : Db) : Prop := {
  unique_ids : wf d;
  unique_emails : NoDup (map Customer.email (customers d));
  unique_bills : NoDup (map Order.bill_number (orders d));
  unique_products : NoDup (map Product.product_id (products d)) }.

(** Every foreign key names a row of the table it points to. *)
Record references_resolve (d : Db) : Prop := {
  order_customer : forall o, o ∈ orders d ->
    exists c, c ∈ customers d /\ Customer.id c = Order.customerId o;
  item_order : forall it, it ∈ order_items d ->
    exists o, o ∈ orders d /\ Order.id o = OrderItem.orderId it;
  item_product : forall it, it ∈ order_items d ->
    exists p, p ∈ products d /\ Product.id p = OrderItem.productId it }.

(** The number of line items of the aggregates whose outcome is a
    success. *)
Fixpoint inserted_items (l : list OrderData) (out : list Outcome) : nat :=
  match l, out with
  | orderData :: l', Success :: out' =>
      (List.length (items orderData) + inserted_items l' out')%nat
  | _ :: l', _ :: out' => inserted_items l' out'
  | _, _ => 0%nat
  end.

(** A primary key: the ids of the rows are distinct and below the
    auto-increment counter of the table. *)
Definition keyed {R : Type} (id : R -> nat) (rows : list R) (next : nat) : Prop :=
  NoDup (map id rows) /\ Forall (fun i => (i < next)%nat) (map id rows).

Record primary_keys (d : Db) : Prop := {
  customer_keys : keyed Customer.id (customers d) (next_customer_id d);
  order_keys : keyed Order.id (orders d) (next_order_id d);
  item_keys : keyed OrderItem.id (order_items d) (next_order_item_id d);
  product_keys : keyed Product.id (products d) (next_product_id d) }.

(** No counter of [d'] is behind the one of [d]. *)
Record counters_le (d d' : Db) : Prop := {
  customer_counter : (next_customer_id d <= next_customer_id d')%nat;
  order_counter : (next_order_id d <= next_order_id d')%nat;
  item_counter : (next_order_item_id d <= next_order_item_id d')%nat;
  product_counter : (next_product_id d <= next_product_id d')%nat }.

(** ** Trimming and the delta analysis in the specification's words *)

Definition all_space (s : string) : bool := forallb is_space (list_ascii_of_string s).

Definition starts_with_space (s : string) : bool :=
  match s with
  | String a _ => is_space a
  | EmptyString => false
  end.

Fixpoint ends_with_space (s : string) : bool :=
  match s with
  | EmptyString => false
  | String a EmptyString => is_space a
  | String _ s' => ends_with_space s'
  end.

(** [t] is [s] without its leading and its trailing white space. *)
Definition trimmed_of (s t : string) : Prop :=
  exists pre post,
    s = pre +:+ (t +:+ post)
    /\ all_space pre = true /\ all_space post = true
    /\ starts_with_space t = false /\ ends_with_space t = false.

(** The three-way classification of the specification, on the raw strings:
    the persisted bill numbers and the source bill numbers are trimmed, a
    blank source entry is no bill number, only the first occurrence of a
    bill number counts, and matching is equality of the trimmed strings. *)
Definition classify (persisted source : list string) : Delta :=
  let P := first_occurrences String.eqb (map trim persisted) in
  let S := first_occurrences String.eqb (List.filter nonempty (map trim source)) in
  {| missingInDb := List.filter (fun b => negb (bool_decide (b ∈ P))) S;
     extraInDb := List.filter (fun b => negb (bool_decide (b ∈ S))) P;
     matched := List.length (List.filter (fun b => bool_decide (b ∈ P)) S) |}.

(** One invoice whose bill number is a numeric cell in rows 2 and 4 and a
    text cell in row 3. *)
Definition ws_mixed_bill_cells : Worksheet :=
  [ demo_header;
    demo_row 2 (JNum 101) (JStr "O1") (JStr "a@x.in") JNull (JStr "P1") (JNum 1) (JNum 30);
    demo_row 3 (JStr "101") (JStr "O1") (JStr "a@x.in") JNull (JStr "P2") (JNum 1) (JNum 30);
    demo_row 4 (JNum 101) (JStr "O1") (JStr "a@x.in") JNull (JStr "P3") (JNum 1) (JNum 30) ].

(** * Properties *)

(** ** Phone normalization *)

Lemma strip_non_digits_filter (s : string) :
  list_ascii_of_string (strip_non_digits s)
  = List.filter is_digit (list_ascii_of_string s).
Proof.
  induction s as [|a s IH]; simpl; [reflexivity|].
  destruct (is_digit a); simpl; congruence.
Qed.

Lemma startsWith_91 (s : string) :
  startsWith "91" s = true -> exists rest, s = "91" +:+ rest /\ substring_from 2 s = rest.
Proof.
  destruct s as [|a [|b s]]; cbn [startsWith]; try discriminate.
  - rewrite andb_false_r. discriminate.
  - intros H. apply andb_prop in H as [Ha H]. apply andb_prop in H as [Hb _].
    apply Ascii.eqb_eq in Ha, Hb. subst. exists s. split; reflexivity.
Qed.

(** C4. [normalizePhone] keeps exactly the digits of a phone string, in
    order, and drops a leading "91" exactly when more than ten digits are
    left and they start with "91"; "+91 98765-43210" and "9876543210" both
    give "9876543210"; an empty or absent phone gives the empty string. *)
Theorem normalizePhone_spec :
  (forall s : string,
      let digits := strip_non_digits s in
      list_ascii_of_string digits = List.filter is_digit (list_ascii_of_string s)
      /\ ((startsWith "91" digits = true /\ (10 < String.length digits)%nat
           /\ exists rest, digits = "91" +:+ rest /\ normalizePhone (JStr s) = inr rest)
          \/ (~ (startsWith "91" digits = true /\ (10 < String.length digits)%nat)
              /\ normalizePhone (JStr s) = inr digits)))
  /\ normalizePhone (JStr "+91 98765-43210") = inr "9876543210"
  /\ normalizePhone (JStr "9876543210") = inr "9876543210"
  /\ normalizePhone (JStr "") = inr ""
  /\ normalizePhone JUndefined = inr ""
  /\ normalizePhone JNull = inr "".
Proof.
  split; [|repeat split; reflexivity].
  intros s digits. split; [apply strip_non_digits_filter|].
  unfold normalizePhone. destruct s as [|a s].
  - right. split; [|reflexivity]. simpl. intros [H _]. discriminate.
  - change (truthy (JStr (String a s))) with true. cbn [negb].
    fold digits.
    destruct (startsWith "91" digits) eqn:Hp; cbn [andb].
    + destruct (10 <? String.length digits)%nat eqn:Hl.
      * left. apply Nat.ltb_lt in Hl.
        destruct (startsWith_91 _ Hp) as (rest & Hd & Hr).
        split; [reflexivity|]. split; [exact Hl|].
        exists rest. split; [exact Hd|]. now rewrite Hr.
      * right. apply Nat.ltb_ge in Hl. split; [|reflexivity].
        intros [_ H]. lia.
    + right. split; [|reflexivity]. intros [H _]. discriminate.
Qed.

(** ** Customer resolution *)

Section Resolution.
Context {host : Host}.

Lemma search_customer_run (phone email : string) (d : Db) :
  search_customer phone email d
  = (inr (match (if nonempty phone then List.find (by_phone phone) (customers d) else None) with
          | Some c => Some c
          | None => if nonempty email then List.find (by_email email) (customers d) else None
          end), d).
Proof.
  unfold search_customer, mbind, Tx_bind.
  destruct (nonempty phone); cbn.
  - unfold by_phone. destruct (List.find _ (customers d)); cbn; [reflexivity|].
    destruct (nonempty email); reflexivity.
  - destruct (nonempty email); reflexivity.
Qed.

Lemma Customer_update_run (c' : Customer.row) (d : Db) :
  Customer_update c' d
  = if rejects d (UpdateCustomer c') then (inl (StorageError "write rejected"), d)
    else (inr tt, set_customers (replace_customer c' (customers d)) (next_customer_id d) d).
Proof. reflexivity. Qed.

(** The merge branch, once the searches found [c]. *)
Lemma findOrCreateCustomer_found (orderData : JsObject) (d : Db) (phone : string)
    (c : Customer.row) :
  normalizePhone (get orderData "phone") = inr phone ->
  search_customer phone (email_of orderData) d = (inr (Some c), d) ->
  findOrCreateCustomer orderData d
  = let c' := merge_customer orderData phone (email_of orderData) c in
    if rejects d (UpdateCustomer c') then (inl (StorageError "write rejected"), d)
    else (inr c', set_customers (replace_customer c' (customers d)) (next_customer_id d) d).
Proof.
  intros Hp Hs. unfold findOrCreateCustomer, mbind, Tx_bind, try_pure.
  rewrite Hp, Hs. cbn zeta. rewrite Customer_update_run.
  destruct (rejects d _); reflexivity.
Qed.

Lemma push_if_new_cases (x : string) (l : list string) :
  (x ≠ "" /\ (x ∉ l) /\ push_if_new x l = l ++ [x])
  \/ ((x = "" \/ x ∈ l) /\ push_if_new x l = l).
Proof.
  unfold push_if_new, nonempty.
  destruct (String.eqb_spec x ""); cbn.
  - right. auto.
  - destruct (bool_decide_reflect (x ∈ l)); cbn; [right|left]; auto.
Qed.

Lemma push_if_new_prefix (x : string) (l : list string) :
  l `prefix_of` (push_if_new x l).
Proof.
  destruct (push_if_new_cases x l) as [(_ & _ & ->)|(_ & ->)];
    [apply prefix_app_r|]; reflexivity.
Qed.


End Resolution.



Lemma replace_customer_lookup_ne (c' c : Customer.row) (l : list Customer.row) (i : nat) :
  l !! i = Some c -> Customer.id c ≠ Customer.id c' ->
  replace_customer c' l !! i = Some c.
Proof.
  intros Hi Hne. unfold replace_customer. rewrite list_lookup_fmap, Hi. cbn.
  destruct (Nat.eqb_spec (Customer.id c) (Customer.id c')); congruence.
Qed.

Lemma replace_customer_lookup_eq (c' c : Customer.row) (l : list Customer.row) (i : nat) :
  l !! i = Some c -> Customer.id c = Customer.id c' ->
  replace_customer c' l !! i = Some c'.
Proof.
  intros Hi He. unfold replace_customer. rewrite list_lookup_fmap, Hi. cbn.
  rewrite He, Nat.eqb_refl. reflexivity.
Qed.

Lemma find_elem_of {A : Type} (f : A -> bool) (l : list A) (x : A) :
  List.find f l = Some x -> x ∈ l /\ f x = true.
Proof.
  intros H. apply List.find_some in H as [Hin Hf]. split; [|exact Hf].
  apply list_elem_of_In. exact Hin.
Qed.



(** ** Row grouping *)

Lemma sameValueZero_refl (a : JsVal) : sameValueZero a a = true.
Proof.
  destruct a; cbn; auto using Z.eqb_refl, Nat.eqb_refl, String.eqb_refl.
  destruct b; reflexivity.
Qed.

Lemma sameValueZero_sym (a b : JsVal) : sameValueZero a b = sameValueZero b a.
Proof.
  destruct a, b; cbn; auto using Z.eqb_sym, Nat.eqb_sym, String.eqb_sym.
  destruct b, b0; reflexivity.
Qed.

Lemma sameValueZero_trans (a b c : JsVal) :
  sameValueZero a b = true -> sameValueZero b c = true -> sameValueZero a c = true.
Proof.
  destruct a, b; cbn; try discriminate; destruct c; cbn; try discriminate; auto.
  - destruct b, b0, b1; auto.
  - intros ->%Z.eqb_eq. auto.
  - intros ->%String.eqb_eq. auto.
  - intros ->%Nat.eqb_eq. auto.
Qed.

(** [sameValueZero] with a fixed left side does not tell apart two values
    that are the same key. *)
Lemma sameValueZero_congr (a b c : JsVal) :
  sameValueZero a b = true -> sameValueZero c a = sameValueZero c b.
Proof.
  intros Hab. destruct (sameValueZero c a) eqn:Hca.
  - symmetry. eapply sameValueZero_trans; eauto.
  - destruct (sameValueZero c b) eqn:Hcb; [|reflexivity].
    rewrite <- Hca. eapply sameValueZero_trans; [exact Hcb|].
    now rewrite sameValueZero_sym.
Qed.

Section FirstOccurrences.
Context {A : Type} (eqb : A -> A -> bool).
Hypothesis eqb_refl : forall a, eqb a a = true.
Hypothesis eqb_sym : forall a b, eqb a b = eqb b a.
Hypothesis eqb_congr : forall a b c, eqb a b = true -> eqb c a = eqb c b.

Lemma existsb_filter_other (a k : A) (l : list A) :
  eqb a k = false ->
  existsb (eqb k) (List.filter (fun k' => negb (eqb a k')) l) = existsb (eqb k) l.
Proof.
  intros Hak. induction l as [|x l IH]; [reflexivity|]. cbn.
  destruct (eqb a x) eqn:Hax; cbn; rewrite IH; [|reflexivity].
  assert (eqb k x = false) as ->; [|reflexivity].
  rewrite <- (eqb_congr a x k Hax). now rewrite eqb_sym.
Qed.

Lemma existsb_first_occurrences (k : A) (l : list A) :
  existsb (eqb k) (first_occurrences eqb l) = existsb (eqb k) l.
Proof.
  induction l as [|a l IH]; [reflexivity|]. cbn.
  destruct (eqb k a) eqn:Hka; [reflexivity|]. cbn.
  rewrite existsb_filter_other; [exact IH|]. now rewrite eqb_sym.
Qed.

Lemma first_occurrences_snoc (l : list A) (k : A) :
  first_occurrences eqb (l ++ [k])
  = if existsb (eqb k) l then first_occurrences eqb l else first_occurrences eqb l ++ [k].
Proof.
  induction l as [|a l IH]; [reflexivity|]. cbn. rewrite IH.
  destruct (eqb k a) eqn:Hka; cbn.
  - rewrite eqb_sym in Hka.
    destruct (existsb (eqb k) l); [reflexivity|].
    rewrite List.filter_app. cbn. rewrite Hka. cbn. now rewrite app_nil_r.
  - rewrite eqb_sym in Hka.
    destruct (existsb (eqb k) l); [reflexivity|].
    rewrite List.filter_app. cbn. rewrite Hka. reflexivity.
Qed.

Lemma pairwise_distinct_filter (p : A -> bool) (l : list A) :
  pairwise_distinct eqb l = true -> pairwise_distinct eqb (List.filter p l) = true.
Proof.
  induction l as [|a l IH]; [reflexivity|]. cbn.
  intros [Ha Hl]%andb_prop. destruct (p a); cbn; [|auto].
  rewrite IH by exact Hl. rewrite andb_true_r.
  apply negb_true_iff. apply negb_true_iff in Ha.
  clear -Ha. induction l as [|x l IH]; [reflexivity|]. cbn in *.
  apply orb_false_elim in Ha as [Hx Hl]. destruct (p x); cbn; [rewrite Hx|]; auto.
Qed.

Lemma existsb_filter_self (a : A) (l : list A) :
  existsb (eqb a) (List.filter (fun k' => negb (eqb a k')) l) = false.
Proof.
  induction l as [|x l IH]; [reflexivity|]. cbn.
  destruct (eqb a x) eqn:Hax; cbn; [exact IH|]. now rewrite Hax.
Qed.

Lemma first_occurrences_distinct (l : list A) :
  pairwise_distinct eqb (first_occurrences eqb l) = true.
Proof.
  induction l as [|a l IH]; [reflexivity|]. cbn.
  rewrite pairwise_distinct_filter by exact IH.
  now rewrite existsb_filter_self.
Qed.

End FirstOccurrences.

Lemma first_occurrences_subset {A : Type} (eqb : A -> A -> bool) (l : list A) (x : A) :
  x ∈ first_occurrences eqb l -> x ∈ l.
Proof.
  induction l as [|a l IH]; cbn; [auto|].
  intros [->|H]%elem_of_cons; [left|right].
  apply IH. apply list_elem_of_In in H. apply List.filter_In in H as [H _].
  now apply list_elem_of_In.
Qed.

Lemma Map_has_keys (F : list JsVal) (g : JsVal -> OrderData) (k : JsVal) :
  Map_has (map (fun k' => (k', g k')) F) k = existsb (sameValueZero k) F.
Proof.
  unfold Map_has. induction F as [|a F IH]; [reflexivity|]. cbn.
  now rewrite IH, (sameValueZero_sym a k).
Qed.

Lemma Map_set_fresh (m : OrdersMap) (k : JsVal) (v : OrderData) :
  Map_has m k = false -> Map_set m k v = m ++ [(k, v)].
Proof.
  unfold Map_has. induction m as [|e m IH]; [reflexivity|]. cbn.
  intros [He Hm]%orb_false_elim. rewrite He, IH by exact Hm. reflexivity.
Qed.

Lemma Map_push_item_fresh (m : OrdersMap) (k : JsVal) (v : OrderData) (it : Item.t) :
  Map_has m k = false ->
  Map_push_item (m ++ [(k, v)]) k it
  = m ++ [(k, {| fields := fields v; items := items v ++ [it] |})].
Proof.
  unfold Map_has. induction m as [|e m IH]; cbn.
  - now rewrite sameValueZero_refl.
  - intros [He Hm]%orb_false_elim. rewrite He, IH by exact Hm. reflexivity.
Qed.

(** Pushing on the entry of [k] in a map with pairwise distinct keys
    changes the aggregate of the keys equal to [k] and no other. *)
Lemma Map_push_item_keys (F : list JsVal) (g g' : JsVal -> OrderData) (k : JsVal)
    (it : Item.t) :
  pairwise_distinct sameValueZero F = true ->
  (forall k', k' ∈ F ->
     g' k' = if sameValueZero k' k
             then {| fields := fields (g k'); items := items (g k') ++ [it] |}
             else g k') ->
  Map_push_item (map (fun k' => (k', g k')) F) k it = map (fun k' => (k', g' k')) F.
Proof.
  induction F as [|a F IH]; [reflexivity|]. cbn.
  intros [Ha HF]%andb_prop Hg. apply negb_true_iff in Ha.
  pose proof (Hg a (list_elem_of_here _ _)) as Hga.
  destruct (sameValueZero a k) eqn:Hak.
  - rewrite Hga. f_equal. apply map_ext_in. intros x Hx. f_equal.
    apply list_elem_of_In in Hx. rewrite (Hg x) by now right.
    assert (sameValueZero x k = false) as ->; [|reflexivity].
    destruct (sameValueZero x k) eqn:Hxk; [|reflexivity].
    rewrite <- Ha. symmetry. apply existsb_exists. exists x.
    split; [now apply list_elem_of_In|].
    eapply sameValueZero_trans; [exact Hak|]. now rewrite sameValueZero_sym.
  - rewrite Hga. f_equal. apply IH; [exact HF|].
    intros x Hx. apply Hg. now right.
Qed.

Lemma rows_of_bill_snoc (k : JsVal) (rows : list JsObject) (rowData : JsObject) :
  rows_of_bill k (rows ++ [rowData])
  = rows_of_bill k rows ++ (if sameValueZero k (bill_of_row rowData) then [rowData] else []).
Proof. unfold rows_of_bill. rewrite List.filter_app. reflexivity. Qed.

Lemma rows_of_bill_none (k : JsVal) (rows : list JsObject) :
  existsb (sameValueZero k) (map bill_of_row rows) = false -> rows_of_bill k rows = [].
Proof.
  induction rows as [|r rows IH]; [reflexivity|]. cbn.
  intros [Hr Hrows]%orb_false_elim. rewrite Hr. auto.
Qed.

Lemma rows_of_bill_some (k : JsVal) (rows : list JsObject) :
  k ∈ map bill_of_row rows -> exists r rest, rows_of_bill k rows = r :: rest.
Proof.
  induction rows as [|r rows IH]; cbn; [intros H; inversion H|].
  intros H. destruct (sameValueZero k (bill_of_row r)) eqn:Hk; [eauto|].
  apply elem_of_cons in H as [->|H]; [|auto].
  now rewrite sameValueZero_refl in Hk.
Qed.

(** Grouping the surviving rows one by one builds, for the bill numbers in
    order of first appearance, the aggregate of all the rows of each. *)
Lemma add_to_group_fold (rows : list JsObject) :
  fold_left add_to_group rows []
  = map (fun k => (k, aggregate_of rows k))
      (first_occurrences sameValueZero (map bill_of_row rows)).
Proof.
  induction rows as [|rowData rows IH] using rev_ind; [reflexivity|].
  rewrite fold_left_app, IH. cbn [fold_left]. unfold add_to_group.
  fold (bill_of_row rowData). set (k := bill_of_row rowData).
  rewrite Map_has_keys.
  rewrite (existsb_first_occurrences sameValueZero sameValueZero_sym sameValueZero_congr).
  rewrite map_app. cbn [map]. fold k.
  rewrite (first_occurrences_snoc sameValueZero sameValueZero_sym).
  destruct (existsb (sameValueZero k) (map bill_of_row rows)) eqn:Hex; cbn [negb].
  - apply Map_push_item_keys.
    + apply first_occurrences_distinct.
    + intros k' Hk'. apply first_occurrences_subset in Hk'.
      destruct (rows_of_bill_some k' rows Hk') as (r & rest & Hr).
      unfold aggregate_of. rewrite rows_of_bill_snoc, Hr. fold k.
      destruct (sameValueZero k' k) eqn:Hkk.
      * cbn. rewrite map_app. reflexivity.
      * now rewrite app_nil_r.
  - rewrite Map_set_fresh, Map_push_item_fresh.
    + rewrite map_app. cbn [map]. f_equal.
      * apply map_ext_in. intros k' Hk'. f_equal.
        apply list_elem_of_In, first_occurrences_subset in Hk'.
        unfold aggregate_of. rewrite rows_of_bill_snoc. fold k.
        assert (sameValueZero k' k = false) as ->; [|now rewrite app_nil_r].
        destruct (sameValueZero k' k) eqn:Hkk; [|reflexivity].
        rewrite <- Hex. symmetry. apply existsb_exists. exists k'.
        split; [now apply list_elem_of_In|]. now rewrite sameValueZero_sym.
      * unfold aggregate_of. rewrite rows_of_bill_snoc, rows_of_bill_none by exact Hex.
        fold k. rewrite sameValueZero_refl. reflexivity.
    + rewrite Map_has_keys.
      now rewrite (existsb_first_occurrences sameValueZero sameValueZero_sym sameValueZero_congr).
    + rewrite Map_has_keys.
      now rewrite (existsb_first_occurrences sameValueZero sameValueZero_sym sameValueZero_congr).
Qed.

Lemma eachRow_step_cases (values : list (nat * JsVal)) (g : Grouping) (r : Row) :
  eachRow_step values g r
  = if visited r then
      if lacks_critical_data (rowData_of values r)
      then {| ordersMap := ordersMap g; warnings := warnings g ++ [number r] |}
      else {| ordersMap := add_to_group (ordersMap g) (rowData_of values r);
              warnings := warnings g |}
    else g.
Proof.
  unfold eachRow_step, visited.
  destruct ((number r =? 1)%nat || negb (hasValues r)); reflexivity.
Qed.

Lemma eachRow_fold_ordersMap (values : list (nat * JsVal)) (l : list Row) (g : Grouping) :
  ordersMap (fold_left (eachRow_step values) l g)
  = fold_left add_to_group
      (List.filter (fun rowData => negb (lacks_critical_data rowData))
         (map (rowData_of values) (List.filter visited l)))
      (ordersMap g).
Proof.
  revert g. induction l as [|r l IH]; intros g; [reflexivity|].
  cbn [fold_left List.filter]. rewrite IH, eachRow_step_cases.
  destruct (visited r); [|reflexivity]. cbn [map List.filter].
  destruct (lacks_critical_data (rowData_of values r)); reflexivity.
Qed.

Lemma eachRow_fold_warnings (values : list (nat * JsVal)) (l : list Row) (g : Grouping) :
  warnings (fold_left (eachRow_step values) l g)
  = warnings g
    ++ map number
         (List.filter (fun r => visited r && lacks_critical_data (rowData_of values r)) l).
Proof.
  revert g. induction l as [|r l IH]; intros g; cbn [fold_left List.filter].
  - now rewrite app_nil_r.
  - rewrite IH, eachRow_step_cases.
    destruct (visited r); [|reflexivity]. cbn [andb].
    destruct (lacks_critical_data (rowData_of values r)); [|reflexivity].
    cbn [warnings map]. now rewrite <- app_assoc.
Qed.

Lemma parseFileAndGroupOrders_grouped (ws : Worksheet) :
  parseFileAndGroupOrders ws = grouped (surviving_rows ws).
Proof.
  unfold parseFileAndGroupOrders, groupRows, grouped.
  rewrite eachRow_fold_ordersMap. cbn [ordersMap]. fold (surviving_rows ws).
  rewrite add_to_group_fold, map_map. reflexivity.
Qed.

Lemma groupRows_warnings (ws : Worksheet) :
  warnings (groupRows ws) = map number (dropped_rows ws).
Proof. unfold groupRows. now rewrite eachRow_fold_warnings. Qed.

Lemma aggregate_of_bill (rows : list JsObject) (k : JsVal) :
  k ∈ map bill_of_row rows ->
  sameValueZero k (bill_number_of (aggregate_of rows k)) = true.
Proof.
  intros Hk. destruct (rows_of_bill_some k rows Hk) as (r & rest & Hr).
  unfold bill_number_of, aggregate_of. cbn [fields]. rewrite Hr. cbn.
  assert (Hin : List.In r (rows_of_bill k rows)) by (rewrite Hr; now left).
  apply List.filter_In in Hin as [_ Hin]. exact Hin.
Qed.

(** X19. Rows are grouped by the value of their bill-number cell, compared
    as keys of a [Map] (same type and same value): the aggregates are, for
    the bill-number values of the surviving rows in order of first
    appearance, the line items of all the rows with that value in encounter
    order, with the order-level fields of the first such row; one aggregate
    per value, whatever the interleaving. *)
Theorem grouping_by_bill_number (ws : Worksheet) :
  let rows := surviving_rows ws in
  let bills := first_occurrences sameValueZero (map bill_of_row rows) in
  parseFileAndGroupOrders ws = map (aggregate_of rows) bills
  /\ pairwise_distinct sameValueZero bills = true
  /\ (forall rowData, rowData ∈ rows ->
        existsb (sameValueZero (bill_of_row rowData)) bills = true)
  /\ (forall k, k ∈ bills ->
        sameValueZero k (bill_number_of (aggregate_of rows k)) = true
        /\ items (aggregate_of rows k) = map item_of (rows_of_bill k rows)
        /\ head (rows_of_bill k rows) = Some (fields (aggregate_of rows k)))
  /\ (forall ws', 
        first_occurrences sameValueZero (map bill_of_row (surviving_rows ws')) = bills ->
        (forall k, rows_of_bill k (surviving_rows ws') = rows_of_bill k rows) ->
        parseFileAndGroupOrders ws' = parseFileAndGroupOrders ws).
Proof.
  intros rows bills.
  split; [apply parseFileAndGroupOrders_grouped|].
  split; [apply first_occurrences_distinct|].
  split.
  { intros rowData Hr. unfold bills.
    rewrite (existsb_first_occurrences sameValueZero sameValueZero_sym sameValueZero_congr).
    apply existsb_exists. exists (bill_of_row rowData).
    split; [|apply sameValueZero_refl].
    apply list_elem_of_In. apply list_elem_of_fmap. eauto. }
  split.
  { intros k Hk. apply first_occurrences_subset in Hk.
    split; [now apply aggregate_of_bill|]. split; [reflexivity|].
    destruct (rows_of_bill_some k rows Hk) as (r & rest & Hr).
    unfold aggregate_of. cbn [fields]. now rewrite Hr. }
  intros ws' Hb Hr. rewrite !parseFileAndGroupOrders_grouped. unfold grouped.
  rewrite Hb. fold rows. fold bills. apply map_ext. intros k.
  unfold aggregate_of. now rewrite Hr.
Qed.

Lemma grouping_by_bill_number_witness :
  map (fun o => (bill_number_of o, map Item.product_id (items o)))
    (parseFileAndGroupOrders ws_interleaved)
  = [ (JStr "B1", [JStr "P1"; JStr "P5"]); (JStr "B3", [JStr "P3"; JStr "P1"]) ].
Proof.
  rewrite (proj1 (grouping_by_bill_number ws_interleaved)).
  vm_compute. reflexivity.
Defined.

Lemma find_app {A : Type} (f : A -> bool) (l1 l2 : list A) :
  List.find f (l1 ++ l2)
  = match List.find f l1 with Some x => Some x | None => List.find f l2 end.
Proof.
  induction l1 as [|a l1 IH]; [reflexivity|]. cbn. destruct (f a); auto.
Qed.

Lemma headerRow_values_remove (l1 l2 : list Row) (r : Row) :
  number r ≠ 1%nat -> headerRow_values (l1 ++ r :: l2) = headerRow_values (l1 ++ l2).
Proof.
  intros Hr. unfold headerRow_values. rewrite !find_app. cbn [List.find].
  destruct (Nat.eqb_spec (number r) 1); [contradiction|]. reflexivity.
Qed.

Lemma lacking_is_falsy (rowData : JsObject) :
  rowData !! "bill_number" = None \/ rowData !! "order_total_amount" = None ->
  lacks_critical_data rowData = true.
Proof.
  unfold lacks_critical_data, get. intros [-> | ->]; cbn; [reflexivity|].
  apply orb_true_r.
Qed.

Lemma surviving_rows_remove (l1 l2 : list Row) (r : Row) :
  number r ≠ 1%nat ->
  lacks_critical_data (rowData_of (headerRow_values (l1 ++ r :: l2)) r) = true ->
  surviving_rows (l1 ++ r :: l2) = surviving_rows (l1 ++ l2).
Proof.
  intros Hr Hl. unfold surviving_rows.
  rewrite (headerRow_values_remove l1 l2 r Hr) in *.
  rewrite !List.filter_app, !map_app, !List.filter_app. f_equal.
  cbn [List.filter]. destruct (visited r); [|reflexivity].
  cbn [map List.filter]. now rewrite Hl.
Qed.

(** C7. A row without bill number or without total amount is dropped with a
    warning: the sheet groups into the same aggregates as the sheet without
    the row, so the run over it returns the same counters and leaves the
    same store. *)
Theorem row_lacking_critical_data_dropped (host : Host) (l1 l2 : list Row) (r : Row) :
  number r ≠ 1%nat ->
  hasValues r = true ->
  rowData_of (headerRow_values (l1 ++ r :: l2)) r !! "bill_number" = None
  \/ rowData_of (headerRow_values (l1 ++ r :: l2)) r !! "order_total_amount" = None ->
  r ∈ dropped_rows (l1 ++ r :: l2)
  /\ number r ∈ warnings (groupRows (l1 ++ r :: l2))
  /\ surviving_rows (l1 ++ r :: l2) = surviving_rows (l1 ++ l2)
  /\ parseFileAndGroupOrders (l1 ++ r :: l2) = parseFileAndGroupOrders (l1 ++ l2)
  /\ (forall js jobId d,
        processOrderFile (l1 ++ r :: l2) js jobId d = processOrderFile (l1 ++ l2) js jobId d).
Proof.
  intros Hr Hv Hlack. apply lacking_is_falsy in Hlack.
  assert (Hd : r ∈ dropped_rows (l1 ++ r :: l2)).
  { unfold dropped_rows. apply list_elem_of_In, List.filter_In. split.
    - apply List.in_or_app. right. now left.
    - rewrite Hlack. unfold visited. rewrite Hv.
      destruct (Nat.eqb_spec (number r) 1); [contradiction|]. reflexivity. }
  assert (Hs := surviving_rows_remove l1 l2 r Hr Hlack).
  assert (Hp : parseFileAndGroupOrders (l1 ++ r :: l2) = parseFileAndGroupOrders (l1 ++ l2))
    by (rewrite !parseFileAndGroupOrders_grouped; now rewrite Hs).
  split; [exact Hd|]. split.
  { rewrite groupRows_warnings. apply list_elem_of_fmap. eauto. }
  split; [exact Hs|]. split; [exact Hp|].
  intros js jobId d. unfold processOrderFile. now rewrite Hp.
Qed.

Lemma row_lacking_critical_data_dropped_witness :
  warnings (groupRows ws_interleaved) = [3; 5]%nat
  /\ parseFileAndGroupOrders ws_interleaved
     = parseFileAndGroupOrders
         (firstn 2 ws_interleaved ++ skipn 3 ws_interleaved).
Proof.
  split; [vm_compute; reflexivity|].
  refine (proj1 (proj2 (proj2 (proj2
    (row_lacking_critical_data_dropped reliable_host (firstn 2 ws_interleaved)
       (skipn 3 ws_interleaved)
       (demo_row 3 (JStr "B2") (JStr "O2") (JStr "b@x.in") JNull (JStr "P2") (JNum 1) JNull)
       _ _ _))))).
  - cbn. lia.
  - vm_compute; reflexivity.
  - right. vm_compute; reflexivity.
Defined.

(** ** Delta analysis *)

Lemma string_eqb_congr (a b c : string) :
  String.eqb a b = true -> String.eqb c a = String.eqb c b.
Proof. now intros ->%String.eqb_eq. Qed.

Lemma existsb_eqb_elem_of (x : string) (l : list string) :
  existsb (String.eqb x) l = bool_decide (x ∈ l).
Proof.
  induction l as [|a l IH]; cbn.
  - symmetry. apply bool_decide_eq_false. apply not_elem_of_nil.
  - rewrite IH. destruct (String.eqb_spec x a) as [->|Hne]; cbn.
    + symmetry. apply bool_decide_eq_true. left.
    + apply bool_decide_ext. rewrite elem_of_cons. tauto.
Qed.

Lemma Set_has_first_occurrences (l : list string) (x : string) :
  Set_has (first_occurrences String.eqb l) x = Set_has l x.
Proof.
  unfold Set_has. rewrite <- !existsb_eqb_elem_of.
  apply (existsb_first_occurrences String.eqb String.eqb_sym string_eqb_congr).
Qed.

Lemma Set_from_first_occurrences (l : list string) :
  Set_from l = first_occurrences String.eqb l.
Proof.
  unfold Set_from. induction l as [|x l IH] using rev_ind; [reflexivity|].
  rewrite fold_left_app, IH. cbn [fold_left].
  rewrite (first_occurrences_snoc String.eqb String.eqb_sym).
  unfold Set_add. rewrite Set_has_first_occurrences. unfold Set_has.
  now rewrite existsb_eqb_elem_of.
Qed.

Lemma filter_ext_elem_of {A : Type} (f g : A -> bool) (l : list A) :
  (forall x, x ∈ l -> f x = g x) -> List.filter f l = List.filter g l.
Proof.
  intros H. apply List.filter_ext_in. intros x Hx. apply H. now apply list_elem_of_In.
Qed.

Lemma filter_all {A : Type} (f : A -> bool) (l : list A) :
  (forall x, x ∈ l -> f x = true) -> List.filter f l = l.
Proof.
  induction l as [|a l IH]; [reflexivity|]. intros H. cbn.
  rewrite (H a) by left. rewrite IH; [reflexivity|]. intros x Hx. apply H. now right.
Qed.

Lemma filter_filter {A : Type} (f g : A -> bool) (l : list A) :
  List.filter f (List.filter g l) = List.filter (fun x => g x && f x) l.
Proof.
  induction l as [|a l IH]; [reflexivity|]. cbn.
  destruct (g a); cbn; [destruct (f a)|]; now rewrite IH.
Qed.

Lemma Set_has_snoc (l : list string) (b x : string) :
  Set_has (l ++ [b]) x = Set_has l x || String.eqb x b.
Proof.
  unfold Set_has. rewrite <- !existsb_eqb_elem_of, existsb_app. cbn.
  now rewrite orb_false_r.
Qed.

Lemma source_bill_numbers_snoc (records : list JsObject) (record : JsObject) :
  source_bill_numbers (records ++ [record])
  = source_bill_numbers records
    ++ match invoice_number record with
       | Some b => if nonempty b then [b] else []
       | None => []
       end.
Proof.
  unfold source_bill_numbers. rewrite omap_app, List.filter_app. f_equal.
  cbn. destruct (invoice_number record); reflexivity.
Qed.

(** The state of the audit loop after a prefix of the records. *)
Lemma audit_fold (imported : list string) (records : list JsObject) :
  let keys := first_occurrences String.eqb (source_bill_numbers records) in
  fold_left audit_record records
    {| csvBillNumbers := []; importedDbBills := imported;
       result := {| missingInDb := []; extraInDb := []; matched := 0 |} |}
  = {| csvBillNumbers := keys;
       importedDbBills := List.filter (fun b => negb (Set_has keys b)) imported;
       result := {| missingInDb := List.filter (fun b => negb (Set_has imported b)) keys;
                    extraInDb := [];
                    matched := List.length (List.filter (Set_has imported) keys) |} |}.
Proof.
  induction records as [|record records IH] using rev_ind.
  - cbn. f_equal. symmetry. apply filter_all. intros x _.
    apply negb_true_iff, bool_decide_eq_false, not_elem_of_nil.
  - cbv zeta in *. rewrite fold_left_app, IH. cbn [fold_left].
    rewrite source_bill_numbers_snoc. set (src := source_bill_numbers records).
    unfold audit_record.
    destruct (invoice_number record) as [b|]; cbn [csvBillNumbers];
      [|now rewrite app_nil_r].
    fold (nonempty b). destruct (nonempty b) eqn:Hb; [|now rewrite app_nil_r].
    rewrite (first_occurrences_snoc String.eqb String.eqb_sym).
    rewrite Set_has_first_occurrences. unfold Set_has at 1.
    rewrite existsb_eqb_elem_of.
    destruct (bool_decide_reflect (b ∈ src)) as [Hin|Hnin]; [reflexivity|].
    set (keys := first_occurrences String.eqb src).
    assert (Hk : Set_has keys b = false).
    { unfold keys. rewrite Set_has_first_occurrences. now apply bool_decide_eq_false. }
    cbn [importedDbBills result missingInDb extraInDb matched].
    assert (Hadd : Set_add keys b = keys ++ [b]) by (unfold Set_add; now rewrite Hk).
    assert (Hhas : Set_has (List.filter (fun b0 => negb (Set_has keys b0)) imported) b
                   = Set_has imported b).
    { unfold Set_has at 1 3. apply bool_decide_ext.
      rewrite !list_elem_of_In, List.filter_In, Hk. cbn. tauto. }
    rewrite Hhas, Hadd, !List.filter_app. cbn [List.filter].
    destruct (Set_has imported b) eqn:Hib; cbn [negb].
    + f_equal.
      * unfold Set_delete. rewrite filter_filter. apply filter_ext_elem_of.
        intros x _. rewrite Set_has_snoc, negb_orb. reflexivity.
      * f_equal; [now rewrite app_nil_r|]. rewrite length_app. cbn. lia.
    + f_equal.
      * apply filter_ext_elem_of. intros x Hx. rewrite Set_has_snoc.
        destruct (String.eqb_spec x b) as [->|]; [|now rewrite orb_false_r].
        exfalso. unfold Set_has in Hib. apply bool_decide_eq_false in Hib. auto.
      * f_equal. now rewrite app_nil_r.
Qed.

(** [trim] removes the leading and the trailing white space, and nothing
    else. *)
Lemma trimStart_spec (s : string) :
  exists pre, s = pre +:+ trimStart s /\ all_space pre = true
    /\ starts_with_space (trimStart s) = false.
Proof.
  induction s as [|a s (pre & Hs & Hpre & Hst)]; [exists ""; auto|].
  cbn [trimStart]. destruct (is_space a) eqn:Ha.
  - exists (String a pre). split; [|split; [|exact Hst]].
    + change (String a s = String a (pre +:+ trimStart s)). now f_equal.
    + unfold all_space in *. cbn [list_ascii_of_string forallb]. now rewrite Ha, Hpre.
  - exists "". split; [reflexivity|]. split; [reflexivity|exact Ha].
Qed.

Lemma trimEnd_spec (s : string) :
  exists post, s = trimEnd s +:+ post /\ all_space post = true
    /\ ends_with_space (trimEnd s) = false.
Proof.
  induction s as [|a s (post & Hs & Hpost & Hend)]; [exists ""; auto|].
  cbn [trimEnd]. destruct (trimEnd s) as [|b t] eqn:Ht.
  - change (s = post) in Hs. subst s. destruct (is_space a) eqn:Ha.
    + exists (String a post). split; [reflexivity|]. split; [|reflexivity].
      unfold all_space in *. cbn [list_ascii_of_string forallb]. now rewrite Ha, Hpost.
    + exists post. split; [reflexivity|]. split; [exact Hpost|exact Ha].
  - exists post. split; [|split; [exact Hpost|exact Hend]].
    change (String a s = String a (String b t +:+ post)). now f_equal.
Qed.

Lemma trimEnd_head (s : string) :
  starts_with_space s = false -> starts_with_space (trimEnd s) = false.
Proof.
  destruct s as [|a s]; [auto|]. cbn [trimEnd starts_with_space]. intros Ha.
  destruct (trimEnd s); [rewrite Ha|]; auto.
Qed.

Lemma trim_spec (s : string) : trimmed_of s (trim s).
Proof.
  unfold trim, trimmed_of.
  destruct (trimStart_spec s) as (pre & Hs & Hpre & Hst).
  destruct (trimEnd_spec (trimStart s)) as (post & Hu & Hpost & Hend).
  exists pre, post. rewrite <- Hu.
  split; [exact Hs|]. split; [exact Hpre|]. split; [exact Hpost|].
  split; [now apply trimEnd_head|exact Hend].
Qed.

Lemma invoice_number_csv (x : string) :
  invoice_number (csv_record x) = if nonempty x then Some (trim x) else None.
Proof.
  unfold invoice_number, csv_record, get. rewrite lookup_singleton_eq. reflexivity.
Qed.

Lemma source_bill_numbers_csv (source : list string) :
  source_bill_numbers (map csv_record source) = List.filter nonempty (map trim source).
Proof.
  unfold source_bill_numbers. induction source as [|x source IH]; [reflexivity|].
  cbn [map omap list_omap]. rewrite invoice_number_csv.
  destruct x as [|a x]; [exact IH|].
  change (nonempty (String a x)) with true. cbn [List.filter].
  destruct (nonempty (trim (String a x))); [f_equal|]; exact IH.
Qed.

(** C9. The delta analysis classifies the first occurrence of every
    distinct trimmed (non-blank) source bill number: matched when the
    persisted set has exactly that string, missing otherwise; the extra
    entries are the persisted bill numbers that no source entry equals.
    The persisted set holds the trimmed bill numbers of the orders.  With
    persisted A, B, C and source B, C, D: two matched, D missing, A extra.
    On a source of strings the result is the classification of the
    specification on the raw strings, where trimming removes exactly the
    leading and trailing white space: a padded bill number matches the
    same bill number padded otherwise. *)
Theorem delta_analysis_classifies (d : Db) (imported : list string)
    (records : list JsObject) :
  let source := first_occurrences String.eqb (source_bill_numbers records) in
  let r := deltaAnalysis imported records in
  matched r = List.length (List.filter (Set_has imported) source)
  /\ missingInDb r = List.filter (fun b => negb (Set_has imported b)) source
  /\ extraInDb r
     = List.filter (fun b => negb (Set_has (source_bill_numbers records) b)) imported
  /\ performDeltaAnalysis d records
     = deltaAnalysis
         (first_occurrences String.eqb
            (map (fun order => trim (Order.bill_number order)) (orders d)))
         records
  /\ (forall b, Set_has (getImportedBillNumbersFromDB d) b = true
        <-> exists order, order ∈ orders d /\ trim (Order.bill_number order) = b)
  /\ deltaAnalysis ["A"; "B"; "C"] (map csv_record ["B"; "C"; "D"])
     = {| missingInDb := ["D"]; extraInDb := ["A"]; matched := 2 |}
  /\ (forall s, trimmed_of s (trim s))
  /\ (forall (store : Db) (source : list string),
        performDeltaAnalysis store (map csv_record source)
        = classify (map Order.bill_number (orders store)) source)
  /\ classify ["B1  "; " A"; "C"] ["  B1"; "B1 "; " "; "D "; "C"]
     = {| missingInDb := ["D"]; extraInDb := ["A"]; matched := 2 |}.
Proof.
  intros source r.
  assert (Hr : r = {| missingInDb := List.filter (fun b => negb (Set_has imported b)) source;
                      extraInDb := List.filter (fun b => negb (Set_has source b)) imported;
                      matched := List.length (List.filter (Set_has imported) source) |}).
  { unfold r, deltaAnalysis. now rewrite audit_fold. }
  rewrite Hr. cbn [matched missingInDb extraInDb].
  split; [reflexivity|]. split; [reflexivity|].
  split.
  { apply filter_ext_elem_of. intros b _. unfold source.
    now rewrite Set_has_first_occurrences. }
  split.
  { unfold performDeltaAnalysis, getImportedBillNumbersFromDB.
    now rewrite Set_from_first_occurrences. }
  split.
  { intros b. unfold getImportedBillNumbersFromDB.
    rewrite Set_from_first_occurrences, Set_has_first_occurrences. unfold Set_has.
    rewrite bool_decide_eq_true, list_elem_of_fmap. split.
    - intros (o & -> & Ho). eauto.
    - intros (o & Ho & <-). eauto. }
  split; [vm_compute; reflexivity|].
  split; [apply trim_spec|].
  split; [|vm_compute; reflexivity].
  intros store src. unfold performDeltaAnalysis, deltaAnalysis, classify.
  rewrite audit_fold. cbn [missingInDb extraInDb matched result importedDbBills].
  unfold getImportedBillNumbersFromDB.
  rewrite Set_from_first_occurrences, source_bill_numbers_csv, map_map.
  reflexivity.
Qed.

(** ** The job counters *)

Section Counters.
Context {host : Host}.

Lemma processOrder_db (jobId : string) (st : Loop) (orderData : OrderData) :
  db (processOrder jobId st orderData) = store_after orderData (db st).
Proof.
  unfold processOrder, store_after.
  destruct (orderTransaction orderData (db st)) as [[e|[]] d']; reflexivity.
Qed.

Lemma processOrders_db (jobId : string) (l : list OrderData) (st : Loop) :
  db (processOrders jobId st l) = final_store l (db st).
Proof.
  unfold processOrders, final_store. revert st.
  induction l as [|o l IH]; intros st; [reflexivity|].
  cbn [fold_left]. now rewrite IH, processOrder_db.
Qed.

Lemma outcomes_length (l : list OrderData) (d : Db) :
  List.length (outcomes l d) = List.length l.
Proof. revert d. induction l as [|o l IH]; intros d; cbn; auto. Qed.

Lemma count_cons (o a : Outcome) (l : list Outcome) :
  count o (a :: l) = ((if Outcome_eqb o a then 1 else 0) + count o l)%nat.
Proof. unfold count. cbn. destruct (Outcome_eqb o a); reflexivity. Qed.

Lemma count_total (l : list Outcome) :
  (count Success l + count Skipped l + count Failure l)%nat = List.length l.
Proof.
  induction l as [|a l IH]; [reflexivity|]. rewrite !count_cons. cbn [List.length].
  destruct a; cbn; lia.
Qed.

Lemma set_summary_lookup (f : Summary.t -> Summary.t) (jobId : string)
    (js : gmap string JobState) (j : JobState) :
  js !! jobId = Some j ->
  set_summary f jobId js !! jobId
  = Some {| status := status j; summary := f (summary j); error := error j |}.
Proof. intros H. unfold set_summary. now rewrite lookup_alter_eq, H. Qed.

(** One iteration adds one to exactly one local counter, according to the
    outcome, and writes that counter to the job entry. *)
Lemma processOrder_counts (jobId : string) (total : nat) (st : Loop) (orderData : OrderData) :
  mirrors jobId total st ->
  let st' := processOrder jobId st orderData in
  mirrors jobId total st'
  /\ match outcome orderData (db st) with
     | Success => successfulInserts st' = S (successfulInserts st)
                  /\ skippedDuplicates st' = skippedDuplicates st
                  /\ failedInserts st' = failedInserts st
     | Skipped => successfulInserts st' = successfulInserts st
                  /\ skippedDuplicates st' = S (skippedDuplicates st)
                  /\ failedInserts st' = failedInserts st
     | Failure => successfulInserts st' = successfulInserts st
                  /\ skippedDuplicates st' = skippedDuplicates st
                  /\ failedInserts st' = S (failedInserts st)
     end.
Proof.
  intros (j & Hj & Ht & Hs & Hk & Hf). unfold processOrder, outcome, outcome_of, mirrors.
  destruct (orderTransaction orderData (db st)) as [[e|[]] d'];
    cbn [jobStatus successfulInserts skippedDuplicates failedInserts];
    (split; [|auto]);
    eexists; (split; [apply set_summary_lookup; exact Hj|]); cbn; auto.
Qed.

Lemma processOrders_counts (jobId : string) (total : nat) (l : list OrderData) (st : Loop) :
  mirrors jobId total st ->
  let st' := processOrders jobId st l in
  let out := outcomes l (db st) in
  mirrors jobId total st'
  /\ successfulInserts st' = (successfulInserts st + count Success out)%nat
  /\ skippedDuplicates st' = (skippedDuplicates st + count Skipped out)%nat
  /\ failedInserts st' = (failedInserts st + count Failure out)%nat.
Proof.
  revert st. induction l as [|o l IH]; intros st Hm; cbn zeta.
  - cbn. unfold count. cbn. rewrite !Nat.add_0_r. auto.
  - unfold processOrders. cbn [fold_left outcomes]. fold (processOrders jobId (processOrder jobId st o) l).
    destruct (processOrder_counts jobId total st o Hm) as [Hm' Hc].
    destruct (IH _ Hm') as (Hm'' & Hs & Hk & Hf).
    rewrite processOrder_db in Hs, Hk, Hf.
    split; [exact Hm''|]. rewrite Hs, Hk, Hf, !count_cons.
    destruct (outcome o (db st)); destruct Hc as (-> & -> & ->); cbn; lia.
Qed.

(** The summary [processOrderFile] returns for a job entry that starts
    with zero counters. *)
Lemma processOrderFile_summary (ws : Worksheet) (js : gmap string JobState)
    (jobId : string) (j : JobState) (d : Db) :
  js !! jobId = Some j ->
  summary j = zero_summary ->
  let l := parseFileAndGroupOrders ws in
  let out := outcomes l d in
  exists st,
    processOrderFile ws js jobId d
    = inr ({| Summary.totalProcessed := List.length l;
              Summary.successfulInserts := count Success out;
              Summary.failedInserts := count Failure out;
              Summary.skippedDuplicates := count Skipped out |}, st)
    /\ db st = final_store l d
    /\ is_Some (jobStatus st !! jobId).
Proof.
  intros Hj Hz l out. unfold processOrderFile. rewrite Hj. fold l.
  set (st0 := {| db := d; successfulInserts := 0; skippedDuplicates := 0;
                 failedInserts := 0;
                 jobStatus := set_summary (set_totalProcessed (List.length l)) jobId js |}).
  assert (Hm : mirrors jobId (List.length l) st0).
  { eexists. split; [apply set_summary_lookup; exact Hj|]. rewrite Hz. cbn. auto. }
  destruct (processOrders_counts jobId (List.length l) l st0 Hm)
    as ((j' & Hj' & Ht & Hs & Hk & Hf) & Hs' & Hk' & Hf').
  rewrite Hj'. exists (processOrders jobId st0 l).
  split; [|split; [apply processOrders_db|eauto]].
  f_equal. f_equal. destruct j' as [? [] ?].
  cbn [summary Summary.totalProcessed Summary.successfulInserts Summary.failedInserts
         Summary.skippedDuplicates] in *.
  f_equal; [exact Ht|rewrite Hs, Hs'|rewrite Hf, Hf'|rewrite Hk, Hk']; reflexivity.
Qed.

End Counters.

(** C8. Every iteration of the loop adds one to exactly one of the three
    outcome counters, and a run started by the route handler completes with
    a summary whose total is the number of aggregates and equals
    successes + skips + failures. *)
Theorem counters_partition_the_aggregates (host : Host) (ws : Worksheet)
    (js : gmap string JobState) (job_id : string) (d : Db) :
  (forall jobId st orderData,
      let st' := processOrder jobId st orderData in
      (successfulInserts st' = S (successfulInserts st)
       /\ skippedDuplicates st' = skippedDuplicates st
       /\ failedInserts st' = failedInserts st)
      \/ (successfulInserts st' = successfulInserts st
          /\ skippedDuplicates st' = S (skippedDuplicates st)
          /\ failedInserts st' = failedInserts st)
      \/ (successfulInserts st' = successfulInserts st
          /\ skippedDuplicates st' = skippedDuplicates st
          /\ failedInserts st' = S (failedInserts st)))
  /\ exists j,
       (import_orders ws js job_id d).1 !! job_id = Some j
       /\ status j = COMPLETED
       /\ Summary.totalProcessed (summary j) = List.length (parseFileAndGroupOrders ws)
       /\ Summary.successfulInserts (summary j)
          = count Success (outcomes (parseFileAndGroupOrders ws) d)
       /\ Summary.skippedDuplicates (summary j)
          = count Skipped (outcomes (parseFileAndGroupOrders ws) d)
       /\ Summary.failedInserts (summary j)
          = count Failure (outcomes (parseFileAndGroupOrders ws) d)
       /\ Summary.totalProcessed (summary j)
          = (Summary.successfulInserts (summary j) + Summary.skippedDuplicates (summary j)
             + Summary.failedInserts (summary j))%nat.
Proof.
  split.
  - intros jobId st orderData. unfold processOrder.
    destruct (orderTransaction orderData (db st)) as [[e|[]] d']; cbn; auto.
  - destruct (processOrderFile_summary ws (<[job_id := initial_job]> js) job_id
                initial_job d (lookup_insert_eq _ _ _) eq_refl) as (st & Hrun & _ & [j' Hj']).
    unfold import_orders. rewrite Hrun. cbn [fst].
    rewrite lookup_alter_eq, Hj'. cbn [fmap option_fmap option_map].
    eexists. split; [reflexivity|]. cbn.
    repeat (split; [reflexivity|]).
    rewrite <- (outcomes_length (parseFileAndGroupOrders ws) d).
    symmetry. apply count_total.
Qed.

(** ** The per-order transaction *)

Section Transaction.
Context {host : Host}.

Lemma search_customer_existing (phone email : string) (d : Db) :
  search_customer phone email d = (inr (existing_customer d phone email), d).
Proof. apply search_customer_run. Qed.

(** [findOrCreateCustomer] as a function of the store. *)
Lemma findOrCreateCustomer_run (orderData : JsObject) (d : Db) :
  findOrCreateCustomer orderData d
  = match normalizePhone (get orderData "phone") with
    | inl e => (inl e, d)
    | inr phone =>
        let email := email_of orderData in
        match existing_customer d phone email with
        | Some c =>
            let c' := merge_customer orderData phone email c in
            if rejects d (UpdateCustomer c') then (inl (StorageError "write rejected"), d)
            else (inr c', set_customers (replace_customer c' (customers d))
                            (next_customer_id d) d)
        | None =>
            if nonempty email then
              let c := new_customer orderData phone email (next_customer_id d) in
              if rejects d (InsertCustomer c) then (inl (StorageError "write rejected"), d)
              else (inr c, set_customers (customers d ++ [c]) (S (next_customer_id d)) d)
            else
              (inl (Error ("Missing primary unique key (Email) for new customer creation from party: "
                           +:+ js_toString (get orderData "party_name"))), d)
        end
    end.
Proof.
  destruct (normalizePhone (get orderData "phone")) as [e|phone] eqn:Hp.
  - unfold findOrCreateCustomer, mbind, Tx_bind, try_pure. now rewrite Hp.
  - cbv zeta. destruct (existing_customer d phone (email_of orderData)) as [c|] eqn:Hex.
    + apply (findOrCreateCustomer_found orderData d phone c Hp).
      now rewrite search_customer_existing, Hex.
    + unfold findOrCreateCustomer, mbind, Tx_bind, try_pure.
      rewrite Hp, search_customer_existing, Hex.
      destruct (nonempty (email_of orderData)); cbn [negb]; [|reflexivity].
      unfold Customer_create, mbind, Tx_bind, execute.
      destruct (rejects d _); reflexivity.
Qed.

Lemma existing_customer_elem_of (d : Db) (phone email : string) (c : Customer.row) :
  existing_customer d phone email = Some c ->
  c ∈ customers d
  /\ ((phone ≠ "" /\ phone ∈ Customer.all_phones c) \/ (email ≠ "" /\ Customer.email c = email)).
Proof.
  unfold existing_customer, nonempty.
  destruct (String.eqb_spec phone "") as [->|Hp]; cbn [negb].
  - destruct (String.eqb_spec email "") as [->|He]; cbn [negb]; [discriminate|].
    intros [Hin Hf]%find_elem_of. apply bool_decide_eq_true in Hf. auto.
  - destruct (List.find (by_phone phone) (customers d)) as [c0|] eqn:Hf.
    + intros [= <-]. apply find_elem_of in Hf as [Hin Hf].
      apply bool_decide_eq_true in Hf. auto.
    + destruct (String.eqb_spec email "") as [->|He]; cbn [negb]; [discriminate|].
      intros [Hin Hf']%find_elem_of. apply bool_decide_eq_true in Hf'. auto.
Qed.

Lemma existing_customer_known_phone (d : Db) (phone email : string) :
  phone ≠ "" -> knows_phone d phone -> is_Some (existing_customer d phone email).
Proof.
  intros Hp (c & Hc & Hin). unfold existing_customer, nonempty.
  destruct (String.eqb_spec phone ""); [contradiction|]. cbn [negb].
  destruct (List.find (by_phone phone) (customers d)) as [c0|] eqn:Hf; [eauto|].
  exfalso. pose proof (List.find_none _ _ Hf c (proj1 (list_elem_of_In _ _) Hc)) as Hn.
  unfold by_phone in Hn. apply bool_decide_eq_false in Hn. contradiction.
Qed.

(** [findOrCreateCustomer] returns normally only on resolvable contact
    data, and on all of them when the engine accepts customer writes. *)
Lemma findOrCreateCustomer_resolvable (orderData : JsObject) (d d' : Db) (c : Customer.row) :
  findOrCreateCustomer orderData d = (inr c, d') -> resolvable d orderData.
Proof.
  rewrite findOrCreateCustomer_run. unfold resolvable.
  destruct (normalizePhone (get orderData "phone")) as [e|phone]; [discriminate|].
  cbv zeta. intros H. exists phone. split; [reflexivity|].
  destruct (existing_customer d phone (email_of orderData)) as [c0|] eqn:Hex.
  - apply existing_customer_elem_of in Hex as [Hin [[Hp Hph]|[He _]]]; [right|left; exact He].
    split; [exact Hp|]. exists c0. auto.
  - unfold nonempty in H. destruct (String.eqb_spec (email_of orderData) ""); [discriminate|].
    now left.
Qed.

Lemma resolvable_findOrCreateCustomer (orderData : JsObject) (d : Db) :
  accepts_customer_writes host -> resolvable d orderData ->
  exists c d', findOrCreateCustomer orderData d = (inr c, d').
Proof.
  intros Hacc (phone & Hp & Hres). rewrite findOrCreateCustomer_run, Hp. cbv zeta.
  destruct (existing_customer d phone (email_of orderData)) as [c0|] eqn:Hex.
  - rewrite (proj1 (Hacc d _)). eauto.
  - destruct Hres as [He|[Hne Hk]].
    + unfold nonempty. destruct (String.eqb_spec (email_of orderData) ""); [contradiction|].
      cbn [negb]. rewrite (proj2 (Hacc d _)). eauto.
    + destruct (existing_customer_known_phone d phone (email_of orderData) Hne Hk) as [x Hx].
      congruence.
Qed.

End Transaction.

Section Effects.
Context {host : Host}.

Lemma grows_refl (d : Db) : grows d d.
Proof. split; auto. Qed.

Lemma grows_trans (d1 d2 d3 : Db) : grows d1 d2 -> grows d2 d3 -> grows d1 d3.
Proof.
  intros [] []. split; auto.
  etransitivity; eassumption.
Qed.

(** The transaction of one order as a function of the store. *)
Lemma orderTransaction_run (orderData : OrderData) (d : Db) :
  orderTransaction orderData d
  = match findOrCreateCustomer (fields orderData) d with
    | (inl e, d1) => (inl e, d1)
    | (inr customer, d1) =>
        match List.find (by_bill (bill_text orderData)) (orders d1) with
        | Some _ => (inr Duplicate, d1)
        | None =>
            let o := orderToInsert (fields orderData) customer (next_order_id d1) in
            if rejects d1 (InsertOrder o) then (inl (StorageError "write rejected"), d1)
            else
              match stage_items o (items orderData)
                      (set_orders (orders d1 ++ [o]) (S (next_order_id d1)) d1) with
              | (inl e, d3) => (inl e, d3)
              | (inr staged, d3) =>
                  if (0 <? List.length staged)%nat then
                    let rows := number_rows (next_order_item_id d3) staged in
                    if rejects d3 (InsertOrderItems rows)
                    then (inl (StorageError "write rejected"), d3)
                    else (inr Inserted,
                          set_order_items (order_items d3 ++ rows)
                            (next_order_item_id d3 + List.length staged)%nat d3)
                  else (inr Inserted, d3)
              end
        end
    end.
Proof.
  unfold orderTransaction, mbind, Tx_bind.
  destruct (findOrCreateCustomer (fields orderData) d) as [[e|customer] d1]; [reflexivity|].
  unfold Order_findOne, query, by_bill, bill_text.
  destruct (List.find _ (orders d1)); [reflexivity|].
  unfold Order_create, mbind, Tx_bind, execute. cbv zeta.
  destruct (rejects d1 _); [reflexivity|]. cbn [mret Tx_ret].
  destruct (stage_items _ _ _) as [[e|staged] d3]; [reflexivity|].
  destruct (0 <? List.length staged)%nat; [|reflexivity].
  unfold OrderItem_bulkCreate, execute.
  destruct (rejects d3 _); reflexivity.
Qed.

Lemma findOrCreateProduct_frame (itemData : Item.t) (d d' : Db) (r : Exn + Product.row) :
  findOrCreateProduct itemData d = (r, d') ->
  customers d' = customers d /\ orders d' = orders d
  /\ next_customer_id d' = next_customer_id d.
Proof.
  unfold findOrCreateProduct, throw, mbind, Tx_bind, Product_findOne, query,
    Product_create, execute, mret, Tx_ret, mbind, Tx_bind.
  intros H. repeat case_match; simplify_eq/=; auto.
Qed.

Lemma stage_items_frame (o : Order.row) (l : list Item.t) (d d' : Db)
    (r : Exn + list (New OrderItem.row)) :
  stage_items o l d = (r, d') ->
  customers d' = customers d /\ orders d' = orders d
  /\ next_customer_id d' = next_customer_id d.
Proof.
  revert d d' r. induction l as [|itemData l IH]; intros d d' r; cbn [stage_items].
  - intros [= <- <-]. auto.
  - unfold mbind, Tx_bind.
    destruct (findOrCreateProduct itemData d) as [[e|p] d1] eqn:Hp.
    + intros [= <- <-]. exact (findOrCreateProduct_frame _ _ _ _ Hp).
    + apply findOrCreateProduct_frame in Hp as (Hc & Ho & Hn).
      destruct (stage_items o l d1) as [[e|rest] d2] eqn:Hs;
        apply IH in Hs as (Hc' & Ho' & Hn'); intros [= <- <-]; repeat split; congruence.
Qed.

End Effects.

Lemma NoDup_map_eq {A B : Type} (f : A -> B) (l : list A) (x y : A) :
  NoDup (map f l) -> x ∈ l -> y ∈ l -> f x = f y -> x = y.
Proof.
  induction l as [|a l IH]; cbn; [intros _ H; inversion H|].
  intros [Ha Hl]%NoDup_cons Hx Hy Hf.
  apply elem_of_cons in Hx as [->|Hx]; apply elem_of_cons in Hy as [->|Hy]; auto.
  - exfalso. apply Ha. rewrite Hf. apply list_elem_of_fmap. eauto.
  - exfalso. apply Ha. rewrite <- Hf. apply list_elem_of_fmap. eauto.
Qed.

Lemma replace_customer_ids (c' : Customer.row) (l : list Customer.row) :
  map Customer.id (replace_customer c' l) = map Customer.id l.
Proof.
  unfold replace_customer. rewrite map_map. apply map_ext. intros c.
  destruct (Nat.eqb_spec (Customer.id c) (Customer.id c')); congruence.
Qed.

Lemma replace_customer_elem_of (c' c : Customer.row) (l : list Customer.row) :
  c ∈ l ->
  (Customer.id c = Customer.id c' /\ c' ∈ replace_customer c' l)
  \/ (Customer.id c ≠ Customer.id c' /\ c ∈ replace_customer c' l).
Proof.
  intros [i Hi]%list_elem_of_lookup.
  destruct (decide (Customer.id c = Customer.id c')) as [He|Hne]; [left|right];
    (split; [assumption|]); apply list_elem_of_lookup; exists i.
  - now apply (replace_customer_lookup_eq c' c).
  - now apply (replace_customer_lookup_ne c' c).
Qed.

Section CustomerEffects.
Context {host : Host}.

(** A merge keeps what the store knows. *)
Lemma merge_grows (orderData : JsObject) (phone email : string) (c : Customer.row) (d : Db) :
  c ∈ customers d ->
  grows d (set_customers
             (replace_customer (merge_customer orderData phone email c) (customers d))
             (next_customer_id d) d).
Proof.
  intros Hc. set (c' := merge_customer orderData phone email c). split.
  - unfold wf. cbn [customers next_customer_id set_customers].
    now rewrite replace_customer_ids.
  - intros [Hnd _] p (x & Hx & Hp). unfold knows_phone. cbn [customers set_customers].
    destruct (replace_customer_elem_of c' x _ Hx) as [[He Hin]|[Hne Hin]].
    + exists c'. split; [exact Hin|].
      assert (x = c) as -> by (eapply NoDup_map_eq; eauto).
      eapply elem_of_prefix; [exact Hp|apply push_if_new_prefix].
    + exists x. auto.
  - auto.
  - cbn. lia.
Qed.

(** A new profile keeps what the store knows. *)
Lemma create_grows (c : New Customer.row) (d : Db) :
  (forall i, Customer.id (c i) = i) ->
  grows d (set_customers (customers d ++ [c (next_customer_id d)])
             (S (next_customer_id d)) d).
Proof.
  intros Hid. split.
  - intros [Hnd Hlt]. unfold wf. cbn [customers next_customer_id set_customers].
    rewrite map_app. cbn [map]. rewrite Hid. split.
    + apply NoDup_app. split; [exact Hnd|]. split; [|apply NoDup_singleton].
      intros i Hi ->%list_elem_of_singleton.
      rewrite Forall_forall in Hlt. specialize (Hlt _ Hi). lia.
    + apply Forall_app. split; [|repeat constructor].
      eapply Forall_impl; [exact Hlt|]. cbn. intros. lia.
  - intros _ p (x & Hx & Hp). exists x. split; [|exact Hp].
    cbn. apply elem_of_app. now left.
  - auto.
  - cbn. lia.
Qed.

Lemma findOrCreateCustomer_grows (orderData : JsObject) (d d' : Db)
    (r : Exn + Customer.row) :
  findOrCreateCustomer orderData d = (r, d') ->
  grows d d' /\ orders d' = orders d /\ order_items d' = order_items d
  /\ products d' = products d.
Proof.
  rewrite findOrCreateCustomer_run.
  destruct (normalizePhone (get orderData "phone")) as [e|phone];
    [intros [= <- <-]; auto using grows_refl|].
  cbv zeta. destruct (existing_customer d phone (email_of orderData)) as [c|] eqn:Hex.
  - apply existing_customer_elem_of in Hex as [Hc _].
    destruct (rejects d _); intros [= <- <-]; auto using grows_refl.
    split; [now apply merge_grows|]. auto.
  - destruct (nonempty (email_of orderData)); [|intros [= <- <-]; auto using grows_refl].
    destruct (rejects d _); intros [= <- <-]; auto using grows_refl.
    split; [|auto]. now apply (create_grows (new_customer orderData phone (email_of orderData))).
Qed.

End CustomerEffects.

Section OrderEffects.
Context {host : Host}.

Lemma grows_same_customers (d d' : Db) :
  customers d' = customers d -> (next_customer_id d <= next_customer_id d')%nat ->
  (forall o, o ∈ orders d -> o ∈ orders d') -> grows d d'.
Proof.
  intros Hc Hn Ho. split; [| |exact Ho|exact Hn].
  - unfold wf. rewrite Hc. intros [Hnd Hlt]. split; [exact Hnd|].
    eapply Forall_impl; [exact Hlt|]. cbn. intros. lia.
  - intros _ p (x & Hx & Hp). exists x. now rewrite Hc.
Qed.

Lemma find_by_bill (b : string) (l : list Order.row) :
  (exists o, List.find (by_bill b) l = Some o /\ o ∈ l /\ Order.bill_number o = b)
  \/ (List.find (by_bill b) l = None /\ forall o, o ∈ l -> Order.bill_number o ≠ b).
Proof.
  destruct (List.find (by_bill b) l) as [o|] eqn:Hf; [left|right].
  - apply find_elem_of in Hf as [Hin Hb]. apply bool_decide_eq_true in Hb. eauto.
  - split; [reflexivity|]. intros o Ho.
    pose proof (List.find_none _ _ Hf o (proj1 (list_elem_of_In _ _) Ho)) as Hn.
    now apply bool_decide_eq_false in Hn.
Qed.

(** What the transaction of one order does to the store it runs on. *)
Lemma orderTransaction_effect (orderData : OrderData) (d d' : Db) (r : Exn + Completion) :
  orderTransaction orderData d = (r, d') ->
  grows d d'
  /\ (forall o, o ∈ orders d' -> o ∈ orders d \/ Order.bill_number o = bill_text orderData)
  /\ (r = inr Inserted ->
      has_bill d' (bill_text orderData) /\ ~ has_bill d (bill_text orderData))
  /\ (r = inr Duplicate -> has_bill d (bill_text orderData))
  /\ ((exists c, r = inr c) -> resolvable d (fields orderData)).
Proof.
  rewrite orderTransaction_run.
  destruct (findOrCreateCustomer (fields orderData) d) as [[e|customer] d1] eqn:Hc.
  { apply findOrCreateCustomer_grows in Hc as (Hg & Ho & _). intros [= <- <-].
    split; [exact Hg|]. split; [rewrite Ho; auto|].
    repeat split; try discriminate. intros [c [=]]. }
  pose proof (findOrCreateCustomer_resolvable _ _ _ _ Hc) as Hres.
  apply findOrCreateCustomer_grows in Hc as (Hg & Ho & _).
  destruct (find_by_bill (bill_text orderData) (orders d1)) as [(o & -> & Hin & Hb)|[-> Hnone]].
  { intros [= <- <-]. split; [exact Hg|]. split; [rewrite Ho; auto|].
    split; [discriminate|]. split; [|auto]. intros _. exists o. now rewrite <- Ho. }
  cbv zeta. set (o := orderToInsert (fields orderData) customer (next_order_id d1)).
  assert (Hob : Order.bill_number o = bill_text orderData) by reflexivity.
  destruct (rejects d1 (InsertOrder o)).
  { intros [= <- <-]. split; [exact Hg|]. split; [rewrite Ho; auto|].
    repeat split; try discriminate. intros [c [=]]. }
  set (d2 := set_orders (orders d1 ++ [o]) (S (next_order_id d1)) d1).
  assert (Hfinal : forall d4, customers d4 = customers d2 ->
            next_customer_id d4 = next_customer_id d2 -> orders d4 = orders d2 ->
            grows d d4
            /\ (forall o', o' ∈ orders d4 ->
                  o' ∈ orders d \/ Order.bill_number o' = bill_text orderData)
            /\ has_bill d4 (bill_text orderData) /\ ~ has_bill d (bill_text orderData)).
  { intros d4 H4c H4n H4o. split; [|split; [|split]].
    - apply (grows_trans d d1 d4 Hg). apply grows_same_customers.
      + now rewrite H4c.
      + rewrite H4n. cbn. lia.
      + intros o' Ho'. rewrite H4o. cbn. apply elem_of_app. now left.
    - intros o'. rewrite H4o. cbn. rewrite elem_of_app, list_elem_of_singleton, Ho.
      intros [?| ->]; auto.
    - exists o. split; [|exact Hob]. rewrite H4o. cbn. apply elem_of_app. right. left.
    - intros (o' & Ho' & Hb'). rewrite <- Ho in Ho'. exact (Hnone o' Ho' Hb'). }
  destruct (stage_items o (items orderData) d2) as [[e|staged] d3] eqn:Hs;
    apply stage_items_frame in Hs as (H3c & H3o & H3n).
  { intros [= <- <-]. destruct (Hfinal d3 H3c H3n H3o) as (Hg3 & Hnew & _).
    split; [exact Hg3|]. split; [exact Hnew|].
    repeat split; try discriminate. intros [c [=]]. }
  destruct (0 <? List.length staged)%nat.
  - destruct (rejects d3 _); intros [= <- <-].
    + destruct (Hfinal d3 H3c H3n H3o) as (Hg3 & Hnew & _).
      split; [exact Hg3|]. split; [exact Hnew|].
      repeat split; try discriminate. intros [c [=]].
    + destruct (Hfinal (set_order_items
                          (order_items d3 ++ number_rows (next_order_item_id d3) staged)
                          (next_order_item_id d3 + List.length staged)%nat d3))
        as (Hg4 & Hnew & Hhas); auto.
      split; [exact Hg4|]. split; [exact Hnew|].
      split; [auto|]. split; [discriminate|auto].
  - intros [= <- <-]. destruct (Hfinal d3 H3c H3n H3o) as (Hg3 & Hnew & Hhas).
    split; [exact Hg3|]. split; [exact Hnew|].
    split; [auto|]. split; [discriminate|auto].
Qed.

End OrderEffects.

Section Runs.
Context {host : Host}.

Lemma rollback_same_rows (d d' : Db) : same_rows d (rollback d d').
Proof. repeat split. Qed.

Lemma rollback_grows (d d' : Db) : grows d d' -> grows d (rollback d d').
Proof.
  intros Hg. apply grows_same_customers; [reflexivity| |auto].
  cbn. apply (grows_next _ _ Hg).
Qed.

(** The store after one iteration of the loop. *)
Lemma store_after_effect (orderData : OrderData) (d : Db) :
  grows d (store_after orderData d)
  /\ (forall o, o ∈ orders (store_after orderData d) ->
        o ∈ orders d \/ Order.bill_number o = bill_text orderData)
  /\ (outcome orderData d ≠ Success -> same_rows d (store_after orderData d))
  /\ (outcome orderData d = Success ->
      has_bill (store_after orderData d) (bill_text orderData)
      /\ ~ has_bill d (bill_text orderData))
  /\ (outcome orderData d = Skipped -> has_bill d (bill_text orderData))
  /\ (outcome orderData d ≠ Failure -> resolvable d (fields orderData)).
Proof.
  unfold store_after, outcome, outcome_of.
  destruct (orderTransaction orderData d) as [r d'] eqn:Hrun.
  destruct (orderTransaction_effect _ _ _ _ Hrun) as (Hg & Hnew & Hins & Hdup & Hres).
  destruct r as [e|[]].
  - split; [now apply rollback_grows|]. split; [auto|].
    split; [intros _; apply rollback_same_rows|]. repeat split; try discriminate.
    intros H. now contradiction H.
  - split; [exact Hg|]. split; [exact Hnew|]. split; [intros H; now contradiction H|].
    split; [auto|]. split; [discriminate|]. intros _. apply Hres. eauto.
  - split; [now apply rollback_grows|]. split; [auto|].
    split; [intros _; apply rollback_same_rows|]. split; [discriminate|].
    split; [auto|]. intros _. apply Hres. eauto.
Qed.

Lemma final_store_grows (l : list OrderData) (d : Db) : grows d (final_store l d).
Proof.
  unfold final_store. revert d. induction l as [|o l IH]; intros d; [apply grows_refl|].
  cbn [fold_left]. eapply grows_trans; [|apply IH].
  apply store_after_effect.
Qed.

Lemma resolvable_grows (d d' : Db) (orderData : JsObject) :
  wf d -> grows d d' -> resolvable d orderData -> resolvable d' orderData.
Proof.
  intros Hwf Hg (phone & Hp & Hres). exists phone. split; [exact Hp|].
  destruct Hres as [He|[Hne Hk]]; [now left|right].
  split; [exact Hne|]. now apply (grows_phone _ _ Hg).
Qed.

Lemma settled_grows (d d' : Db) (orderData : OrderData) :
  wf d -> grows d d' -> settled d orderData -> settled d' orderData.
Proof.
  intros Hwf Hg [Hres (o & Ho & Hb)]. split; [now apply (resolvable_grows d)|].
  exists o. split; [now apply (grows_orders _ _ Hg)|exact Hb].
Qed.

(** An order that did not fail is settled on the store the iteration
    leaves. *)
Lemma settled_after (orderData : OrderData) (d : Db) :
  wf d -> outcome orderData d ≠ Failure -> settled (store_after orderData d) orderData.
Proof.
  intros Hwf Hnf.
  destruct (store_after_effect orderData d) as (Hg & _ & _ & Hins & Hdup & Hres).
  split; [apply (resolvable_grows d); auto|].
  destruct (outcome orderData d) eqn:Ho.
  - now apply Hins.
  - destruct (Hdup eq_refl) as (o & Hin & Hb). exists o.
    split; [now apply (grows_orders _ _ Hg)|exact Hb].
  - now contradiction Hnf.
Qed.

(** A settled order is a skipped duplicate, when the engine accepts the
    customer write that precedes the duplicate check. *)
Lemma settled_skipped (orderData : OrderData) (d : Db) :
  accepts_customer_writes host -> settled d orderData -> outcome orderData d = Skipped.
Proof.
  intros Hacc [Hres (o & Ho & Hb)]. unfold outcome. rewrite orderTransaction_run.
  destruct (resolvable_findOrCreateCustomer _ _ Hacc Hres) as (c & d1 & Hc).
  rewrite Hc. apply findOrCreateCustomer_grows in Hc as (_ & Hord & _).
  destruct (find_by_bill (bill_text orderData) (orders d1)) as [(o' & -> & _)|[_ Hnone]];
    [reflexivity|].
  exfalso. rewrite Hord in Hnone. exact (Hnone o Ho Hb).
Qed.

(** First pass: the orders that did not fail are settled on the final
    store. *)
Lemma first_pass_settles (l : list OrderData) (d : Db) (i : nat) (orderData : OrderData)
    (o : Outcome) :
  wf d -> l !! i = Some orderData -> outcomes l d !! i = Some o -> o ≠ Failure ->
  settled (final_store l d) orderData.
Proof.
  revert d i. induction l as [|a l IH]; intros d i Hwf Hl Ho Hnf; [inversion Hl|].
  assert (Hg := proj1 (store_after_effect a d)).
  destruct i as [|i]; cbn in Hl, Ho.
  - injection Hl as ->. injection Ho as <-.
    unfold final_store. cbn [fold_left]. fold (final_store l (store_after orderData d)).
    apply (settled_grows (store_after orderData d)).
    + now apply (grows_wf _ _ Hg).
    + apply final_store_grows.
    + now apply settled_after.
  - unfold final_store. cbn [fold_left]. fold (final_store l (store_after a d)).
    apply (IH _ i); auto. now apply (grows_wf _ _ Hg).
Qed.

(** Second pass: an order settled at the start is skipped. *)
Lemma second_pass_skips (l : list OrderData) (d : Db) (i : nat) (orderData : OrderData) :
  accepts_customer_writes host ->
  wf d -> l !! i = Some orderData -> settled d orderData ->
  outcomes l d !! i = Some Skipped.
Proof.
  intros Hacc. revert d i. induction l as [|a l IH]; intros d i Hwf Hl Hs; [inversion Hl|].
  destruct i as [|i]; cbn in Hl |- *.
  - injection Hl as ->. f_equal. now apply settled_skipped.
  - assert (Hg := proj1 (store_after_effect a d)).
    apply IH; auto.
    + now apply (grows_wf _ _ Hg).
    + now apply (settled_grows d).
Qed.

End Runs.

(** ** Two runs over the same input *)

Lemma count_all_skipped (l : list Outcome) :
  Forall (fun o => o = Skipped) l ->
  count Success l = 0%nat /\ count Failure l = 0%nat /\ count Skipped l = List.length l.
Proof.
  induction 1 as [|o l -> _ (IH1 & IH2 & IH3)]; [repeat split|].
  rewrite !count_cons, IH1, IH2, IH3. repeat split.
Qed.

Lemma count_second_pass (out1 out2 : list Outcome) :
  Forall2 (fun a b => a ≠ Failure -> b = Skipped) out1 out2 ->
  (count Success out1 + count Skipped out1 <= count Skipped out2)%nat
  /\ (count Failure out1 = 0%nat ->
      count Success out2 = 0%nat
      /\ count Skipped out2 = (count Success out1 + count Skipped out1)%nat).
Proof.
  induction 1 as [|a b out1 out2 Hab _ [IH1 IH2]]; [split; [reflexivity|auto]|].
  rewrite !count_cons. split.
  - destruct a; try (rewrite Hab by discriminate); cbn; lia.
  - destruct a; cbn; try discriminate; intros Hf; destruct (IH2 Hf) as [H1 H2];
      rewrite Hab by discriminate; cbn; rewrite H1, H2; split; lia.
Qed.

Section TwoRuns.
Context {host : Host}.

Lemma second_run_outcomes (l : list OrderData) (d : Db) :
  accepts_customer_writes host -> wf d ->
  Forall2 (fun a b => a ≠ Failure -> b = Skipped)
    (outcomes l d) (outcomes l (final_store l d)).
Proof.
  intros Hacc Hwf. apply Forall2_same_length_lookup_2.
  - now rewrite !outcomes_length.
  - intros i a b Ha Hb Hnf.
    assert (Hi : is_Some (l !! i)).
    { apply lookup_lt_is_Some. rewrite <- (outcomes_length l d).
      eapply lookup_lt_Some; eassumption. }
    destruct Hi as [orderData Hl].
    assert (Hs := first_pass_settles l d i orderData a Hwf Hl Ha Hnf).
    assert (Hwf' : wf (final_store l d)) by (apply (grows_wf _ _ (final_store_grows l d)), Hwf).
    rewrite (second_pass_skips l _ i orderData Hacc Hwf' Hl Hs) in Hb. congruence.
Qed.

Lemma import_orders_summary (ws : Worksheet) (js : gmap string JobState) (job_id : string)
    (d : Db) :
  let l := parseFileAndGroupOrders ws in
  let out := outcomes l d in
  (import_orders ws js job_id d).2 = final_store l d
  /\ exists j, (import_orders ws js job_id d).1 !! job_id = Some j
       /\ status j = COMPLETED
       /\ summary j = {| Summary.totalProcessed := List.length l;
                         Summary.successfulInserts := count Success out;
                         Summary.failedInserts := count Failure out;
                         Summary.skippedDuplicates := count Skipped out |}.
Proof.
  intros l out.
  destruct (processOrderFile_summary ws (<[job_id := initial_job]> js) job_id
              initial_job d (lookup_insert_eq _ _ _) eq_refl) as (st & Hrun & Hdb & [j' Hj']).
  unfold import_orders. rewrite Hrun. cbn [fst snd]. split; [exact Hdb|].
  rewrite lookup_alter_eq, Hj'. cbn [fmap option_fmap option_map].
  eexists. split; [reflexivity|]. split; reflexivity.
Qed.

End TwoRuns.

(** ** Failure and duplicate handling *)

Section Committer.
Context {host : Host}.

(** The [try] block ends in the [catch] exactly when one of its steps
    raises. *)
Lemma raised_iff (orderData : OrderData) (d : Db) (e : Exn) (d' : Db) :
  raised orderData d e d' <-> orderTransaction orderData d = (inl e, d').
Proof.
  rewrite orderTransaction_run. split.
  - intros [Hc|c Hc Hf Hr ->|c d1 Hc Hf o Hr Hs|c d1 staged Hc Hf o Hr Hs Hl Hr' ->];
      rewrite Hc; try reflexivity; rewrite Hf; cbv zeta.
    + now rewrite Hr.
    + fold o. now rewrite Hr, Hs.
    + fold o. rewrite Hr, Hs. apply Nat.ltb_lt in Hl. now rewrite Hl, Hr'.
  - destruct (findOrCreateCustomer (fields orderData) d) as [[e0|c] d1] eqn:Hc.
    { intros [= <- <-]. now apply raised_by_customer_resolution. }
    destruct (List.find _ (orders d1)) eqn:Hf; [discriminate|]. cbv zeta.
    destruct (rejects d1 _) eqn:Hr.
    { intros [= <- <-]. now apply (raised_by_order_insert _ _ _ _ c). }
    destruct (stage_items _ _ _) as [[e0|staged] d3] eqn:Hs.
    { intros [= <- <-]. now apply (raised_by_product_resolution _ _ _ _ c d1). }
    destruct (0 <? List.length staged)%nat eqn:Hl; [|discriminate].
    destruct (rejects d3 _) eqn:Hr'; [|discriminate].
    intros [= <- <-]. apply (raised_by_items_insert _ _ _ _ c d1 staged); auto.
    now apply Nat.ltb_lt.
Qed.

Lemma processOrders_job_present (jobId : string) (l : list OrderData) (st : Loop) :
  is_Some (jobStatus st !! jobId) -> is_Some (jobStatus (processOrders jobId st l) !! jobId).
Proof.
  unfold processOrders. revert st. induction l as [|o l IH]; intros st Hj; [exact Hj|].
  cbn [fold_left]. apply IH. unfold processOrder.
  destruct (orderTransaction o (db st)) as [[e|[]] d']; cbn [jobStatus];
    unfold set_summary; rewrite lookup_alter_eq; destruct Hj as [j ->]; cbn; eauto.
Qed.

(** The run goes through all the aggregates whatever their outcomes. *)
Lemma processOrderFile_total (ws : Worksheet) (js : gmap string JobState) (jobId : string)
    (d : Db) :
  is_Some (js !! jobId) ->
  exists s st, processOrderFile ws js jobId d = inr (s, st)
    /\ db st = final_store (parseFileAndGroupOrders ws) d.
Proof.
  intros [j Hj]. unfold processOrderFile. rewrite Hj.
  set (st0 := {| db := d; successfulInserts := 0; skippedDuplicates := 0;
                 failedInserts := 0; jobStatus := _ |}).
  destruct (processOrders_job_present jobId (parseFileAndGroupOrders ws) st0) as [j' Hj'].
  { cbn. unfold set_summary. rewrite lookup_alter_eq, Hj. cbn. eauto. }
  rewrite Hj'. eexists _, _. split; [reflexivity|]. apply processOrders_db.
Qed.

End Committer.

(** C2. An exception raised at any step of an order's transaction (customer
    resolution, order insert, product resolution, item bulk insert) ends in
    the [catch]: the rows of all four tables are those the transaction
    started from, so the order leaves no Order row, no OrderItem row and no
    customer write; the failed counter alone is incremented, both the local
    one and the one of the job entry, whose other fields stay; the loop
    goes on with the next aggregate, and the run returns a summary whose
    failed count is the number of failed aggregates. *)
Theorem failed_order_rolled_back (host : Host) (jobId : string) (st : Loop)
    (orderData : OrderData) (rest : list OrderData) (e : Exn) (d' : Db) :
  raised orderData (db st) e d' ->
  let st' := processOrder jobId st orderData in
  orderTransaction orderData (db st) = (inl e, d')
  /\ same_rows (db st) (db st')
  /\ (~ has_bill (db st) (bill_text orderData) -> ~ has_bill (db st') (bill_text orderData))
  /\ failedInserts st' = S (failedInserts st)
  /\ successfulInserts st' = successfulInserts st
  /\ skippedDuplicates st' = skippedDuplicates st
  /\ processOrders jobId st (orderData :: rest) = processOrders jobId st' rest
  /\ List.length (outcomes (orderData :: rest) (db st)) = S (List.length rest)
  /\ (forall ws js d, is_Some (js !! jobId) ->
        exists s st1, processOrderFile ws js jobId d = inr (s, st1)
          /\ db st1 = final_store (parseFileAndGroupOrders ws) d)
  /\ outcome orderData (db st) = Failure
  /\ (forall j, jobStatus st !! jobId = Some j ->
        exists j', jobStatus st' !! jobId = Some j'
          /\ Summary.failedInserts (summary j') = S (failedInserts st)
          /\ Summary.successfulInserts (summary j') = Summary.successfulInserts (summary j)
          /\ Summary.skippedDuplicates (summary j') = Summary.skippedDuplicates (summary j)
          /\ Summary.totalProcessed (summary j') = Summary.totalProcessed (summary j)
          /\ status j' = status j /\ error j' = error j)
  /\ (forall other, other ≠ jobId -> jobStatus st' !! other = jobStatus st !! other)
  /\ (forall ws js j d, js !! jobId = Some j -> summary j = zero_summary ->
        exists s st1, processOrderFile ws js jobId d = inr (s, st1)
          /\ Summary.failedInserts s
             = count Failure (outcomes (parseFileAndGroupOrders ws) d)
          /\ Summary.totalProcessed s = List.length (parseFileAndGroupOrders ws)
          /\ (Summary.successfulInserts s + Summary.skippedDuplicates s
              + Summary.failedInserts s = Summary.totalProcessed s)%nat).
Proof.
  intros Hraised%raised_iff st'. split; [exact Hraised|].
  assert (Hst : st' = {| db := rollback (db st) d';
                         successfulInserts := successfulInserts st;
                         skippedDuplicates := skippedDuplicates st;
                         failedInserts := S (failedInserts st);
                         jobStatus := set_summary (set_failedInserts (S (failedInserts st)))
                                        jobId (jobStatus st) |}).
  { unfold st', processOrder. now rewrite Hraised. }
  split; [rewrite Hst; apply rollback_same_rows|].
  split.
  { rewrite Hst. intros Hno (o & Ho & Hb). apply Hno. exists o. auto. }
  split; [now rewrite Hst|]. split; [now rewrite Hst|]. split; [now rewrite Hst|].
  split; [reflexivity|].
  split; [cbn; now rewrite outcomes_length|].
  split; [intros ws js d; apply processOrderFile_total|].
  split; [unfold outcome; now rewrite Hraised|].
  split.
  { intros j Hj. rewrite Hst. cbn [jobStatus].
    rewrite (set_summary_lookup _ _ _ _ Hj). eexists. split; [reflexivity|].
    cbn. repeat split; reflexivity. }
  split.
  { intros other Hne. rewrite Hst. cbn [jobStatus]. unfold set_summary.
    now apply lookup_alter_ne. }
  intros ws js j d Hj Hz.
  destruct (processOrderFile_summary ws js jobId j d Hj Hz) as (st1 & Hrun & _).
  eexists _, st1. split; [exact Hrun|]. cbn.
  split; [reflexivity|]. split; [reflexivity|].
  rewrite <- (outcomes_length (parseFileAndGroupOrders ws) d), <- count_total. lia.
Qed.

Lemma failed_order_rolled_back_witness :
  let d1 := (@orderTransaction strict_host order_no_number empty_db).2 in
  let st1 := @processOrder strict_host "job" (start_loop empty_db) order_no_number in
  let d2 := (@orderTransaction reliable_host
               (hd no_order (parseFileAndGroupOrders ws_no_product)) empty_db).2 in
  let st2 := @processOrder reliable_host "job" (start_loop empty_db)
               (hd no_order (parseFileAndGroupOrders ws_no_product)) in
  (List.length (customers d1) = 1%nat
   /\ same_rows empty_db (db st1)
   /\ exists j, jobStatus st1 !! "job" = Some j
        /\ Summary.failedInserts (summary j) = 1%nat)
  /\ (List.length (customers d2) = 1%nat
      /\ List.length (orders d2) = 1%nat
      /\ List.length (products d2) = 1%nat
      /\ same_rows empty_db (db st2)
      /\ exists j, jobStatus st2 !! "job" = Some j
           /\ Summary.failedInserts (summary j) = 1%nat
           /\ Summary.successfulInserts (summary j) = 0%nat).
Proof.
  intros d1 st1 d2 st2. split.
  - destruct (failed_order_rolled_back strict_host "job" (start_loop empty_db)
                order_no_number [] (StorageError "write rejected") d1)
      as (_ & Hrows & _ & _ & _ & _ & _ & _ & _ & _ & Hjob & _).
    + apply raised_iff. vm_compute. reflexivity.
    + split; [vm_compute; reflexivity|]. split; [exact Hrows|].
      destruct (Hjob initial_job) as (j' & Hj' & Hf & _); [reflexivity|].
      exists j'. split; [exact Hj'|exact Hf].
  - destruct (failed_order_rolled_back reliable_host "job" (start_loop empty_db)
                (hd no_order (parseFileAndGroupOrders ws_no_product)) []
                (Error "Product Id/Item # is missing for item: undefined") d2)
      as (_ & Hrows & _ & _ & _ & _ & _ & _ & _ & _ & Hjob & _).
    + apply raised_iff. vm_compute. reflexivity.
    + split; [vm_compute; reflexivity|]. split; [vm_compute; reflexivity|].
      split; [vm_compute; reflexivity|]. split; [exact Hrows|].
      destruct (Hjob initial_job) as (j' & Hj' & Hf & Hs & _); [reflexivity|].
      exists j'. split; [exact Hj'|]. split; [exact Hf|]. rewrite Hs. reflexivity.
Defined.

(** C1, as amended.  When the bill number of an aggregate has a persisted
    Order row and customer resolution returns normally, the transaction
    ends at the duplicate check: the rows of all tables are those from
    before the transaction (the customer merge is undone), the skipped
    counter alone is incremented, and no transaction inserts an order whose
    bill number is persisted.  When the engine accepts customer writes, a
    second run over the same input skips every aggregate that the first run
    inserted or skipped; so when the first run has no failed insert, the
    second run has zero successful inserts and its skipped count is the
    first run's successful inserts plus its skipped duplicates. *)
Theorem duplicate_orders_skipped (host : Host) :
  (forall (jobId : string) (st : Loop) (orderData : OrderData) (c : Customer.row) (d1 : Db),
      has_bill (db st) (bill_text orderData) ->
      findOrCreateCustomer (fields orderData) (db st) = (inr c, d1) ->
      let st' := processOrder jobId st orderData in
      orderTransaction orderData (db st) = (inr Duplicate, d1)
      /\ same_rows (db st) (db st')
      /\ skippedDuplicates st' = S (skippedDuplicates st)
      /\ failedInserts st' = failedInserts st
      /\ successfulInserts st' = successfulInserts st)
  /\ (forall (orderData : OrderData) (d : Db),
        has_bill d (bill_text orderData) -> outcome orderData d ≠ Success)
  /\ (accepts_customer_writes host ->
      forall (ws : Worksheet) (js1 js2 : gmap string JobState) (id1 id2 : string) (d0 : Db),
        wf d0 ->
        let r1 := import_orders ws js1 id1 d0 in
        let r2 := import_orders ws js2 id2 r1.2 in
        Forall2 (fun a b => a ≠ Failure -> b = Skipped)
          (outcomes (parseFileAndGroupOrders ws) d0)
          (outcomes (parseFileAndGroupOrders ws) r1.2)
        /\ exists j1 j2,
             r1.1 !! id1 = Some j1 /\ r2.1 !! id2 = Some j2
             /\ (Summary.successfulInserts (summary j1) + Summary.skippedDuplicates (summary j1)
                 <= Summary.skippedDuplicates (summary j2))%nat
             /\ (Summary.failedInserts (summary j1) = 0%nat ->
                 Summary.successfulInserts (summary j2) = 0%nat
                 /\ Summary.skippedDuplicates (summary j2)
                    = (Summary.successfulInserts (summary j1)
                       + Summary.skippedDuplicates (summary j1))%nat)).
Proof.
  split; [|split].
  - intros jobId st orderData c d1 (o & Ho & Hb) Hc st'.
    assert (Hrun : orderTransaction orderData (db st) = (inr Duplicate, d1)).
    { rewrite orderTransaction_run, Hc.
      apply findOrCreateCustomer_grows in Hc as (_ & Hord & _).
      destruct (find_by_bill (bill_text orderData) (orders d1)) as [(o' & -> & _)|[_ Hnone]];
        [reflexivity|].
      exfalso. rewrite Hord in Hnone. exact (Hnone o Ho Hb). }
    split; [exact Hrun|]. unfold st', processOrder. rewrite Hrun.
    cbn [db skippedDuplicates failedInserts successfulInserts].
    split; [apply rollback_same_rows|]. auto.
  - intros orderData d Hb Hs.
    destruct (store_after_effect orderData d) as (_ & _ & _ & Hins & _).
    destruct (Hins Hs) as [_ Hno]. contradiction.
  - intros Hacc ws js1 js2 id1 id2 d0 Hwf r1 r2.
    destruct (import_orders_summary ws js1 id1 d0) as (Hd1 & j1 & Hj1 & _ & Hs1).
    destruct (import_orders_summary ws js2 id2 r1.2) as (_ & j2 & Hj2 & _ & Hs2).
    fold r1 in Hd1, Hj1.
    assert (HF := second_run_outcomes (parseFileAndGroupOrders ws) d0 Hacc Hwf).
    rewrite <- Hd1 in HF. split; [exact HF|].
    exists j1, j2. split; [exact Hj1|]. split; [exact Hj2|].
    rewrite Hs1, Hs2. cbn [Summary.successfulInserts Summary.skippedDuplicates
                            Summary.failedInserts].
    apply count_second_pass. exact HF.
Qed.

Lemma duplicate_orders_skipped_witness :
  let r1 := @import_orders reliable_host ws_interleaved ∅ "job1" empty_db in
  let r2 := @import_orders reliable_host ws_interleaved r1.1 "job2" r1.2 in
  let orderData := hd no_order (parseFileAndGroupOrders ws_interleaved) in
  let st' := @processOrder reliable_host "job" (start_loop r1.2) orderData in
  (same_rows r1.2 (db st') /\ skippedDuplicates st' = 1%nat /\ failedInserts st' = 0%nat)
  /\ exists j1 j2,
       r1.1 !! "job1" = Some j1 /\ r2.1 !! "job2" = Some j2
       /\ Summary.successfulInserts (summary j1) = 2%nat
       /\ Summary.successfulInserts (summary j2) = 0%nat
       /\ Summary.skippedDuplicates (summary j2) = 2%nat.
Proof.
  intros r1 r2 orderData st'.
  pose proof (duplicate_orders_skipped reliable_host) as (Hone & _ & Htwo).
  split.
  - set (res := @findOrCreateCustomer reliable_host (fields orderData) r1.2).
    assert (Hbill : has_bill (db (start_loop r1.2)) (bill_text orderData)).
    { destruct (find_by_bill (bill_text orderData) (orders r1.2))
        as [(o & _ & Hin & Hb)|[Hnone _]]; [exists o; auto|].
      vm_compute in Hnone. discriminate. }
    assert (Hres : @findOrCreateCustomer reliable_host (fields orderData)
                     (db (start_loop r1.2))
                   = (inr (match res.1 with inr c => c | inl _ => asha end), res.2))
      by (vm_compute; reflexivity).
    destruct (Hone "job" (start_loop r1.2) orderData _ _ Hbill Hres)
      as (_ & Hrows & Hskip & Hfail & _).
    split; [exact Hrows|]. split; [exact Hskip|exact Hfail].
  - assert (Hacc : accepts_customer_writes reliable_host) by (intros d c; split; reflexivity).
    assert (Hwf : wf empty_db) by (split; constructor).
    destruct (Htwo Hacc ws_interleaved ∅ r1.1 "job1" "job2" empty_db Hwf)
      as (_ & j1 & j2 & Hj1 & Hj2 & _ & Hzero).
    exists j1, j2. split; [exact Hj1|]. split; [exact Hj2|].
    assert (Hs1 : Some j1 = Some {| status := COMPLETED;
              summary := {| Summary.totalProcessed := 2; Summary.successfulInserts := 2;
                            Summary.failedInserts := 0; Summary.skippedDuplicates := 0 |};
              error := None |}) by (rewrite <- Hj1; vm_compute; reflexivity).
    injection Hs1 as ->. cbn in Hzero.
    destruct (Hzero eq_refl) as [H0 H2]. auto.
Defined.

(** The claim C1 as stated fails.
    (1) On an empty store the first run over [ws_two_channels] inserts one
    order and fails the other (phone only, no email, customer unknown); the
    second run over the same sheet inserts the order that had failed: one
    successful insert, not zero.
    (2) The second and third runs over [ws_no_quantity] both skip its order:
    the third has one skipped duplicate while the run before it had no
    successful insert.
    (3) An aggregate whose bill number is persisted but whose contact data
    resolves to no customer is counted as failed, not as skipped. *)
Lemma duplicate_orders_skipped_counterexample :
  (exists s1 d1 s2 d2,
      run reliable_host ws_two_channels empty_db = Some (s1, d1)
      /\ run reliable_host ws_two_channels d1 = Some (s2, d2)
      /\ Summary.successfulInserts s1 = 1%nat
      /\ Summary.failedInserts s1 = 1%nat
      /\ Summary.successfulInserts s2 = 1%nat
      /\ Summary.skippedDuplicates s2 = 1%nat)
  /\ (exists s1 d1 s2 d2 s3 d3,
        run reliable_host ws_no_quantity empty_db = Some (s1, d1)
        /\ run reliable_host ws_no_quantity d1 = Some (s2, d2)
        /\ run reliable_host ws_no_quantity d2 = Some (s3, d3)
        /\ Summary.successfulInserts s2 = 0%nat
        /\ Summary.skippedDuplicates s2 = 1%nat
        /\ Summary.successfulInserts s3 = 0%nat
        /\ Summary.skippedDuplicates s3 = 1%nat)
  /\ (exists s1 d1 s2 d2,
        run reliable_host ws_two_channels empty_db = Some (s1, d1)
        /\ List.map Order.bill_number (orders d1) = ["B2"]
        /\ List.map bill_text (parseFileAndGroupOrders ws_no_contact) = ["B2"]
        /\ run reliable_host ws_no_contact d1 = Some (s2, d2)
        /\ Summary.skippedDuplicates s2 = 0%nat
        /\ Summary.failedInserts s2 = 1%nat).
Proof.
  split; [|split].
  - destruct (run reliable_host ws_two_channels empty_db) as [[s1 d1]|] eqn:H1;
      [|vm_compute in H1; discriminate].
    exists s1, d1.
    destruct (run reliable_host ws_two_channels d1) as [[s2 d2]|] eqn:H2;
      [|vm_compute in H1; injection H1 as <- <-; vm_compute in H2; discriminate].
    exists s2, d2.
    vm_compute in H1. injection H1 as <- <-. vm_compute in H2. injection H2 as <- <-.
    repeat split; vm_compute; reflexivity.
  - destruct (run reliable_host ws_no_quantity empty_db) as [[s1 d1]|] eqn:H1;
      [|vm_compute in H1; discriminate].
    exists s1, d1.
    destruct (run reliable_host ws_no_quantity d1) as [[s2 d2]|] eqn:H2;
      [|vm_compute in H1; injection H1 as <- <-; vm_compute in H2; discriminate].
    exists s2, d2.
    destruct (run reliable_host ws_no_quantity d2) as [[s3 d3]|] eqn:H3;
      [|vm_compute in H1; injection H1 as <- <-; vm_compute in H2; injection H2 as <- <-;
        vm_compute in H3; discriminate].
    exists s3, d3.
    vm_compute in H1. injection H1 as <- <-. vm_compute in H2. injection H2 as <- <-.
    vm_compute in H3. injection H3 as <- <-.
    repeat split; vm_compute; reflexivity.
  - destruct (run reliable_host ws_two_channels empty_db) as [[s1 d1]|] eqn:H1;
      [|vm_compute in H1; discriminate].
    exists s1, d1.
    destruct (run reliable_host ws_no_contact d1) as [[s2 d2]|] eqn:H2;
      [|vm_compute in H1; injection H1 as <- <-; vm_compute in H2; discriminate].
    exists s2, d2.
    vm_compute in H1. injection H1 as <- <-. vm_compute in H2. injection H2 as <- <-.
    repeat split; vm_compute; reflexivity.
Qed.

(** ** Rows with a falsy total *)

Lemma aggregate_fields_survive (ws : Worksheet) (o : OrderData) :
  o ∈ parseFileAndGroupOrders ws -> fields o ∈ surviving_rows ws.
Proof.
  rewrite parseFileAndGroupOrders_grouped. unfold grouped.
  intros (k & -> & Hk)%list_elem_of_fmap. apply first_occurrences_subset in Hk.
  destruct (rows_of_bill_some k (surviving_rows ws) Hk) as (r & rest & Hr).
  unfold aggregate_of. cbn [fields]. rewrite Hr. cbn [head default].
  assert (Hin : List.In r (rows_of_bill k (surviving_rows ws))) by (rewrite Hr; now left).
  apply List.filter_In in Hin as [Hin _]. now apply list_elem_of_In.
Qed.

Lemma surviving_rows_elem_of (ws : Worksheet) (rowData : JsObject) :
  rowData ∈ surviving_rows ws ->
  rowData ∈ map (rowData_of (headerRow_values ws)) (List.filter visited ws)
  /\ truthy (get rowData "bill_number") = true
  /\ truthy (get rowData "order_total_amount") = true.
Proof.
  unfold surviving_rows. intros [Hin Hl]%list_elem_of_In%List.filter_In.
  split; [now apply list_elem_of_In|].
  unfold lacks_critical_data in Hl. apply negb_true_iff, orb_false_elim in Hl as [H1 H2].
  now apply negb_false_iff in H1, H2.
Qed.

Section ZeroTotal.
Context {host : Host}.

Lemma final_store_new_orders (l : list OrderData) (d : Db) (o : Order.row) :
  o ∈ orders (final_store l d) ->
  o ∈ orders d \/ exists orderData, orderData ∈ l /\ Order.bill_number o = bill_text orderData.
Proof.
  unfold final_store. revert d. induction l as [|a l IH]; intros d; [now left|].
  cbn [fold_left]. intros [Ho|(od & Hod & Hb)]%IH.
  - destruct (store_after_effect a d) as (_ & Hnew & _).
    destruct (Hnew o Ho) as [?|Hb]; [now left|right]. exists a. split; [left|exact Hb].
  - right. exists od. split; [now right|exact Hb].
Qed.

Lemma processOrderFile_db (ws : Worksheet) (js : gmap string JobState) (jobId : string)
    (d : Db) (s : Summary.t) (st : Loop) :
  processOrderFile ws js jobId d = inr (s, st) ->
  db st = final_store (parseFileAndGroupOrders ws) d.
Proof.
  unfold processOrderFile. destruct (js !! jobId); [|discriminate].
  destruct (jobStatus _ !! jobId); [|discriminate].
  intros [= _ <-]. apply processOrders_db.
Qed.

End ZeroTotal.

(** C10. A visited row whose total cell holds the number 0 or the empty
    string is dropped with a warning, as a row without total is; when all
    the rows of a bill number carry such a total, no aggregate has that
    bill number and a run inserts no order with it. *)
Theorem falsy_total_dropped (host : Host) :
  (forall (values : list (nat * JsVal)) (g : Grouping) (r : Row),
      visited r = true ->
      let rowData := rowData_of values r in
      get rowData "order_total_amount" = JNum 0 \/ get rowData "order_total_amount" = JStr "" ->
      is_Some (rowData !! "order_total_amount")
      /\ lacks_critical_data rowData = true
      /\ lacks_critical_data (delete "order_total_amount" rowData) = true
      /\ eachRow_step values g r
         = {| ordersMap := ordersMap g; warnings := warnings g ++ [number r] |})
  /\ (forall (ws : Worksheet) (b : string),
      (forall rowData,
          rowData ∈ map (rowData_of (headerRow_values ws)) (List.filter visited ws) ->
          js_toString (bill_of_row rowData) = b ->
          get rowData "order_total_amount" = JNum 0
          \/ get rowData "order_total_amount" = JStr "") ->
      (forall o, o ∈ parseFileAndGroupOrders ws -> bill_text o ≠ b)
      /\ (forall js jobId d s st,
            processOrderFile ws js jobId d = inr (s, st) ->
            forall o, o ∈ orders (db st) -> Order.bill_number o = b -> o ∈ orders d)).
Proof.
  split.
  - intros values g r Hv rowData Hzero.
    assert (Hfalsy : truthy (get rowData "order_total_amount") = false)
      by (destruct Hzero as [-> | ->]; reflexivity).
    assert (Hlack : lacks_critical_data rowData = true).
    { unfold lacks_critical_data. rewrite Hfalsy. apply orb_true_r. }
    split.
    { unfold get in Hzero. destruct (rowData !! "order_total_amount"); [eauto|].
      destruct Hzero; discriminate. }
    split; [exact Hlack|]. split.
    { apply lacking_is_falsy. right. apply lookup_delete_eq. }
    rewrite eachRow_step_cases, Hv. fold rowData. now rewrite Hlack.
  - intros ws b Hall.
    assert (Hno : forall o, o ∈ parseFileAndGroupOrders ws -> bill_text o ≠ b).
    { intros o Ho Hb. apply aggregate_fields_survive in Ho.
      apply surviving_rows_elem_of in Ho as (Hin & _ & Ht).
      destruct (Hall _ Hin Hb) as [Hz|Hz]; rewrite Hz in Ht; discriminate. }
    split; [exact Hno|].
    intros js jobId d s st Hrun o Ho Hb.
    rewrite (processOrderFile_db _ _ _ _ _ _ Hrun) in Ho.
    apply final_store_new_orders in Ho as [Ho|(od & Hod & Hbo)]; [exact Ho|].
    exfalso. apply (Hno od Hod). congruence.
Qed.

Lemma falsy_total_dropped_witness :
  warnings (groupRows ws_zero_total) = [2; 3]%nat
  /\ eachRow_step (headerRow_values ws_zero_total) {| ordersMap := []; warnings := [] |}
       (demo_row 2 (JStr "B5") (JStr "O5") (JStr "z@x.in") JNull (JStr "P1") (JNum 1) (JNum 0))
     = {| ordersMap := []; warnings := [2%nat] |}
  /\ (forall o, o ∈ parseFileAndGroupOrders ws_zero_total -> bill_text o ≠ "B5")
  /\ option_map (fun r => orders r.2) (run reliable_host ws_zero_total empty_db) = Some [].
Proof.
  pose proof (falsy_total_dropped reliable_host) as [Hrow Hbill].
  split; [vm_compute; reflexivity|].
  split.
  { refine (proj2 (proj2 (proj2 (Hrow _ _ _ _ _)))).
    - vm_compute; reflexivity.
    - left. vm_compute; reflexivity. }
  split; [|vm_compute; reflexivity].
  refine (proj1 (Hbill ws_zero_total "B5" _)).
  intros rowData Hin _.
  change (map (rowData_of (headerRow_values ws_zero_total)) (List.filter visited ws_zero_total))
    with [rowData_of (headerRow_values ws_zero_total)
            (demo_row 2 (JStr "B5") (JStr "O5") (JStr "z@x.in") JNull (JStr "P1") (JNum 1) (JNum 0));
          rowData_of (headerRow_values ws_zero_total)
            (demo_row 3 (JStr "B5") (JStr "O5") (JStr "z@x.in") JNull (JStr "P2") (JNum 1)
               (JStr ""))] in Hin.
  apply elem_of_cons in Hin as [->|Hin]; [left; vm_compute; reflexivity|].
  apply list_elem_of_singleton in Hin as ->. right. vm_compute; reflexivity.
Defined.

(** * Further properties *)

(** ** The job entry during and after a run *)

Section JobEntry.
Context {host : Host}.

Lemma outcomes_app (l1 l2 : list OrderData) (d : Db) :
  outcomes (l1 ++ l2) d = outcomes l1 d ++ outcomes l2 (final_store l1 d).
Proof.
  revert d. induction l1 as [|o l1 IH]; intros d; [reflexivity|].
  cbn [app outcomes]. rewrite IH. reflexivity.
Qed.

Lemma count_app (o : Outcome) (l1 l2 : list Outcome) :
  count o (l1 ++ l2) = (count o l1 + count o l2)%nat.
Proof. unfold count. now rewrite List.filter_app, length_app. Qed.

Lemma count_one (o a : Outcome) :
  count o [a] = if Outcome_eqb o a then 1%nat else 0%nat.
Proof. unfold count. cbn. destruct (Outcome_eqb o a); reflexivity. Qed.

(** The job entry after the loop has gone through [l]: status and error
    are untouched, the counters are those of the outcomes so far. *)
Lemma processOrders_entry (jobId : string) (total : nat) (l : list OrderData) (st : Loop)
    (j : JobState) (seen : list Outcome) :
  jobStatus st !! jobId = Some j ->
  summary j = summary_of total seen ->
  successfulInserts st = count Success seen ->
  skippedDuplicates st = count Skipped seen ->
  failedInserts st = count Failure seen ->
  jobStatus (processOrders jobId st l) !! jobId
  = Some {| status := status j;
            summary := summary_of total (seen ++ outcomes l (db st));
            error := error j |}.
Proof.
  revert st j seen. induction l as [|o l IH]; intros st j seen Hj Hsum Hs Hk Hf.
  - cbn. rewrite app_nil_r, Hj, <- Hsum. now destruct j.
  - unfold processOrders. cbn [fold_left outcomes].
    fold (processOrders jobId (processOrder jobId st o) l).
    replace (seen ++ outcome o (db st) :: outcomes l (store_after o (db st)))
      with ((seen ++ [outcome o (db st)]) ++ outcomes l (store_after o (db st)))
      by now rewrite <- app_assoc.
    rewrite <- (processOrder_db jobId st o).
    assert (Hstep : exists j',
               jobStatus (processOrder jobId st o) !! jobId = Some j'
               /\ status j' = status j /\ error j' = error j
               /\ summary j' = summary_of total (seen ++ [outcome o (db st)])
               /\ successfulInserts (processOrder jobId st o)
                  = count Success (seen ++ [outcome o (db st)])
               /\ skippedDuplicates (processOrder jobId st o)
                  = count Skipped (seen ++ [outcome o (db st)])
               /\ failedInserts (processOrder jobId st o)
                  = count Failure (seen ++ [outcome o (db st)])).
    { unfold processOrder, outcome, outcome_of.
      destruct (orderTransaction o (db st)) as [[e|[]] d'];
        cbn [jobStatus successfulInserts skippedDuplicates failedInserts];
        rewrite (set_summary_lookup _ _ _ _ Hj); eexists; (split; [reflexivity|]);
        cbn [status error summary]; rewrite Hsum, Hs, Hk, Hf;
        unfold summary_of, set_failedInserts, set_successfulInserts, set_skippedDuplicates;
        cbn [Summary.totalProcessed Summary.successfulInserts Summary.failedInserts
               Summary.skippedDuplicates];
        rewrite !count_app, !count_one; cbn [Outcome_eqb];
        rewrite ?Nat.add_0_r, ?Nat.add_1_r; repeat split; reflexivity. }
    destruct Hstep as (j' & Hj' & Hst & Her & Hsum' & Hs' & Hk' & Hf').
    rewrite (IH _ j' _ Hj' Hsum' Hs' Hk' Hf'), Hst, Her. reflexivity.
Qed.

Lemma processOrders_other_entries (jobId other : string) (l : list OrderData) (st : Loop) :
  other ≠ jobId -> jobStatus (processOrders jobId st l) !! other = jobStatus st !! other.
Proof.
  intros Hne. unfold processOrders. revert st.
  induction l as [|o l IH]; intros st; [reflexivity|].
  cbn [fold_left]. rewrite IH. unfold processOrder.
  destruct (orderTransaction o (db st)) as [[e|[]] d']; cbn [jobStatus];
    unfold set_summary; now rewrite lookup_alter_ne.
Qed.

End JobEntry.

(** X1. While a run goes through its aggregates, the job entry a poller
    reads always shows the total set before the loop and, for each of the
    three counters, the number of aggregates processed so far with that
    outcome; status and error are not touched by the loop. *)
Theorem progress_visible_after_each_order (host : Host) (ws : Worksheet)
    (js : gmap string JobState) (jobId : string) (j : JobState) (d : Db)
    (l1 l2 : list OrderData) :
  js !! jobId = Some j ->
  summary j = zero_summary ->
  parseFileAndGroupOrders ws = l1 ++ l2 ->
  let st := processOrders jobId (loop_entry (List.length (l1 ++ l2)) js jobId d) l1 in
  jobStatus st !! jobId
  = Some {| status := status j;
            summary := summary_of (List.length (l1 ++ l2)) (outcomes l1 d);
            error := error j |}
  /\ db st = final_store l1 d
  /\ exists s, processOrderFile ws js jobId d = inr (s, processOrders jobId st l2).
Proof.
  intros Hj Hz Hl st. set (n := List.length (l1 ++ l2)) in *.
  set (j0 := {| status := status j; summary := set_totalProcessed n (summary j);
                error := error j |}).
  assert (H0 : jobStatus (loop_entry n js jobId d) !! jobId = Some j0)
    by (cbn; now apply set_summary_lookup).
  assert (Hsum0 : summary j0 = summary_of n []) by (cbn; now rewrite Hz).
  assert (E1 := processOrders_entry jobId n l1 _ j0 [] H0 Hsum0 eq_refl eq_refl eq_refl).
  cbn [app db loop_entry status error j0] in E1. fold st in E1.
  split; [exact E1|]. split; [unfold st; now rewrite processOrders_db|].
  destruct (processOrders_counts jobId n l1 (loop_entry n js jobId d))
    as (_ & Hs & Hk & Hf).
  { exists j0. split; [exact H0|]. cbn. rewrite Hz. cbn. auto. }
  cbn [db loop_entry successfulInserts skippedDuplicates failedInserts Nat.add] in Hs, Hk, Hf.
  fold st in Hs, Hk, Hf.
  assert (E2 := processOrders_entry jobId n l2 st _ (outcomes l1 d) E1 eq_refl Hs Hk Hf).
  unfold processOrderFile. rewrite Hj, Hl. fold n. fold (loop_entry n js jobId d).
  replace (processOrders jobId (loop_entry n js jobId d) (l1 ++ l2))
    with (processOrders jobId st l2)
    by (unfold st, processOrders; now rewrite fold_left_app).
  rewrite E2. eauto.
Qed.

Lemma progress_visible_after_each_order_witness :
  let l := @parseFileAndGroupOrders ws_two_channels in
  let st := @processOrders reliable_host "job"
              (loop_entry 2 {[ "job" := initial_job ]} "job" empty_db) (firstn 1 l) in
  jobStatus st !! "job"
  = Some {| status := PENDING;
            summary := {| Summary.totalProcessed := 2; Summary.successfulInserts := 0;
                          Summary.failedInserts := 1; Summary.skippedDuplicates := 0 |};
            error := None |}.
Proof.
  intros l st.
  destruct (progress_visible_after_each_order reliable_host ws_two_channels
              {[ "job" := initial_job ]} "job" initial_job empty_db (firstn 1 l) (skipn 1 l))
    as (Hentry & _).
  - vm_compute; reflexivity.
  - reflexivity.
  - symmetry. apply firstn_skipn.
  - rewrite firstn_skipn in Hentry.
    change (List.length l) with 2%nat in Hentry. unfold st. rewrite Hentry.
    vm_compute. reflexivity.
Defined.

(** X2. A run writes to the entry of its own job only: the entry of every
    other job identifier is the one the map held before the request. *)
Theorem import_orders_other_jobs (host : Host) (ws : Worksheet)
    (js : gmap string JobState) (job_id other : string) (d : Db) :
  other ≠ job_id ->
  (import_orders ws js job_id d).1 !! other = js !! other.
Proof.
  intros Hne. unfold import_orders, processOrderFile.
  rewrite lookup_insert_eq.
  destruct (jobStatus _ !! job_id) eqn:Hj; cbn [fst].
  - rewrite lookup_alter_ne by congruence.
    rewrite processOrders_other_entries by exact Hne. cbn [jobStatus].
    unfold set_summary. rewrite lookup_alter_ne by congruence.
    now rewrite lookup_insert_ne by congruence.
  - rewrite lookup_alter_ne by congruence. now rewrite lookup_insert_ne by congruence.
Qed.

Lemma import_orders_other_jobs_witness :
  (@import_orders reliable_host ws_two_channels {[ "older" := initial_job ]} "job" empty_db).1
    !! "older" = Some initial_job.
Proof.
  rewrite (import_orders_other_jobs reliable_host ws_two_channels _ "job" "older" empty_db).
  - vm_compute; reflexivity.
  - discriminate.
Defined.

(** ** More on the row grouper *)

Lemma Map_push_item_total (m : OrdersMap) (k : JsVal) (it : Item.t) :
  Map_has m k = true ->
  total_items (map snd (Map_push_item m k it)) = S (total_items (map snd m)).
Proof.
  unfold Map_has, total_items. induction m as [|e m IH]; cbn; [discriminate|].
  destruct (sameValueZero e.1 k); cbn.
  - intros _. rewrite length_app. cbn. lia.
  - intros H. rewrite (IH H). lia.
Qed.

Lemma total_items_app (l1 l2 : list OrderData) :
  total_items (l1 ++ l2) = (total_items l1 + total_items l2)%nat.
Proof. unfold total_items. apply sum_list_with_app. Qed.

Lemma add_to_group_total (m : OrdersMap) (rowData : JsObject) :
  total_items (map snd (add_to_group m rowData)) = S (total_items (map snd m)).
Proof.
  unfold add_to_group. destruct (Map_has m (get rowData "bill_number")) eqn:Hhas; cbn [negb].
  - now apply Map_push_item_total.
  - rewrite Map_set_fresh, Map_push_item_fresh by exact Hhas.
    rewrite map_app. unfold total_items. rewrite sum_list_with_app. cbn. lia.
Qed.

Lemma add_to_group_nonempty (m : OrdersMap) (rowData : JsObject) :
  Forall (fun e => items e.2 ≠ []) m ->
  Forall (fun e => items e.2 ≠ []) (add_to_group m rowData).
Proof.
  intros Hm. unfold add_to_group.
  destruct (Map_has m (get rowData "bill_number")) eqn:Hhas; cbn [negb].
  - clear Hhas. induction Hm as [|e m He Hm IH]; cbn; [constructor|].
    destruct (sameValueZero e.1 _); constructor; auto.
    cbn. intros H. now apply app_eq_nil in H as [_ H].
  - rewrite Map_set_fresh, Map_push_item_fresh by exact Hhas.
    apply Forall_app. split; [exact Hm|]. constructor; [|constructor]. discriminate.
Qed.

Lemma add_to_group_fold_total (rows : list JsObject) (m : OrdersMap) :
  total_items (map snd (fold_left add_to_group rows m))
  = (total_items (map snd m) + List.length rows)%nat
  /\ (Forall (fun e => items e.2 ≠ []) m ->
      Forall (fun e => items e.2 ≠ []) (fold_left add_to_group rows m)).
Proof.
  revert m. induction rows as [|r rows IH]; intros m; cbn [fold_left].
  - split; [cbn; lia|auto].
  - destruct (IH (add_to_group m r)) as [Ht Hn]. split.
    + rewrite Ht, add_to_group_total. cbn. lia.
    + intros Hm. apply Hn. now apply add_to_group_nonempty.
Qed.

(** X3. Grouping neither loses nor duplicates a line item: the aggregates
    hold, all together, exactly one line item per surviving row, every
    aggregate holds at least one, and so there are at most as many
    aggregates as surviving rows. *)
Theorem grouping_conserves_line_items (ws : Worksheet) :
  total_items (parseFileAndGroupOrders ws) = List.length (surviving_rows ws)
  /\ Forall (fun o => items o ≠ []) (parseFileAndGroupOrders ws)
  /\ (List.length (parseFileAndGroupOrders ws) <= List.length (surviving_rows ws))%nat.
Proof.
  unfold parseFileAndGroupOrders, groupRows. rewrite eachRow_fold_ordersMap.
  cbn [ordersMap]. fold (surviving_rows ws).
  destruct (add_to_group_fold_total (surviving_rows ws) []) as [Ht Hn].
  assert (Hne : Forall (fun o => items o ≠ [])
                  (map snd (fold_left add_to_group (surviving_rows ws) []))).
  { apply Forall_fmap. apply (Forall_impl _ _ _ (Hn (Forall_nil_2 _))). auto. }
  split; [exact Ht|]. split; [exact Hne|].
  change (total_items (map snd [])) with 0%nat in Ht. rewrite Nat.add_0_l in Ht.
  rewrite <- Ht. clear Ht. unfold total_items.
  induction Hne as [|o l Ho _ IH]; cbn; [lia|].
  destruct (items o); [contradiction|]. cbn. lia.
Qed.

(** Every field of [rowData] is the unwrapped value of a cell of the row
    whose column header, trimmed, is a property of [COLUMN_MAP]. *)
Lemma eachCell_fold_fields (values : list (nat * JsVal)) (l : list (nat * JsVal))
    (rowData : JsObject) (k : string) (v : JsVal) :
  fold_left (eachCell_step values) l rowData !! k = Some v ->
  rowData !! k = Some v
  \/ exists col raw label,
       (col, raw) ∈ l /\ headers_at values col = Some label
       /\ COLUMN_MAP_at label = Some k /\ v = cell_value raw.
Proof.
  revert rowData. induction l as [|c l IH]; intros rowData; cbn [fold_left]; [auto|].
  intros [H|(col & raw & label & Hin & Hh & Hm & Hv)]%IH.
  - unfold eachCell_step in H. destruct c as [col raw]. cbn [fst snd] in H.
    destruct (headers_at values col) as [label|] eqn:Hh; [|auto].
    destruct (String.eqb label ""); cbn [negb] in H; [auto|].
    destruct (COLUMN_MAP_at label) as [dbKey|] eqn:Hm; [|auto].
    destruct (decide (dbKey = k)) as [->|Hne].
    + rewrite lookup_insert_eq in H. injection H as <-.
      right. exists col, raw, label. repeat split; auto. left.
    + rewrite lookup_insert_ne in H by exact Hne. auto.
  - right. exists col, raw, label. repeat split; auto. now right.
Qed.

(** No inherited property converts to a mapped name. *)
Lemma inherited_key_not_mapped (label label' k : string) :
  Object_prototype !! label = Some k -> COLUMN_MAP !! label' = Some k -> False.
Proof.
  intros H H'. apply elem_of_list_to_map_2 in H. apply elem_of_list_to_map_2 in H'.
  repeat (apply elem_of_cons in H as [H|H];
          [injection H as -> ->;
           repeat (apply elem_of_cons in H' as [H'|H']; [discriminate H'|]);
           inversion H'|]).
  inversion H.
Qed.

Lemma COLUMN_MAP_at_cases (label k : string) :
  COLUMN_MAP_at label = Some k ->
  COLUMN_MAP !! label = Some k
  \/ (COLUMN_MAP !! label = None /\ Object_prototype !! label = Some k).
Proof.
  unfold COLUMN_MAP_at. destruct (COLUMN_MAP !! label); [intros [= ->]|]; auto.
Qed.

(** X4. A row's [rowData] holds nothing but the cells under a header that
    names a property of [COLUMN_MAP]: each of its fields is the value (a
    formula cell unwrapped to its result) of a non-empty cell of that row
    whose column header, trimmed, is an own key of the table, the field
    being the mapped name, or the name of a property the table inherits from
    [Object.prototype], the field being the string the inherited value
    converts to.  A field with a mapped name always comes from a mapped
    header; cells under any other header are ignored. *)
Theorem rowData_holds_mapped_cells (values : list (nat * JsVal)) (r : Row)
    (k : string) (v : JsVal) :
  rowData_of values r !! k = Some v ->
  exists col raw label,
    (col, raw) ∈ cells r /\ is_nullish raw = false
    /\ headers_at values col = Some label
    /\ v = cell_value raw
    /\ (COLUMN_MAP !! label = Some k
        \/ (COLUMN_MAP !! label = None /\ Object_prototype !! label = Some k))
    /\ (forall label', COLUMN_MAP !! label' = Some k -> COLUMN_MAP !! label = Some k).
Proof.
  unfold rowData_of.
  intros [H|(col & raw & label & Hin & Hh & Hm & Hv)]%eachCell_fold_fields.
  - rewrite lookup_empty in H. discriminate.
  - apply list_elem_of_In, List.filter_In in Hin as [Hin Hnn]. cbn in Hnn.
    exists col, raw, label.
    split; [now apply list_elem_of_In|]. split; [now apply negb_true_iff in Hnn|].
    split; [exact Hh|]. split; [exact Hv|].
    apply COLUMN_MAP_at_cases in Hm. split; [exact Hm|].
    intros label' Hk. destruct Hm as [Hm|[_ Hm]]; [exact Hm|].
    destruct (inherited_key_not_mapped _ _ _ Hm Hk).
Qed.

Lemma rowData_holds_mapped_cells_witness :
  let header := {| number := 1; cells := [ (1, JStr " Order Total Amount "); (2, JStr "toString") ]%nat |} in
  let row := {| number := 2; cells := [ (1, JObj 7 (JNum 10)); (2, JStr "x") ]%nat |} in
  rowData_of (cells header) row
  = {[ "order_total_amount" := JNum 10; "function toString() { [native code] }" := JStr "x" ]}
  /\ exists col raw label,
       (col, raw) ∈ cells row /\ is_nullish raw = false
       /\ headers_at (cells header) col = Some label
       /\ JNum 10 = cell_value raw
       /\ (COLUMN_MAP !! label = Some "order_total_amount"
           \/ (COLUMN_MAP !! label = None
               /\ Object_prototype !! label = Some "order_total_amount"))
       /\ (forall label', COLUMN_MAP !! label' = Some "order_total_amount" ->
             COLUMN_MAP !! label = Some "order_total_amount").
Proof.
  intros header row.
  assert (H : rowData_of (cells header) row
              = {[ "order_total_amount" := JNum 10;
                   "function toString() { [native code] }" := JStr "x" ]}).
  { apply map_eq. intros k. unfold rowData_of, header, row. cbn [cells List.filter is_nullish negb snd fold_left].
    unfold eachCell_step. cbn [fst snd]. 
    change (headers_at [(1%nat, JStr " Order Total Amount "); (2%nat, JStr "toString")] 1)
      with (Some "Order Total Amount").
    change (headers_at [(1%nat, JStr " Order Total Amount "); (2%nat, JStr "toString")] 2)
      with (Some "toString").
    cbn [String.eqb Ascii.eqb negb].
    change (COLUMN_MAP_at "Order Total Amount") with (Some "order_total_amount").
    change (COLUMN_MAP_at "toString") with (Some "function toString() { [native code] }").
    cbn [cell_value].
    rewrite insert_insert_ne by discriminate. reflexivity. }
  split; [exact H|].
  apply (rowData_holds_mapped_cells (cells header) row "order_total_amount" (JNum 10)).
  rewrite H. reflexivity.
Defined.

Lemma COLUMN_MAP_critical_labels (label : string) :
  (COLUMN_MAP_at label = Some "bill_number" -> label = "Bill Number")
  /\ (COLUMN_MAP_at label = Some "order_total_amount" -> label = "Order Total Amount").
Proof.
  split; intros [H|[_ H]]%COLUMN_MAP_at_cases;
    try (exfalso; eapply (inherited_key_not_mapped label _ _ H); reflexivity);
    apply elem_of_list_to_map_2 in H;
    repeat (apply elem_of_cons in H as [H|H]; [by simplify_eq|]);
    inversion H.
Qed.

Lemma rowData_without_column (values : list (nat * JsVal)) (r : Row) (label k : string) :
  (forall l, COLUMN_MAP_at l = Some k -> l = label) ->
  (forall col, headers_at values col ≠ Some label) ->
  rowData_of values r !! k = None.
Proof.
  intros Hk Hno. destruct (rowData_of values r !! k) as [v|] eqn:Hv; [|reflexivity].
  unfold rowData_of in Hv.
  apply eachCell_fold_fields in Hv as [Hv|(col & raw & l & _ & Hh & Hm & _)].
  - rewrite lookup_empty in Hv. discriminate.
  - apply Hk in Hm as ->. now apply Hno in Hh.
Qed.

Lemma filter_none {A : Type} (f : A -> bool) (l : list A) :
  (forall x, x ∈ l -> f x = false) -> List.filter f l = [].
Proof.
  induction l as [|a l IH]; [reflexivity|]. intros H. cbn.
  rewrite (H a) by left. apply IH. intros x Hx. apply H. now right.
Qed.

(** X5. When no column header of row 1, trimmed, is exactly "Bill Number",
    or none is exactly "Order Total Amount" (also when the sheet has no
    row 1), the sheet yields no aggregate, and every row the loop visits is
    dropped with a warning. *)
Theorem missing_column_ingests_nothing (ws : Worksheet) :
  (forall col, headers_at (headerRow_values ws) col ≠ Some "Bill Number")
  \/ (forall col, headers_at (headerRow_values ws) col ≠ Some "Order Total Amount") ->
  parseFileAndGroupOrders ws = []
  /\ warnings (groupRows ws) = map number (List.filter visited ws).
Proof.
  intros Hno.
  assert (Hlack : forall r, lacks_critical_data (rowData_of (headerRow_values ws) r) = true).
  { intros r. apply lacking_is_falsy. destruct Hno as [Hno|Hno]; [left|right].
    - apply (rowData_without_column _ _ "Bill Number"); [|exact Hno].
      intros l. apply COLUMN_MAP_critical_labels.
    - apply (rowData_without_column _ _ "Order Total Amount"); [|exact Hno].
      intros l. apply COLUMN_MAP_critical_labels. }
  split.
  - rewrite parseFileAndGroupOrders_grouped. unfold surviving_rows.
    rewrite filter_none; [reflexivity|].
    intros rowData (r & -> & _)%list_elem_of_fmap. now rewrite Hlack.
  - rewrite groupRows_warnings. unfold dropped_rows. f_equal.
    apply List.filter_ext. intros r. now rewrite Hlack, andb_true_r.
Qed.

Lemma missing_column_ingests_nothing_witness :
  parseFileAndGroupOrders ws_wrong_header = []
  /\ warnings (groupRows ws_wrong_header) = [2; 3]%nat.
Proof.
  destruct (missing_column_ingests_nothing ws_wrong_header) as [Hp Hw].
  - left. intros col.
    change (headerRow_values ws_wrong_header)
      with [ (1, JStr "Bill No"); (2, JStr "Email"); (3, JStr "Order Total Amount") ]%nat.
    destruct col as [|[|[|[|col]]]]; vm_compute; discriminate.
  - split; [exact Hp|]. rewrite Hw. vm_compute. reflexivity.
Defined.

(** ** Errors of customer and product resolution *)

Section ResolutionErrors.
Context {host : Host}.

Lemma findOrCreateCustomer_raise_keeps_store (orderData : JsObject) (d d' : Db) (e : Exn) :
  findOrCreateCustomer orderData d = (inl e, d') -> d' = d.
Proof.
  rewrite findOrCreateCustomer_run.
  destruct (normalizePhone _) as [e0|phone]; [now intros [= _ <-]|]. cbv zeta.
  destruct (existing_customer _ _ _).
  - destruct (rejects d _); [now intros [= _ <-]|discriminate].
  - destruct (nonempty _); [|now intros [= _ <-]].
    destruct (rejects d _); [now intros [= _ <-]|discriminate].
Qed.

Lemma raise_in_customer_resolution (orderData : OrderData) (d : Db) (e : Exn) :
  findOrCreateCustomer (fields orderData) d = (inl e, d) ->
  orderTransaction orderData d = (inl e, d)
  /\ outcome orderData d = Failure
  /\ same_rows d (store_after orderData d).
Proof.
  intros Hc.
  assert (Hrun : orderTransaction orderData d = (inl e, d))
    by now rewrite orderTransaction_run, Hc.
  split; [exact Hrun|]. unfold outcome, store_after. rewrite Hrun.
  split; [reflexivity|apply rollback_same_rows].
Qed.

Lemma unknown_phone_not_found (d : Db) (phone email : string) :
  phone = "" \/ ~ knows_phone d phone ->
  existing_customer d phone email
  = if nonempty email then List.find (by_email email) (customers d) else None.
Proof.
  intros Hp. unfold existing_customer.
  destruct (nonempty phone) eqn:Hne; [|reflexivity].
  destruct Hp as [->|Hp]; [discriminate|].
  destruct (List.find (by_phone phone) (customers d)) as [c|] eqn:Hf; [|reflexivity].
  exfalso. apply Hp. apply find_elem_of in Hf as [Hin Hb].
  apply bool_decide_eq_true in Hb. exists c. auto.
Qed.

Lemma stage_items_returns (o : Order.row) (l : list Item.t) (d d' : Db)
    (staged : list (New OrderItem.row)) :
  stage_items o l d = (inr staged, d') ->
  Forall (fun itemData => truthy (Item.product_id itemData) = true) l
  /\ List.length staged = List.length l.
Proof.
  revert d d' staged. induction l as [|itemData l IH]; intros d d' staged; cbn [stage_items].
  - intros [= <- _]. split; [constructor|reflexivity].
  - unfold mbind, Tx_bind.
    destruct (findOrCreateProduct itemData d) as [[e|p] d1] eqn:Hp; [discriminate|].
    destruct (stage_items o l d1) as [[e|rest] d2] eqn:Hs; [discriminate|].
    intros [= <- _]. apply IH in Hs as [Hall Hlen]. split.
    + constructor; [|exact Hall]. unfold findOrCreateProduct in Hp.
      destruct (truthy (Item.product_id itemData)); [reflexivity|discriminate].
    + cbn. now rewrite Hlen.
Qed.

End ResolutionErrors.

(** X6. An order whose phone cell holds a truthy value that is not a
    string (a number, as spreadsheets store phone numbers) raises a
    TypeError in [normalizePhone]: the order is counted as failed and the
    rows of the store are those from before, whatever its other fields. *)
Theorem non_string_phone_fails_order (host : Host) (orderData : OrderData) (d : Db) :
  truthy (get (fields orderData) "phone") = true ->
  (forall s, get (fields orderData) "phone" ≠ JStr s) ->
  orderTransaction orderData d
  = (inl (TypeError "phoneNumber.replace is not a function"), d)
  /\ outcome orderData d = Failure
  /\ same_rows d (store_after orderData d).
Proof.
  intros Ht Hns. apply raise_in_customer_resolution.
  rewrite findOrCreateCustomer_run. unfold normalizePhone. rewrite Ht. cbn [negb].
  destruct (get (fields orderData) "phone") as [| | | |s|]; try reflexivity.
  now contradiction (Hns s).
Qed.

Lemma non_string_phone_fails_order_witness :
  option_map (fun r => (Summary.failedInserts r.1, orders r.2))
    (run reliable_host ws_numeric_phone empty_db) = Some (1%nat, [])
  /\ @outcome reliable_host (hd no_order (parseFileAndGroupOrders ws_numeric_phone)) empty_db
     = Failure.
Proof.
  split; [vm_compute; reflexivity|].
  refine (proj1 (proj2 (non_string_phone_fails_order reliable_host _ empty_db _ _))).
  - vm_compute; reflexivity.
  - intros s. vm_compute. discriminate.
Defined.

(** X7. When the engine accepts customer writes, customer resolution
    returns a profile exactly when the phone is absent or a string and
    either the trimmed email is non-empty or the normalized phone is
    non-empty and in the phone list of a stored profile.  Whenever it raises
    instead, it has written nothing; in particular an order with no email
    and no known phone fails with the missing-email error. *)
Theorem customer_resolution_succeeds_iff (host : Host) (orderData : JsObject) (d : Db) :
  (accepts_customer_writes host ->
   ((exists c d', findOrCreateCustomer orderData d = (inr c, d')) <-> resolvable d orderData))
  /\ (forall e d', findOrCreateCustomer orderData d = (inl e, d') -> d' = d)
  /\ (forall phone, normalizePhone (get orderData "phone") = inr phone ->
        email_of orderData = "" ->
        phone = "" \/ ~ knows_phone d phone ->
        findOrCreateCustomer orderData d
        = (inl (Error ("Missing primary unique key (Email) for new customer creation from party: "
                       +:+ js_toString (get orderData "party_name"))), d)).
Proof.
  split; [|split].
  - intros Hacc. split.
    + intros (c & d' & H). exact (findOrCreateCustomer_resolvable _ _ _ _ H).
    + now apply resolvable_findOrCreateCustomer.
  - intros e d'. apply findOrCreateCustomer_raise_keeps_store.
  - intros phone Hp He Hunknown. rewrite findOrCreateCustomer_run, Hp. cbv zeta.
    rewrite (unknown_phone_not_found d phone _ Hunknown), He. reflexivity.
Qed.

Lemma customer_resolution_succeeds_iff_witness :
  exists msg d',
    @findOrCreateCustomer reliable_host
      (fields (hd no_order (parseFileAndGroupOrders ws_two_channels))) empty_db
    = (inl (Error msg), d') /\ d' = empty_db.
Proof.
  destruct (customer_resolution_succeeds_iff reliable_host
              (fields (hd no_order (parseFileAndGroupOrders ws_two_channels))) empty_db)
    as (_ & _ & Herr).
  eexists _, _. split; [|reflexivity].
  apply (Herr "9876543210").
  - vm_compute; reflexivity.
  - vm_compute; reflexivity.
  - right. intros (c & Hc & _). inversion Hc.
Defined.

(** X9. An aggregate with a line item that has neither product id nor item
    number is never inserted: product resolution raises, the rows of the
    store stay as they were, and the order is counted as failed (or as
    skipped when its bill number is persisted). *)
Theorem order_with_unidentified_item_not_inserted (host : Host) (orderData : OrderData)
    (d : Db) (itemData : Item.t) :
  itemData ∈ items orderData ->
  truthy (Item.product_id itemData) = false ->
  outcome orderData d ≠ Success
  /\ same_rows d (store_after orderData d)
  /\ (forall rowData, itemData = item_of rowData ->
        truthy (get rowData "product_id") = false
        /\ truthy (get rowData "item_hash") = false).
Proof.
  intros Hin Hfalsy.
  assert (Hno : outcome orderData d ≠ Success).
  { unfold outcome. rewrite orderTransaction_run.
    destruct (findOrCreateCustomer _ d) as [[e|c] d1]; [discriminate|].
    destruct (List.find _ (orders d1)); [discriminate|]. cbv zeta.
    destruct (rejects d1 _); [discriminate|].
    destruct (stage_items _ _ _) as [[e|staged] d3] eqn:Hs; [discriminate|].
    apply stage_items_returns in Hs as [Hall _].
    rewrite Forall_forall in Hall. specialize (Hall _ Hin). congruence. }
  split; [exact Hno|]. split.
  - now apply store_after_effect.
  - intros rowData ->. unfold item_of in Hfalsy. cbn [Item.product_id] in Hfalsy.
    unfold js_or in Hfalsy.
    destruct (truthy (get rowData "product_id")) eqn:Hp; [congruence|auto].
Qed.

Lemma order_with_unidentified_item_not_inserted_witness :
  option_map (fun r => (r.1, orders r.2, products r.2))
    (run reliable_host ws_no_product empty_db)
  = Some ({| Summary.totalProcessed := 1; Summary.successfulInserts := 0;
             Summary.failedInserts := 1; Summary.skippedDuplicates := 0 |}, [], [])
  /\ @outcome reliable_host (hd no_order (parseFileAndGroupOrders ws_no_product)) empty_db
     ≠ Success.
Proof.
  split; [vm_compute; reflexivity|].
  refine (proj1 (order_with_unidentified_item_not_inserted reliable_host _ empty_db
                   (item_of (rowData_of (headerRow_values ws_no_product)
                      (demo_row 3 (JStr "B6") (JStr "O6") (JStr "m@x.in") JNull JNull (JNum 1)
                         (JNum 60)))) _ _)).
  - apply list_elem_of_In. vm_compute. right. left. reflexivity.
  - vm_compute; reflexivity.
Defined.

(** ** Resolving the same contact again *)

Lemma find_split {A : Type} (g : A -> bool) (l : list A) (x : A) :
  List.find g l = Some x ->
  exists l1 l2, l = l1 ++ x :: l2 /\ (forall y, y ∈ l1 -> g y = false) /\ g x = true.
Proof.
  induction l as [|a l IH]; cbn; [discriminate|].
  destruct (g a) eqn:Ha.
  - intros [= <-]. exists [], l. split; [reflexivity|]. split; [|exact Ha].
    intros y Hy. inversion Hy.
  - intros (l1 & l2 & -> & Hl1 & Hx)%IH. exists (a :: l1), l2.
    split; [reflexivity|]. split; [|exact Hx].
    intros y [->|Hy]%elem_of_cons; auto.
Qed.

Lemma find_all_false {A : Type} (g : A -> bool) (l : list A) :
  List.find g l = None -> forall y, y ∈ l -> g y = false.
Proof.
  intros H y Hy. apply (List.find_none _ _ H). now apply list_elem_of_In.
Qed.

Lemma find_first {A : Type} (g : A -> bool) (l1 l2 : list A) (x : A) :
  (forall y, y ∈ l1 -> g y = false) -> g x = true -> List.find g (l1 ++ x :: l2) = Some x.
Proof.
  intros Hl1 Hx. induction l1 as [|a l1 IH]; cbn; [now rewrite Hx|].
  rewrite (Hl1 a) by left. apply IH. intros y Hy. apply Hl1. now right.
Qed.

Lemma replace_customer_unchanged (c : Customer.row) (l : list Customer.row) :
  (forall x, x ∈ l -> Customer.id x = Customer.id c -> x = c) -> replace_customer c l = l.
Proof.
  intros H. unfold replace_customer. induction l as [|a l IH]; [reflexivity|]. cbn.
  rewrite IH by (intros x Hx; apply H; now right).
  destruct (Nat.eqb_spec (Customer.id a) (Customer.id c)) as [He|]; [|reflexivity].
  now rewrite (H a (list_elem_of_here _ _) He).
Qed.

(** The rows after the update of the row [c0] of a table with unique
    ids. *)
Lemma replace_customer_split (c c0 : Customer.row) (l1 l2 : list Customer.row) :
  NoDup (map Customer.id (l1 ++ c0 :: l2)) -> Customer.id c = Customer.id c0 ->
  replace_customer c (l1 ++ c0 :: l2) = l1 ++ c :: l2.
Proof.
  intros Hnd Hid. unfold replace_customer. rewrite map_app. cbn [map].
  rewrite Hid, Nat.eqb_refl.
  rewrite map_app in Hnd. cbn [map] in Hnd.
  apply NoDup_app in Hnd as (_ & Hdisj & [Hc0 _]%NoDup_cons).
  f_equal; [|f_equal]; fold (replace_customer c l1); fold (replace_customer c l2).
  - rewrite <- Hid. apply replace_customer_unchanged. intros x Hx He. exfalso.
    apply (Hdisj (Customer.id x)); [apply list_elem_of_fmap; eauto|]. rewrite He, Hid. left.
  - rewrite <- Hid. apply replace_customer_unchanged. intros x Hx He. exfalso.
    apply Hc0. rewrite <- Hid, <- He. apply list_elem_of_fmap. eauto.
Qed.

Lemma js_or_idem (a b : JsVal) : js_or a (js_or a b) = js_or a b.
Proof. unfold js_or. destruct (truthy a); reflexivity. Qed.

Lemma push_if_new_elem_of (x : string) (l : list string) : x ≠ "" -> x ∈ push_if_new x l.
Proof.
  intros Hx. destruct (push_if_new_cases x l) as [(_ & _ & ->)|([?|Hin] & ->)];
    [apply elem_of_app; right; left|contradiction|exact Hin].
Qed.

Lemma push_if_new_present (x : string) (l : list string) :
  x = "" \/ x ∈ l -> push_if_new x l = l.
Proof.
  intros H. destruct (push_if_new_cases x l) as [(Hne & Hnin & _)|(_ & ->)]; [|reflexivity].
  destruct H; contradiction.
Qed.

Lemma push_if_new_idem (x : string) (l : list string) :
  push_if_new x (push_if_new x l) = push_if_new x l.
Proof.
  apply push_if_new_present. destruct (String.eqb_spec x "") as [->|Hne]; [now left|right].
  now apply push_if_new_elem_of.
Qed.

Lemma merge_customer_idem (orderData : JsObject) (phone email : string) (c : Customer.row) :
  merge_customer orderData phone email (merge_customer orderData phone email c)
  = merge_customer orderData phone email c.
Proof.
  unfold merge_customer. cbn. rewrite !js_or_idem, !push_if_new_idem. reflexivity.
Qed.

Lemma merge_new_customer (orderData : JsObject) (phone email : string) (id : nat) :
  merge_customer orderData phone email (new_customer orderData phone email id)
  = new_customer orderData phone email id.
Proof.
  unfold merge_customer, new_customer. cbn. rewrite !js_or_idem.
  assert (Hor : forall a, js_or a a = a) by (intros a; unfold js_or; now destruct (truthy a)).
  rewrite !Hor. f_equal.
  - apply push_if_new_present. unfold nonempty.
    destruct (String.eqb_spec email "") as [->|]; [now left|right; left].
  - apply push_if_new_present. unfold nonempty.
    destruct (String.eqb_spec phone "") as [->|]; [now left|right; left].
Qed.

Lemma nonempty_true (s : string) : nonempty s = true <-> s ≠ "".
Proof. unfold nonempty. destruct (String.eqb_spec s ""); split; try congruence; auto. Qed.

Section Again.
Context {host : Host}.

(** After a resolution that returned [c], the searches for the same
    contact data find [c]. *)
Lemma search_after_resolution (orderData : JsObject) (d d' : Db) (c : Customer.row)
    (phone : string) :
  wf d ->
  findOrCreateCustomer orderData d = (inr c, d') ->
  normalizePhone (get orderData "phone") = inr phone ->
  (phone ≠ "" -> List.find (by_phone phone) (customers d') = Some c)
  /\ (phone = "" -> List.find (by_email (email_of orderData)) (customers d') = Some c
                    /\ email_of orderData ≠ "")
  /\ (customers d' = replace_customer c (customers d')).
Proof.
  intros [Hnd Hlt] Hrun Hp. rewrite findOrCreateCustomer_run, Hp in Hrun. cbv zeta in Hrun.
  set (email := email_of orderData) in *.
  destruct (existing_customer d phone email) as [c0|] eqn:Hex.
  - destruct (rejects d _); [discriminate|]. injection Hrun as <- <-.
    set (c := merge_customer orderData phone email c0).
    cbn [customers set_customers].
    assert (Hc0 : exists l1 l2, customers d = l1 ++ c0 :: l2).
    { apply existing_customer_elem_of in Hex as [Hin _]. now apply list_elem_of_split. }
    destruct Hc0 as (l1 & l2 & Hl).
    assert (Hrep : replace_customer c (customers d) = l1 ++ c :: l2).
    { rewrite Hl. apply replace_customer_split; [now rewrite <- Hl|reflexivity]. }
    assert (Hsplit : forall g, List.find g (customers d) = Some c0 ->
              g c = true -> List.find g (replace_customer c (customers d)) = Some c).
    { intros g Hg Hgc. apply find_split in Hg as (k1 & k2 & Hk & Hfalse & _).
      rewrite Hk. rewrite replace_customer_split; [|now rewrite <- Hk|reflexivity].
      now apply find_first. }
    unfold existing_customer in Hex.
    split; [|split].
    + intros Hne. apply nonempty_true in Hne as Hne'. rewrite Hne' in Hex.
      assert (Hgc : by_phone phone c = true).
      { apply bool_decide_eq_true. cbn. now apply push_if_new_elem_of. }
      destruct (List.find (by_phone phone) (customers d)) as [c1|] eqn:Hf.
      * injection Hex as ->. now apply Hsplit.
      * rewrite Hrep. apply find_first; [|exact Hgc].
        intros y Hy. apply (find_all_false _ _ Hf). rewrite Hl. apply elem_of_app. now left.
    + intros ->. cbn in Hex. destruct (nonempty email) eqn:He; [|discriminate].
      split; [|now apply nonempty_true].
      apply Hsplit; [exact Hex|]. apply find_elem_of in Hex as [_ Hb]. exact Hb.
    + rewrite Hrep. symmetry. apply replace_customer_split; [|reflexivity].
      rewrite <- Hrep, replace_customer_ids. exact Hnd.
  - destruct (nonempty email) eqn:He; [|discriminate].
    destruct (rejects d _); [discriminate|]. injection Hrun as <- <-.
    cbn [customers set_customers].
    set (c := new_customer orderData phone email (next_customer_id d)).
    unfold existing_customer in Hex. rewrite He in Hex.
    split; [|split].
    + intros Hne. apply nonempty_true in Hne as Hne'. rewrite Hne' in Hex.
      destruct (List.find (by_phone phone) (customers d)) eqn:Hf; [discriminate|].
      apply find_first; [now apply find_all_false|].
      apply bool_decide_eq_true. cbn. rewrite Hne'. left.
    + intros ->. cbn in Hex. split; [|now apply nonempty_true].
      apply find_first; [now apply find_all_false|]. now apply bool_decide_eq_true.
    + symmetry. apply replace_customer_unchanged.
      intros x [Hx| ->%list_elem_of_singleton]%elem_of_app Hid; [|reflexivity].
      exfalso. rewrite Forall_forall in Hlt.
      assert (Customer.id x < next_customer_id d)%nat
        by (apply Hlt, list_elem_of_fmap; eauto).
      cbn in Hid. lia.
Qed.

End Again.

Section Stable.
Context {host : Host}.

Lemma merge_of_resolved (orderData : JsObject) (d d' : Db) (c : Customer.row)
    (phone : string) :
  findOrCreateCustomer orderData d = (inr c, d') ->
  normalizePhone (get orderData "phone") = inr phone ->
  merge_customer orderData phone (email_of orderData) c = c.
Proof.
  intros Hrun Hp. rewrite findOrCreateCustomer_run, Hp in Hrun. cbv zeta in Hrun.
  destruct (existing_customer d phone (email_of orderData)) as [c0|].
  - destruct (rejects d _); [discriminate|]. injection Hrun as <- _.
    apply merge_customer_idem.
  - destruct (nonempty (email_of orderData)); [|discriminate].
    destruct (rejects d _); [discriminate|]. injection Hrun as <- _.
    apply merge_new_customer.
Qed.

Lemma existing_after_resolution (orderData : JsObject) (d d' : Db) (c : Customer.row)
    (phone : string) :
  wf d ->
  findOrCreateCustomer orderData d = (inr c, d') ->
  normalizePhone (get orderData "phone") = inr phone ->
  existing_customer d' phone (email_of orderData) = Some c.
Proof.
  intros Hwf Hrun Hp.
  destruct (search_after_resolution orderData d d' c phone Hwf Hrun Hp) as (Hph & Hem & _).
  unfold existing_customer. destruct (nonempty phone) eqn:Hne.
  - apply nonempty_true in Hne. now rewrite (Hph Hne).
  - assert (phone = "") as -> by (unfold nonempty in Hne;
      now destruct (String.eqb_spec phone "")).
    destruct (Hem eq_refl) as [Hf He]. apply nonempty_true in He. now rewrite He.
Qed.

Lemma set_customers_same (d : Db) :
  set_customers (customers d) (next_customer_id d) d = d.
Proof. now destruct d. Qed.

End Stable.

(** X10. Customer resolution is stable: on a store with unique customer
    ids, resolving the same order again on the store the first resolution
    left finds the same profile by the same searches, merges nothing new,
    and leaves the store as it is. *)
Theorem customer_resolution_stable (host : Host) (orderData : JsObject) (d d' : Db)
    (c : Customer.row) :
  wf d ->
  findOrCreateCustomer orderData d = (inr c, d') ->
  search_customer
    (match normalizePhone (get orderData "phone") with inr phone => phone | inl _ => "" end)
    (email_of orderData) d' = (inr (Some c), d')
  /\ (rejects d' (UpdateCustomer c) = false ->
      findOrCreateCustomer orderData d' = (inr c, d')).
Proof.
  intros Hwf Hrun.
  destruct (normalizePhone (get orderData "phone")) as [e|phone] eqn:Hp.
  { rewrite findOrCreateCustomer_run, Hp in Hrun. discriminate. }
  pose proof (existing_after_resolution _ _ _ _ _ Hwf Hrun Hp) as Hex.
  split; [now rewrite search_customer_existing, Hex|].
  intros Hacc. rewrite findOrCreateCustomer_run, Hp. cbv zeta. rewrite Hex.
  rewrite (merge_of_resolved _ _ _ _ _ Hrun Hp), Hacc.
  destruct (search_after_resolution _ _ _ _ _ Hwf Hrun Hp) as (_ & _ & <-).
  now rewrite set_customers_same.
Qed.

Lemma customer_resolution_stable_witness :
  exists c d',
    @findOrCreateCustomer reliable_host order_mixed_channels db_two_profiles = (inr c, d')
    /\ @findOrCreateCustomer reliable_host order_mixed_channels d' = (inr c, d')
    /\ Customer.all_emails c = ["asha@x.in"; "ravi@x.in"].
Proof.
  destruct (@findOrCreateCustomer reliable_host order_mixed_channels db_two_profiles)
    as [[e|c] d'] eqn:Hrun; [vm_compute in Hrun; discriminate|].
  exists c, d'. split; [reflexivity|].
  destruct (customer_resolution_stable reliable_host order_mixed_channels db_two_profiles d' c)
    as [_ Hagain].
  - split.
    + apply (bool_decide_unpack _). vm_compute. reflexivity.
    + cbn. repeat (constructor; [lia|]). constructor.
  - exact Hrun.
  - split; [now apply Hagain|]. vm_compute in Hrun. now injection Hrun as <- _.
Defined.

(** ** The totals the reconciliation prints *)

Lemma elem_of_List_filter {A : Type} (p : A -> bool) (l : list A) (x : A) :
  x ∈ List.filter p l <-> x ∈ l /\ p x = true.
Proof. rewrite !list_elem_of_In. apply List.filter_In. Qed.

Lemma NoDup_List_filter {A : Type} (p : A -> bool) (l : list A) :
  NoDup l -> NoDup (List.filter p l).
Proof. rewrite !NoDup_ListNoDup. apply List.NoDup_filter. Qed.

Lemma first_occurrences_NoDup (l : list string) : NoDup (first_occurrences String.eqb l).
Proof.
  induction l as [|a l IH]; cbn; [constructor|]. apply NoDup_cons. split.
  - intros [_ H]%elem_of_List_filter. now rewrite String.eqb_refl in H.
  - now apply NoDup_List_filter.
Qed.

Lemma Set_has_true (s : list string) (x : string) : Set_has s x = true <-> x ∈ s.
Proof. unfold Set_has. apply bool_decide_eq_true. Qed.

Lemma elem_of_first_occurrences (l : list string) (x : string) :
  x ∈ first_occurrences String.eqb l <-> x ∈ l.
Proof. now rewrite <- !Set_has_true, Set_has_first_occurrences. Qed.

Lemma matched_both_ways (keys imported : list string) :
  NoDup keys -> NoDup imported ->
  List.length (List.filter (Set_has imported) keys)
  = List.length (List.filter (Set_has keys) imported).
Proof.
  intros Hk Hi. apply Permutation_length. apply NoDup_Permutation.
  - now apply NoDup_List_filter.
  - now apply NoDup_List_filter.
  - intros x. rewrite !elem_of_List_filter, !Set_has_true. tauto.
Qed.

Lemma filter_partition_length {A : Type} (p : A -> bool) (l : list A) :
  (List.length (List.filter p l) + List.length (List.filter (fun x => negb (p x)) l)
   = List.length l)%nat.
Proof.
  induction l as [|a l IH]; [reflexivity|]. cbn. destruct (p a); cbn; lia.
Qed.

Lemma imported_bills_elem_of (d : Db) (b : string) :
  b ∈ getImportedBillNumbersFromDB d
  <-> exists order, order ∈ orders d /\ trim (Order.bill_number order) = b.
Proof.
  unfold getImportedBillNumbersFromDB.
  rewrite Set_from_first_occurrences, elem_of_first_occurrences, list_elem_of_fmap.
  split; intros (o & H1 & H2); exists o; auto.
Qed.

(** X12. The totals of the reconciliation report add up: the number of
    distinct source bill numbers is matched plus missing, the number the
    report prints as the store's total (matched plus extra) is the number of
    distinct trimmed bill numbers in the store, no bill number is listed
    twice, and none is listed both as missing and as extra. *)
Theorem reconciliation_totals_add_up (d : Db) (records : list JsObject) :
  let a := fold_left audit_record records
             {| csvBillNumbers := []; importedDbBills := getImportedBillNumbersFromDB d;
                result := {| missingInDb := []; extraInDb := []; matched := 0 |} |} in
  let r := performDeltaAnalysis d records in
  (List.length (csvBillNumbers a) = matched r + List.length (missingInDb r))%nat
  /\ (matched r + List.length (extraInDb r)
      = List.length (getImportedBillNumbersFromDB d))%nat
  /\ (List.length (getImportedBillNumbersFromDB d) <= List.length (orders d))%nat
  /\ NoDup (missingInDb r) /\ NoDup (extraInDb r)
  /\ (forall b, b ∈ missingInDb r -> b ∉ extraInDb r)
  /\ (matched r <= List.length (orders d))%nat.
Proof.
  intros a r.
  set (imported := getImportedBillNumbersFromDB d) in *.
  set (keys := first_occurrences String.eqb (source_bill_numbers records)).
  assert (Ha : a = {| csvBillNumbers := keys;
                      importedDbBills := List.filter (fun b => negb (Set_has keys b)) imported;
                      result := {| missingInDb :=
                                     List.filter (fun b => negb (Set_has imported b)) keys;
                                   extraInDb := [];
                                   matched := List.length (List.filter (Set_has imported) keys) |} |})
    by apply audit_fold.
  assert (Hr : r = {| missingInDb := List.filter (fun b => negb (Set_has imported b)) keys;
                      extraInDb := List.filter (fun b => negb (Set_has keys b)) imported;
                      matched := List.length (List.filter (Set_has imported) keys) |}).
  { unfold r, performDeltaAnalysis, deltaAnalysis. fold imported. fold a. now rewrite Ha. }
  assert (Hk : NoDup keys) by apply first_occurrences_NoDup.
  assert (Hi : NoDup imported).
  { unfold imported, getImportedBillNumbersFromDB. rewrite Set_from_first_occurrences.
    apply first_occurrences_NoDup. }
  assert (Hlen : (List.length imported <= List.length (orders d))%nat).
  { unfold imported, getImportedBillNumbersFromDB. rewrite Set_from_first_occurrences.
    rewrite <- (length_map (fun order => trim (Order.bill_number order)) (orders d)).
    generalize (map (fun order => trim (Order.bill_number order)) (orders d)).
    intros l. induction l as [|x l IH]; cbn; [lia|].
    apply le_n_S. etransitivity; [apply List.filter_length_le|exact IH]. }
  rewrite Ha, Hr. cbn [csvBillNumbers matched missingInDb extraInDb].
  pose proof (filter_partition_length (Set_has imported) keys) as H1.
  pose proof (filter_partition_length (Set_has keys) imported) as H2.
  pose proof (matched_both_ways keys imported Hk Hi) as H3.
  split; [lia|]. split; [lia|]. split; [exact Hlen|].
  split; [now apply NoDup_List_filter|]. split; [now apply NoDup_List_filter|].
  split; [|lia].
  intros b [Hb1 Hb2]%elem_of_List_filter [Hb3 _]%elem_of_List_filter.
  apply Set_has_true in Hb3. now rewrite Hb3 in Hb2.
Qed.

(** X13. The import and the reconciliation agree: after a run over the
    aggregates, the bill number of every aggregate that was inserted or
    skipped is never reported missing by the reconciliation of the final
    store, whatever the source records are; it is reported extra exactly
    when the records do not hold it. *)
Theorem processed_orders_not_missing (host : Host) (l : list OrderData) (d : Db)
    (i : nat) (orderData : OrderData) (o : Outcome) (records : list JsObject) :
  wf d -> l !! i = Some orderData -> outcomes l d !! i = Some o -> o ≠ Failure ->
  let r := performDeltaAnalysis (final_store l d) records in
  let b := trim (bill_text orderData) in
  (b ∉ missingInDb r)
  /\ (b ∈ extraInDb r <-> b ∉ source_bill_numbers records).
Proof.
  intros Hwf Hl Ho Hnf r b.
  destruct (first_pass_settles l d i orderData o Hwf Hl Ho Hnf) as [_ (ord & Hin & Hb)].
  set (imported := getImportedBillNumbersFromDB (final_store l d)).
  set (keys := first_occurrences String.eqb (source_bill_numbers records)).
  assert (Himp : b ∈ imported).
  { apply imported_bills_elem_of. exists ord. split; [exact Hin|]. unfold b. now rewrite Hb. }
  assert (Hr : r = {| missingInDb := List.filter (fun b => negb (Set_has imported b)) keys;
                      extraInDb := List.filter (fun b => negb (Set_has keys b)) imported;
                      matched := List.length (List.filter (Set_has imported) keys) |}).
  { unfold r, performDeltaAnalysis, deltaAnalysis. fold imported. now rewrite audit_fold. }
  rewrite Hr. cbn [missingInDb extraInDb]. split.
  - intros [_ H]%elem_of_List_filter. apply Set_has_true in Himp. now rewrite Himp in H.
  - rewrite elem_of_List_filter, negb_true_iff. unfold keys.
    rewrite Set_has_first_occurrences. unfold Set_has. rewrite bool_decide_eq_false. tauto.
Qed.

Lemma processed_orders_not_missing_witness :
  let l := parseFileAndGroupOrders ws_two_channels in
  let records := map csv_record ["B1"; "B3"] in
  let r := performDeltaAnalysis (@final_store reliable_host l empty_db) records in
  let b := trim (bill_text (hd no_order (skipn 1 l))) in
  b = "B2" /\ (b ∉ missingInDb r) /\ (b ∈ extraInDb r <-> b ∉ source_bill_numbers records).
Proof.
  intros l records r b. split; [vm_compute; reflexivity|].
  apply (processed_orders_not_missing reliable_host l empty_db 1
           (hd no_order (skipn 1 l)) Success records).
  - split; constructor.
  - reflexivity.
  - vm_compute. reflexivity.
  - discriminate.
Defined.

(** ** What an inserted order adds to the tables *)

Lemma replace_customer_emails (c' c0 : Customer.row) (l : list Customer.row) :
  NoDup (map Customer.id l) -> c0 ∈ l ->
  Customer.id c' = Customer.id c0 -> Customer.email c' = Customer.email c0 ->
  map Customer.email (replace_customer c' l) = map Customer.email l.
Proof.
  intros Hnd Hin Hid He. unfold replace_customer. rewrite map_map.
  apply map_ext_in. intros x Hx%list_elem_of_In.
  destruct (Nat.eqb_spec (Customer.id x) (Customer.id c')) as [Hxc|]; [|reflexivity].
  assert (x = c0) as -> by (apply (NoDup_map_eq Customer.id l); congruence).
  exact He.
Qed.

Lemma find_none_not_elem_of {A : Type} (g : A -> bool) (l : list A) (x : A) :
  List.find g l = None -> x ∈ l -> g x = false.
Proof. intros Hf Hx%list_elem_of_In. exact (List.find_none _ _ Hf x Hx). Qed.

Lemma NoDup_snoc_fresh {A : Type} (l : list A) (x : A) :
  NoDup l -> (x ∉ l) -> NoDup (l ++ [x]).
Proof.
  intros Hl Hx. apply NoDup_app. split; [exact Hl|]. split; [|apply NoDup_singleton].
  intros y Hy ->%list_elem_of_singleton. contradiction.
Qed.

Section Inserted.
Context {host : Host}.

(** The customer table after a resolution that returned a profile. *)
Lemma findOrCreateCustomer_customers (orderData : JsObject) (d d' : Db) (c : Customer.row) :
  findOrCreateCustomer orderData d = (inr c, d') ->
  (c ∈ customers d')
  /\ (forall i, i ∈ map Customer.id (customers d) -> i ∈ map Customer.id (customers d'))
  /\ (wf d -> NoDup (map Customer.email (customers d)) ->
      NoDup (map Customer.email (customers d'))).
Proof.
  rewrite findOrCreateCustomer_run.
  destruct (normalizePhone (get orderData "phone")) as [e|phone]; [discriminate|].
  cbv zeta. destruct (existing_customer d phone (email_of orderData)) as [c0|] eqn:Hex.
  - destruct (rejects d _); [discriminate|]. intros [= <- <-].
    cbn [customers set_customers].
    apply existing_customer_elem_of in Hex as [Hin _].
    split; [|split].
    + destruct (replace_customer_elem_of
                  (merge_customer orderData phone (email_of orderData) c0) c0 _ Hin)
        as [[_ H]|[H _]]; [exact H|now contradiction H].
    + intros i. now rewrite replace_customer_ids.
    + intros [Hnd _] He. now rewrite (replace_customer_emails _ c0).
  - destruct (nonempty (email_of orderData)) eqn:Hne; [|discriminate].
    destruct (rejects d _); [discriminate|]. intros [= <- <-].
    cbn [customers set_customers]. split; [|split].
    + apply elem_of_app. right. left.
    + intros i Hi. rewrite map_app. apply elem_of_app. now left.
    + intros _ He. rewrite map_app. apply NoDup_snoc_fresh; [exact He|].
      cbn. intros (x & Hx & Hin)%list_elem_of_fmap.
      unfold existing_customer in Hex. rewrite Hne in Hex.
      destruct (if nonempty phone then _ else _); [discriminate|].
      pose proof (find_none_not_elem_of _ _ x Hex Hin) as Hf.
      unfold by_email in Hf. apply bool_decide_eq_false in Hf. congruence.
Qed.

(** What [findOrCreateProduct] does to the store when it returns. *)
Lemma findOrCreateProduct_effect (itemData : Item.t) (d d' : Db) (p : Product.row) :
  findOrCreateProduct itemData d = (inr p, d') ->
  customers d' = customers d /\ orders d' = orders d /\ order_items d' = order_items d
  /\ (p ∈ products d')
  /\ (exists extra, products d' = products d ++ extra)
  /\ (NoDup (map Product.product_id (products d)) ->
      NoDup (map Product.product_id (products d'))).
Proof.
  unfold findOrCreateProduct.
  destruct (truthy (Item.product_id itemData)); cbn [negb]; [|discriminate].
  unfold mbind, Tx_bind, Product_findOne, query.
  destruct (List.find _ (products d)) as [q|] eqn:Hf.
  - intros [= <- <-]. apply find_elem_of in Hf as [Hin _].
    repeat split; auto. exists []. now rewrite app_nil_r.
  - unfold Product_create, mbind, Tx_bind, execute.
    destruct (rejects d _); [discriminate|]. intros [= <- <-].
    cbn [customers orders order_items products set_products].
    repeat split; auto.
    + apply elem_of_app. right. left.
    + eexists. reflexivity.
    + intros Hnd. rewrite map_app. apply NoDup_snoc_fresh; [exact Hnd|].
      cbn. intros (x & Hx & Hin)%list_elem_of_fmap.
      pose proof (find_none_not_elem_of _ _ x Hf Hin) as Hn.
      apply bool_decide_eq_false in Hn. congruence.
Qed.

(** What the loop over the line items does to the store when it
    completes. *)
Lemma stage_items_effect (o : Order.row) (l : list Item.t) (d d' : Db)
    (staged : list (New OrderItem.row)) :
  stage_items o l d = (inr staged, d') ->
  customers d' = customers d /\ orders d' = orders d /\ order_items d' = order_items d
  /\ List.length staged = List.length l
  /\ (exists extra, products d' = products d ++ extra)
  /\ (NoDup (map Product.product_id (products d)) ->
      NoDup (map Product.product_id (products d')))
  /\ (forall row n, row ∈ staged ->
        OrderItem.orderId (row n) = Order.id o
        /\ exists p, p ∈ products d' /\ Product.id p = OrderItem.productId (row n)).
Proof.
  revert d d' staged. induction l as [|itemData l IH]; intros d d' staged; cbn [stage_items].
  - intros [= <- <-]. repeat split; auto.
    + exists []. now rewrite app_nil_r.
    + inversion H.
    + inversion H.
  - unfold mbind, Tx_bind.
    destruct (findOrCreateProduct itemData d) as [[e|p] d1] eqn:Hp; [discriminate|].
    destruct (stage_items o l d1) as [[e|rest] d2] eqn:Hs; [discriminate|].
    intros [= <- <-].
    apply findOrCreateProduct_effect in Hp as (Hc & Ho & Hi & Hin & [x1 Hx1] & Hnd).
    apply IH in Hs as (Hc' & Ho' & Hi' & Hlen & [x2 Hx2] & Hnd' & Hrows).
    split; [congruence|]. split; [congruence|]. split; [congruence|].
    split; [cbn; now rewrite Hlen|].
    split; [exists (x1 ++ x2); now rewrite Hx2, Hx1, app_assoc|].
    split; [auto|].
    intros row n [->|Hrow]%elem_of_cons; [|now apply Hrows].
    split; [reflexivity|]. exists p. split; [|reflexivity].
    rewrite Hx2. apply elem_of_app. now left.
Qed.

(** The tables after a transaction that inserted the order. *)
Lemma orderTransaction_inserted (orderData : OrderData) (d d' : Db) :
  orderTransaction orderData d = (inr Inserted, d') ->
  exists customer d1 o rows extra,
    findOrCreateCustomer (fields orderData) d = (inr customer, d1)
    /\ customers d' = customers d1
    /\ orders d' = orders d ++ [o]
    /\ Order.bill_number o = bill_text orderData
    /\ Order.customerId o = Customer.id customer
    /\ (bill_text orderData ∉ map Order.bill_number (orders d))
    /\ order_items d' = order_items d ++ rows
    /\ List.length rows = List.length (items orderData)
    /\ (forall it, it ∈ rows ->
          OrderItem.orderId it = Order.id o
          /\ exists p, p ∈ products d' /\ Product.id p = OrderItem.productId it)
    /\ products d' = products d ++ extra
    /\ (NoDup (map Product.product_id (products d)) ->
        NoDup (map Product.product_id (products d'))).
Proof.
  rewrite orderTransaction_run.
  destruct (findOrCreateCustomer (fields orderData) d) as [[e|customer] d1] eqn:Hc;
    [discriminate|].
  pose proof (findOrCreateCustomer_grows _ _ _ _ Hc) as (_ & Ho1 & Hi1 & Hp1).
  destruct (List.find _ (orders d1)) eqn:Hf; [discriminate|].
  cbv zeta. set (o := orderToInsert (fields orderData) customer (next_order_id d1)).
  destruct (rejects d1 _); [discriminate|].
  destruct (stage_items o (items orderData) _) as [[e|staged] d3] eqn:Hs; [discriminate|].
  apply stage_items_effect in Hs as (Hc3 & Ho3 & Hi3 & Hlen & [extra Hx] & Hnd & Hrows).
  cbn [customers orders order_items products set_orders] in Hc3, Ho3, Hi3, Hx, Hnd.
  assert (Hfresh : bill_text orderData ∉ map Order.bill_number (orders d)).
  { intros (x & Hx' & Hin)%list_elem_of_fmap. rewrite <- Ho1 in Hin.
    pose proof (find_none_not_elem_of _ _ x Hf Hin) as Hn.
    unfold by_bill in Hn. apply bool_decide_eq_false in Hn. congruence. }
  intros H. exists customer, d1, o.
  destruct (0 <? List.length staged)%nat eqn:Hpos.
  - destruct (rejects d3 _); [discriminate|]. injection H as <-.
    exists (number_rows (next_order_item_id d3) staged), extra.
    cbn [customers orders order_items products set_order_items].
    split; [reflexivity|]. split; [exact Hc3|]. split; [congruence|].
    split; [reflexivity|]. split; [reflexivity|]. split; [exact Hfresh|].
    split; [congruence|]. split; [unfold number_rows; now rewrite length_imap|].
    split; [|split; [congruence|rewrite <- Hp1; exact Hnd]].
    intros it (i & row & -> & Hrow)%elem_of_lookup_imap.
    apply Hrows. apply list_elem_of_lookup. eauto.
  - injection H as <-. exists [], extra.
    apply Nat.ltb_ge in Hpos.
    assert (staged = []) as -> by (destruct staged; [reflexivity|cbn in Hpos; lia]).
    split; [reflexivity|]. split; [exact Hc3|]. split; [congruence|].
    split; [reflexivity|]. split; [reflexivity|]. split; [exact Hfresh|].
    split; [rewrite app_nil_r; congruence|]. split; [now rewrite <- Hlen|].
    split; [intros it H; inversion H|].
    split; [congruence|rewrite <- Hp1; exact Hnd].
Qed.

(** The same for one step of the run. *)
Lemma store_after_inserted (orderData : OrderData) (d : Db) :
  outcome orderData d = Success ->
  orderTransaction orderData d = (inr Inserted, store_after orderData d).
Proof.
  unfold outcome, outcome_of, store_after.
  destruct (orderTransaction orderData d) as [[e|[]] d']; [discriminate|reflexivity|discriminate].
Qed.

End Inserted.

Section Invariants.
Context {host : Host}.

Lemma import_orders_db (ws : Worksheet) (js : gmap string JobState) (job_id : string)
    (d : Db) :
  (import_orders ws js job_id d).2 = final_store (parseFileAndGroupOrders ws) d.
Proof.
  unfold import_orders.
  destruct (processOrderFile_total ws (<[job_id := initial_job]> js) job_id d)
    as (s & st & -> & Hdb).
  - rewrite lookup_insert_eq. eauto.
  - exact Hdb.
Qed.

Lemma outcome_success_or_not (orderData : OrderData) (d : Db) :
  outcome orderData d = Success \/ outcome orderData d ≠ Success.
Proof. destruct (outcome orderData d); [now left|now right..]. Qed.

Lemma store_after_not_inserted (orderData : OrderData) (d : Db) :
  outcome orderData d ≠ Success -> same_rows d (store_after orderData d).
Proof. apply store_after_effect. Qed.

Lemma final_store_invariant (P : Db -> Prop) :
  (forall orderData d, P d -> P (store_after orderData d)) ->
  forall l d, P d -> P (final_store l d).
Proof.
  intros Hstep l. unfold final_store.
  induction l as [|a l IH]; intros d Hd; [exact Hd|]. cbn [fold_left]. auto.
Qed.

Lemma store_after_unique_keys (orderData : OrderData) (d : Db) :
  unique_keys d -> unique_keys (store_after orderData d).
Proof.
  intros [Hwf He Hb Hp].
  assert (Hwf' : wf (store_after orderData d)).
  { destruct (store_after_effect orderData d) as (Hg & _). now apply (grows_wf _ _ Hg). }
  destruct (outcome_success_or_not orderData d) as [Hs|Hs].
  - apply store_after_inserted, orderTransaction_inserted in Hs
      as (customer & d1 & o & rows & extra & Hc & Hcs & Ho & Hbo & _ & Hfresh & _ & _ & _ & _ & Hnd).
    split; [exact Hwf'| | |auto].
    + rewrite Hcs. now apply (findOrCreateCustomer_customers _ _ _ _ Hc).
    + rewrite Ho, map_app. apply NoDup_snoc_fresh; [exact Hb|]. now rewrite Hbo.
  - destruct (store_after_not_inserted _ _ Hs) as (Hc & Ho & _ & Hpr).
    split; [exact Hwf'|now rewrite Hc|now rewrite Ho|now rewrite Hpr].
Qed.

Lemma store_after_references (orderData : OrderData) (d : Db) :
  references_resolve d -> references_resolve (store_after orderData d).
Proof.
  intros [Hoc Hio Hip].
  destruct (outcome_success_or_not orderData d) as [Hs|Hs].
  - apply store_after_inserted, orderTransaction_inserted in Hs
      as (customer & d1 & o & rows & extra & Hc & Hcs & Ho & _ & Hcid & _ & Hi & _ & Hrows
          & Hx & _).
    apply findOrCreateCustomer_customers in Hc as (Hin & Hids & _).
    split.
    + intros o'. rewrite Ho, Hcs.
      intros [Ho'|Ho']%elem_of_app;
        [|apply list_elem_of_singleton in Ho' as ->; eauto].
      destruct (Hoc o' Ho') as (c & Hcin & Hcid').
      assert (Hid : Customer.id c ∈ map Customer.id (customers d1)).
      { apply Hids. apply list_elem_of_fmap. eauto. }
      apply list_elem_of_fmap in Hid as (c' & Hid & Hc'). exists c'. split; congruence.
    + intros it. rewrite Hi, Ho. intros [Hit|Hit]%elem_of_app.
      * destruct (Hio it Hit) as (o' & Ho' & Hid). exists o'.
        split; [apply elem_of_app; now left|exact Hid].
      * exists o. split; [apply elem_of_app; right; left|]. symmetry. now apply Hrows.
    + intros it. rewrite Hi. intros [Hit|Hit]%elem_of_app; [|now apply Hrows].
      destruct (Hip it Hit) as (p & Hp & Hid). exists p.
      split; [rewrite Hx; apply elem_of_app; now left|exact Hid].
  - destruct (store_after_not_inserted _ _ Hs) as (Hc & Ho & Hi & Hpr).
    split; intros x; rewrite ?Hc, ?Ho, ?Hi, ?Hpr; auto.
Qed.

Lemma store_after_lengths (orderData : OrderData) (d : Db) :
  List.length (orders (store_after orderData d))
  = (List.length (orders d) + (if Outcome_eqb Success (outcome orderData d) then 1 else 0))%nat
  /\ List.length (order_items (store_after orderData d))
     = (List.length (order_items d)
        + (if Outcome_eqb Success (outcome orderData d)
           then List.length (items orderData) else 0))%nat.
Proof.
  destruct (outcome_success_or_not orderData d) as [Hs|Hs].
  - rewrite Hs. cbn [Outcome_eqb].
    apply store_after_inserted, orderTransaction_inserted in Hs
      as (customer & d1 & o & rows & extra & _ & _ & Ho & _ & _ & _ & Hi & Hlen & _).
    rewrite Ho, Hi, !length_app, Hlen. cbn. lia.
  - destruct (store_after_not_inserted _ _ Hs) as (_ & Ho & Hi & _).
    rewrite Ho, Hi. destruct (outcome orderData d); [contradiction|cbn; lia..].
Qed.

End Invariants.

(** X14. A run keeps the search keys unique: if customer ids, primary
    emails, bill numbers and external product identifiers each occur once
    in the store before the import, they each occur once after it, whatever
    the worksheet holds and whatever the engine rejects. *)
Theorem import_keeps_keys_unique (host : Host) (ws : Worksheet)
    (js : gmap string JobState) (job_id : string) (l : list OrderData) (d : Db) :
  unique_keys d ->
  unique_keys (final_store l d) /\ unique_keys (import_orders ws js job_id d).2.
Proof.
  intros Hd. rewrite import_orders_db.
  split; apply (final_store_invariant unique_keys store_after_unique_keys); exact Hd.
Qed.

Lemma import_keeps_keys_unique_witness :
  unique_keys (@final_store reliable_host (parseFileAndGroupOrders ws_interleaved) empty_db)
  /\ unique_keys
       (@import_orders reliable_host ws_two_channels ∅ "job" empty_db).2.
Proof.
  apply import_keeps_keys_unique.
  split; [split; constructor|constructor..].
Defined.

(** X15. A run keeps the references between the tables resolvable: if every
    order names a stored customer and every line item a stored order and a
    stored product before the import, the same holds after it. *)
Theorem import_keeps_references (host : Host) (ws : Worksheet)
    (js : gmap string JobState) (job_id : string) (l : list OrderData) (d : Db) :
  references_resolve d ->
  references_resolve (final_store l d)
  /\ references_resolve (import_orders ws js job_id d).2.
Proof.
  intros Hd. rewrite import_orders_db.
  split; apply (final_store_invariant references_resolve store_after_references); exact Hd.
Qed.

Lemma import_keeps_references_witness :
  references_resolve
    (@final_store reliable_host (parseFileAndGroupOrders ws_interleaved) empty_db)
  /\ references_resolve
       (@import_orders reliable_host ws_two_channels ∅ "job" empty_db).2.
Proof.
  apply import_keeps_references.
  split; intros x H; inversion H.
Defined.

(** X16. The tables grow by what was inserted: after a run the order table
    has one more row per successful aggregate, and the line-item table one
    more row per line item of a successful aggregate; skipped and failed
    aggregates add no order and no line item. *)
Theorem run_adds_one_row_per_success (host : Host) (l : list OrderData) (d : Db) :
  List.length (orders (final_store l d))
  = (List.length (orders d) + count Success (outcomes l d))%nat
  /\ List.length (order_items (final_store l d))
     = (List.length (order_items d) + inserted_items l (outcomes l d))%nat
  /\ (inserted_items l (outcomes l d) <= total_items l)%nat.
Proof.
  unfold final_store. revert d. induction l as [|a l IH]; intros d.
  - cbn. unfold count. cbn. lia.
  - cbn [fold_left outcomes]. destruct (IH (store_after a d)) as (Ho & Hi & Hle).
    destruct (store_after_lengths a d) as [Ho' Hi'].
    rewrite Ho, Hi, Ho', Hi', count_cons.
    unfold total_items in *. cbn [inserted_items sum_list_with].
    destruct (outcome a d); cbn [Outcome_eqb]; lia.
Qed.

(** ** Primary keys *)

Lemma keyed_snoc {R : Type} (id : R -> nat) (rows : list R) (x : R) (n : nat) :
  keyed id rows n -> id x = n -> keyed id (rows ++ [x]) (S n).
Proof.
  intros [Hnd Hlt] Hx. unfold keyed. rewrite map_app. cbn [map]. split.
  - apply NoDup_snoc_fresh; [exact Hnd|]. intros Hin.
    rewrite Forall_forall in Hlt. apply Hlt in Hin. lia.
  - apply Forall_app. split.
    + eapply Forall_impl; [exact Hlt|]. cbn. intros; lia.
    + constructor; [lia|constructor].
Qed.

Lemma keyed_mono {R : Type} (id : R -> nat) (rows : list R) (n m : nat) :
  keyed id rows n -> (n <= m)%nat -> keyed id rows m.
Proof.
  intros [Hnd Hlt] Hle. split; [exact Hnd|].
  eapply Forall_impl; [exact Hlt|]. cbn. intros; lia.
Qed.

Lemma number_rows_ids (first : nat) (staged : list (New OrderItem.row)) :
  (forall row, row ∈ staged -> forall k, OrderItem.id (row k) = k) ->
  map OrderItem.id (number_rows first staged) = seq first (List.length staged).
Proof.
  unfold number_rows. revert first.
  induction staged as [|row staged IH]; intros first Hid; [reflexivity|].
  rewrite imap_cons. cbn [map List.length seq]. f_equal.
  - rewrite Hid by left. lia.
  - rewrite <- IH by (intros; apply Hid; now right).
    f_equal. apply imap_ext. intros i x _. cbn. f_equal. lia.
Qed.

Lemma keyed_numbered (rows : list OrderItem.row) (staged : list (New OrderItem.row))
    (n : nat) :
  keyed OrderItem.id rows n ->
  (forall row, row ∈ staged -> forall k, OrderItem.id (row k) = k) ->
  keyed OrderItem.id (rows ++ number_rows n staged) (n + List.length staged).
Proof.
  intros [Hnd Hlt] Hid. unfold keyed. rewrite map_app, (number_rows_ids _ _ Hid).
  rewrite Forall_forall in Hlt. split.
  - apply NoDup_app. split; [exact Hnd|]. split; [|apply NoDup_seq].
    intros i Hi Hs. apply Hlt in Hi. apply elem_of_seq in Hs. lia.
  - apply Forall_forall. intros i [Hi|Hi]%elem_of_app.
    + apply Hlt in Hi. lia.
    + apply elem_of_seq in Hi. lia.
Qed.

Lemma counters_le_refl (d : Db) : counters_le d d.
Proof. split; lia. Qed.

Lemma counters_le_trans (d1 d2 d3 : Db) :
  counters_le d1 d2 -> counters_le d2 d3 -> counters_le d1 d3.
Proof. intros [] []. split; lia. Qed.

Lemma rollback_primary_keys (d d' : Db) :
  primary_keys d -> counters_le d d' -> primary_keys (rollback d d').
Proof.
  intros [] []. split; cbn; eapply keyed_mono; eassumption.
Qed.

Section PrimaryKeys.
Context {host : Host}.

Lemma findOrCreateCustomer_keys (orderData : JsObject) (d d' : Db)
    (r : Exn + Customer.row) :
  findOrCreateCustomer orderData d = (r, d') ->
  primary_keys d -> primary_keys d' /\ counters_le d d'.
Proof.
  rewrite findOrCreateCustomer_run. intros H Hk.
  assert (Hsame : (r, d') = (r, d) -> primary_keys d' /\ counters_le d d').
  { intros [= ->]. split; [exact Hk|apply counters_le_refl]. }
  destruct (normalizePhone (get orderData "phone")) as [e|phone];
    [injection H as <- <-; auto|].
  cbv zeta in H. destruct Hk as [Hc Ho Hi Hp].
  destruct (existing_customer d phone (email_of orderData)) as [c0|].
  - destruct (rejects d _); injection H as <- <-; [auto|].
    split; [|split; cbn; lia].
    split; cbn; [|assumption..].
    unfold keyed. now rewrite replace_customer_ids.
  - destruct (nonempty (email_of orderData)); [|injection H as <- <-; auto].
    destruct (rejects d _); injection H as <- <-; [auto|].
    split; [|split; cbn; lia].
    split; cbn; [|assumption..]. now apply keyed_snoc.
Qed.

Lemma findOrCreateProduct_keys (itemData : Item.t) (d d' : Db) (r : Exn + Product.row) :
  findOrCreateProduct itemData d = (r, d') ->
  primary_keys d -> primary_keys d' /\ counters_le d d'.
Proof.
  intros H Hk.
  assert (Hsame : d' = d -> primary_keys d' /\ counters_le d d').
  { intros ->. split; [exact Hk|apply counters_le_refl]. }
  unfold findOrCreateProduct, throw in H.
  destruct (truthy (Item.product_id itemData)); cbn [negb] in H;
    [|injection H as _ <-; auto].
  unfold mbind, Tx_bind, Product_findOne, query in H.
  destruct (List.find _ (products d)); [injection H as _ <-; auto|].
  unfold Product_create, mbind, Tx_bind, execute in H.
  destruct (rejects d _); injection H as _ <-; [auto|].
  destruct Hk as [Hc Ho Hi Hp].
  split; [|split; cbn; lia].
  split; cbn; [assumption..|]. now apply keyed_snoc.
Qed.

Lemma findOrCreateProduct_items_frame (itemData : Item.t) (d d' : Db)
    (r : Exn + Product.row) :
  findOrCreateProduct itemData d = (r, d') ->
  order_items d' = order_items d /\ next_order_item_id d' = next_order_item_id d.
Proof.
  unfold findOrCreateProduct, throw, mbind, Tx_bind, Product_findOne, query,
    Product_create, execute, mret, Tx_ret, mbind, Tx_bind.
  intros H. repeat case_match; simplify_eq/=; auto.
Qed.

Lemma stage_items_keys (o : Order.row) (l : list Item.t) (d d' : Db)
    (r : Exn + list (New OrderItem.row)) :
  stage_items o l d = (r, d') ->
  primary_keys d ->
  primary_keys d' /\ counters_le d d'
  /\ order_items d' = order_items d /\ next_order_item_id d' = next_order_item_id d
  /\ (forall staged, r = inr staged ->
        forall row, row ∈ staged -> forall k, OrderItem.id (row k) = k).
Proof.
  revert d d' r. induction l as [|itemData l IH]; intros d d' r; cbn [stage_items].
  - intros [= <- <-] Hk. split; [exact Hk|]. split; [apply counters_le_refl|].
    split; [reflexivity|]. split; [reflexivity|].
    intros staged [= <-] row Hrow. inversion Hrow.
  - unfold mbind, Tx_bind. intros H Hk.
    destruct (findOrCreateProduct itemData d) as [[e|p] d1] eqn:Hp.
    + injection H as <- <-.
      destruct (findOrCreateProduct_keys _ _ _ _ Hp Hk) as [Hk1 Hle1].
      destruct (findOrCreateProduct_items_frame _ _ _ _ Hp) as [Hi1 Hn1].
      split; [exact Hk1|]. split; [exact Hle1|].
      split; [exact Hi1|]. split; [exact Hn1|]. discriminate.
    + destruct (findOrCreateProduct_keys _ _ _ _ Hp Hk) as [Hk1 Hle1].
      destruct (findOrCreateProduct_items_frame _ _ _ _ Hp) as [Hi1 Hn1].
      destruct (stage_items o l d1) as [[e|rest] d2] eqn:Hs;
        destruct (IH _ _ _ Hs Hk1) as (Hk2 & Hle2 & Hi2 & Hn2 & Hids);
        injection H as <- <-;
        (split; [exact Hk2|]); (split; [exact (counters_le_trans _ _ _ Hle1 Hle2)|]);
        (split; [congruence|]); (split; [congruence|]); [discriminate|].
      intros staged [= <-] row [->|Hrow]%elem_of_cons k; [reflexivity|].
      now apply (Hids rest).
Qed.

Lemma orderTransaction_keys (orderData : OrderData) (d d' : Db) (r : Exn + Completion) :
  orderTransaction orderData d = (r, d') ->
  primary_keys d -> primary_keys d' /\ counters_le d d'.
Proof.
  rewrite orderTransaction_run. intros H Hk.
  destruct (findOrCreateCustomer (fields orderData) d) as [[e|customer] d1] eqn:Hc;
    destruct (findOrCreateCustomer_keys _ _ _ _ Hc Hk) as [Hk1 Hle1];
    [injection H as <- <-; auto|].
  destruct (List.find _ (orders d1)); [injection H as <- <-; auto|].
  cbv zeta in H. set (o := orderToInsert (fields orderData) customer (next_order_id d1)) in H.
  destruct (rejects d1 _); [injection H as <- <-; auto|].
  set (d2 := set_orders (orders d1 ++ [o]) (S (next_order_id d1)) d1) in H.
  assert (Hk2 : primary_keys d2).
  { destruct Hk1 as [Hc1 Ho1 Hi1 Hp1]. split; cbn; [assumption| |assumption..].
    now apply keyed_snoc. }
  assert (Hle2 : counters_le d d2).
  { apply (counters_le_trans _ d1); [exact Hle1|]. split; cbn; lia. }
  destruct (stage_items o (items orderData) d2) as [[e|staged] d3] eqn:Hs;
    destruct (stage_items_keys _ _ _ _ _ Hs Hk2) as (Hk3 & Hle3 & Hi3 & Hn3 & Hids);
    pose proof (counters_le_trans _ _ _ Hle2 Hle3) as Hle;
    [injection H as <- <-; auto|].
  destruct (0 <? List.length staged)%nat; [|injection H as <- <-; auto].
  destruct (rejects d3 _); injection H as <- <-; [auto|].
  destruct Hk3 as [Hc3 Ho3 Hit3 Hp3]. split.
  - split; cbn; [assumption..| |assumption].
    apply keyed_numbered; [exact Hit3|]. now apply (Hids staged).
  - apply (counters_le_trans _ d3); [exact Hle|]. split; cbn; lia.
Qed.

Lemma store_after_primary_keys (orderData : OrderData) (d : Db) :
  primary_keys d -> primary_keys (store_after orderData d).
Proof.
  intros Hk. unfold store_after.
  destruct (orderTransaction orderData d) as [r d'] eqn:Hrun.
  destruct (orderTransaction_keys _ _ _ _ Hrun Hk) as [Hk' Hle].
  destruct r as [e|[]]; [|exact Hk'|]; now apply rollback_primary_keys.
Qed.

Lemma store_after_counters (orderData : OrderData) (d : Db) :
  primary_keys d -> counters_le d (store_after orderData d).
Proof.
  intros Hk. unfold store_after.
  destruct (orderTransaction orderData d) as [r d'] eqn:Hrun.
  destruct (orderTransaction_keys _ _ _ _ Hrun Hk) as [Hk' [] ].
  destruct r as [e|[]]; split; cbn; assumption.
Qed.

End PrimaryKeys.

(** X17. A run keeps the primary keys: if in every table the ids are
    distinct and below the table's auto-increment counter before the
    import, they are after it, although a rolled-back transaction gives its
    rows up and keeps the counters it advanced; no counter ever moves
    back. *)
Theorem import_keeps_primary_keys (host : Host) (ws : Worksheet)
    (js : gmap string JobState) (job_id : string) (l : list OrderData) (d : Db) :
  primary_keys d ->
  primary_keys (final_store l d) /\ counters_le d (final_store l d)
  /\ primary_keys (import_orders ws js job_id d).2.
Proof.
  intros Hd. rewrite import_orders_db.
  assert (H : forall l d, primary_keys d ->
                primary_keys (final_store l d) /\ counters_le d (final_store l d)).
  { clear. intros l. unfold final_store.
    induction l as [|a l IH]; intros d Hd; [split; [exact Hd|apply counters_le_refl]|].
    cbn [fold_left].
    destruct (IH _ (store_after_primary_keys a d Hd)) as [Hk Hle].
    split; [exact Hk|].
    exact (counters_le_trans _ _ _ (store_after_counters a d Hd) Hle). }
  destruct (H l d Hd) as [H1 H2]. split; [exact H1|]. split; [exact H2|]. now apply H.
Qed.

Lemma import_keeps_primary_keys_witness :
  let d' := @final_store reliable_host (parseFileAndGroupOrders ws_two_channels) empty_db in
  primary_keys d' /\ counters_le empty_db d'
  /\ primary_keys (@import_orders reliable_host ws_interleaved ∅ "job" empty_db).2.
Proof.
  apply import_keeps_primary_keys.
  split; split; constructor.
Defined.

(** X18. The two spellings of a national number agree: when the digits of
    a phone string are ten digits, and the digits of another are the same
    ten after the country code 91, [normalizePhone] gives both the same ten
    digits, whatever punctuation either carries. *)
Theorem country_code_spelling_agrees (s s' n : string) :
  strip_non_digits s = n -> String.length n = 10%nat ->
  strip_non_digits s' = "91" +:+ n ->
  normalizePhone (JStr s) = inr n /\ normalizePhone (JStr s') = inr n.
Proof.
  intros Hs Hlen Hs'. unfold normalizePhone. split.
  - destruct s as [|a s]; [subst n; discriminate|].
    change (truthy (JStr (String a s))) with true. cbn [negb]. rewrite Hs, Hlen.
    now rewrite andb_false_r.
  - destruct s' as [|a s']; [discriminate|].
    change (truthy (JStr (String a s'))) with true. cbn [negb]. rewrite Hs'.
    change (String.length ("91" +:+ n)) with (S (S (String.length n))). rewrite Hlen.
    reflexivity.
Qed.

Lemma country_code_spelling_agrees_witness :
  normalizePhone (JStr "(987) 654-3210") = inr "9876543210"
  /\ normalizePhone (JStr "+91 98765 43210") = inr "9876543210".
Proof.
  apply country_code_spelling_agrees; reflexivity.
Defined.

(** ** Bill numbers that differ in cell type *)

(** C6. Rows of one invoice whose bill-number cells differ in type are not
    grouped into one aggregate.  On [ws_mixed_bill_cells] (bill number 101,
    a numeric cell in rows 2 and 4 and a text cell in row 3) all three rows
    survive with the bill-number text 101, and the grouper returns two
    aggregates with that text, the second holding the line of row 3.  No
    run inserts both; the run on the empty store stores the order with two
    of its three lines and skips the other aggregate as a duplicate. *)
Theorem mixed_bill_cells_split_the_order :
  let l := parseFileAndGroupOrders ws_mixed_bill_cells in
  map (fun rowData => js_toString (bill_of_row rowData)) (surviving_rows ws_mixed_bill_cells)
  = ["101"; "101"; "101"]
  /\ map (fun o => (bill_number_of o, bill_text o, map Item.product_id (items o))) l
     = [ (JNum 101, "101", [JStr "P1"; JStr "P3"]); (JStr "101", "101", [JStr "P2"]) ]
  /\ (forall (host : Host) (d : Db), (count Success (outcomes l d) <= 1)%nat)
  /\ @outcomes reliable_host l empty_db = [Success; Skipped]
  /\ map Order.bill_number (orders (@final_store reliable_host l empty_db)) = ["101"]
  /\ map OrderItem.item_hash (order_items (@final_store reliable_host l empty_db))
     = [JStr "P1"; JStr "P3"].
Proof.
  intros l.
  split; [vm_compute; reflexivity|]. split; [vm_compute; reflexivity|].
  split; [|repeat split; vm_compute; reflexivity].
  intros host d.
  assert (Hl : exists o1 o2, l = [o1; o2] /\ bill_text o1 = bill_text o2)
    by (eexists _, _; split; vm_compute; reflexivity).
  destruct Hl as (o1 & o2 & -> & Hb). cbn [outcomes]. rewrite !count_cons.
  unfold count at 1. cbn [List.filter List.length].
  destruct (outcome o1 d) eqn:H1; cbn [Outcome_eqb];
    [|destruct (outcome o2 _); cbn; lia..].
  destruct (store_after_effect o1 d) as (_ & _ & _ & Hins & _).
  destruct (Hins H1) as [Hhas _].
  destruct (store_after_effect o2 (store_after o1 d)) as (_ & _ & _ & Hins2 & _).
  destruct (outcome o2 (store_after o1 d)) eqn:H2; cbn; try lia.
  destruct (Hins2 eq_refl) as [_ Hno]. exfalso. apply Hno. now rewrite <- Hb.
Qed.

(** ** Products and profiles across a run *)

Lemma find_map_same {A : Type} (g : A -> bool) (f : A -> A) (l : list A) :
  (forall x, x ∈ l -> g (f x) = g x) ->
  List.find g (map f l) = option_map f (List.find g l).
Proof.
  induction l as [|a l IH]; intros H; [reflexivity|]. cbn.
  rewrite (H a) by left. destruct (g a); [reflexivity|].
  apply IH. intros x Hx. apply H. now right.
Qed.

Section AcrossARun.
Context {host : Host}.

Lemma findOrCreateProduct_found (itemData : Item.t) (d : Db) (p : Product.row) :
  truthy (Item.product_id itemData) = true ->
  List.find (fun q => bool_decide (Product.product_id q
                                   = js_toString (Item.product_id itemData)))
    (products d) = Some p ->
  findOrCreateProduct itemData d = (inr p, d).
Proof.
  intros Ht Hf. unfold findOrCreateProduct, mbind, Tx_bind, Product_findOne, query.
  rewrite Ht. cbn [negb]. now rewrite Hf.
Qed.

Lemma findOrCreateProduct_first (itemData : Item.t) (d d' : Db) (p : Product.row) :
  findOrCreateProduct itemData d = (inr p, d') ->
  truthy (Item.product_id itemData) = true
  /\ List.find (fun q => bool_decide (Product.product_id q
                                      = js_toString (Item.product_id itemData)))
       (products d') = Some p.
Proof.
  unfold findOrCreateProduct.
  destruct (truthy (Item.product_id itemData)) eqn:Ht; cbn [negb]; [|discriminate].
  unfold mbind, Tx_bind, Product_findOne, query.
  destruct (List.find _ (products d)) as [q|] eqn:Hf.
  - intros [= <- <-]. auto.
  - unfold Product_create, mbind, Tx_bind, execute.
    destruct (rejects d _); [discriminate|]. intros [= <- <-].
    split; [reflexivity|]. cbn [products set_products]. rewrite find_app, Hf. cbn.
    now rewrite bool_decide_eq_true_2.
Qed.

Lemma store_after_products (orderData : OrderData) (d : Db) :
  exists extra, products (store_after orderData d) = products d ++ extra.
Proof.
  destruct (outcome_success_or_not orderData d) as [Hs|Hs].
  - apply store_after_inserted, orderTransaction_inserted in Hs
      as (customer & d1 & o & rows & extra & _ & _ & _ & _ & _ & _ & _ & _ & _ & Hx & _).
    eauto.
  - destruct (store_after_not_inserted _ _ Hs) as (_ & _ & _ & Hp).
    exists []. now rewrite app_nil_r.
Qed.

Lemma final_store_products (l : list OrderData) (d : Db) :
  exists extra, products (final_store l d) = products d ++ extra.
Proof.
  apply (final_store_invariant (fun d' => exists extra, products d' = products d ++ extra)).
  - intros orderData d1 [e1 H1]. destruct (store_after_products orderData d1) as [e2 H2].
    exists (e1 ++ e2). now rewrite H2, H1, app_assoc.
  - exists []. now rewrite app_nil_r.
Qed.

(** A resolution leaves the first profile that holds a phone in place. *)
Lemma findOrCreateCustomer_keeps_owner (orderData : JsObject) (d d' : Db)
    (r : Exn + Customer.row) (phone : string) (c : Customer.row) :
  wf d -> phone ≠ "" ->
  List.find (by_phone phone) (customers d) = Some c ->
  findOrCreateCustomer orderData d = (r, d') ->
  exists c', List.find (by_phone phone) (customers d') = Some c'
    /\ Customer.id c' = Customer.id c /\ Customer.email c' = Customer.email c.
Proof.
  intros [Hnd _] Hne Hfind. rewrite findOrCreateCustomer_run.
  assert (Hsame : (r, d') = (r, d) -> exists c',
            List.find (by_phone phone) (customers d') = Some c'
            /\ Customer.id c' = Customer.id c /\ Customer.email c' = Customer.email c).
  { intros [= ->]. eauto. }
  destruct (normalizePhone (get orderData "phone")) as [e|phone2];
    [intros [= <- <-]; eauto|].
  cbv zeta. destruct (existing_customer d phone2 (email_of orderData)) as [c0|] eqn:Hex.
  - destruct (rejects d _); intros [= <- <-]; [eauto|].
    cbn [customers set_customers]. unfold replace_customer.
    set (c0' := merge_customer orderData phone2 (email_of orderData) c0).
    pose proof (find_elem_of _ _ _ Hfind) as [Hcin Hcp]. apply bool_decide_eq_true in Hcp.
    pose proof (existing_customer_elem_of _ _ _ _ Hex) as [Hc0in _].
    assert (Hc0 : phone2 = phone -> c0 = c).
    { intros ->. unfold existing_customer in Hex.
      rewrite (proj2 (nonempty_true phone) Hne), Hfind in Hex. congruence. }
    rewrite find_map_same.
    + rewrite Hfind. cbn [option_map].
      destruct (Nat.eqb_spec (Customer.id c) (Customer.id c0')) as [Hid|Hid]; [|eauto].
      exists c0'. split; [reflexivity|]. split; [now rewrite Hid|].
      assert (c = c0) as -> by (apply (NoDup_map_eq Customer.id (customers d)); auto).
      reflexivity.
    + intros x Hx.
      destruct (Nat.eqb_spec (Customer.id x) (Customer.id c0')) as [Hid|Hid]; [|reflexivity].
      assert (x = c0) as -> by (apply (NoDup_map_eq Customer.id (customers d)); auto).
      unfold by_phone, c0'. cbn [merge_customer Customer.all_phones].
      apply bool_decide_ext.
      destruct (push_if_new_cases phone2 (Customer.all_phones c0))
        as [(Hp2 & Hnin & ->)|(_ & ->)]; [|reflexivity].
      rewrite elem_of_app, list_elem_of_singleton. split; [|auto].
      intros [H|H]; [exact H|]. symmetry in H. rewrite (Hc0 H) in Hnin.
      subst phone2. contradiction.
  - destruct (nonempty (email_of orderData)); [|intros [= <- <-]; eauto].
    destruct (rejects d _); intros [= <- <-]; [eauto|].
    cbn [customers set_customers]. rewrite find_app, Hfind. eauto.
Qed.

Lemma store_after_keeps_owner (orderData : OrderData) (d : Db) (phone : string)
    (c : Customer.row) :
  wf d -> phone ≠ "" ->
  List.find (by_phone phone) (customers d) = Some c ->
  exists c', List.find (by_phone phone) (customers (store_after orderData d)) = Some c'
    /\ Customer.id c' = Customer.id c /\ Customer.email c' = Customer.email c.
Proof.
  intros Hwf Hne Hfind.
  destruct (outcome_success_or_not orderData d) as [Hs|Hs].
  - apply store_after_inserted, orderTransaction_inserted in Hs
      as (customer & d1 & o & rows & extra & Hc & Hcs & _).
    rewrite Hcs. exact (findOrCreateCustomer_keeps_owner _ _ _ _ _ _ Hwf Hne Hfind Hc).
  - destruct (store_after_not_inserted _ _ Hs) as (Hcs & _). rewrite Hcs. eauto.
Qed.

Lemma store_after_wf (orderData : OrderData) (d : Db) : wf d -> wf (store_after orderData d).
Proof. destruct (store_after_effect orderData d) as (Hg & _). apply (grows_wf _ _ Hg). Qed.

Lemma final_store_keeps_owner (l : list OrderData) (d : Db) (phone : string)
    (c : Customer.row) :
  wf d -> phone ≠ "" ->
  List.find (by_phone phone) (customers d) = Some c ->
  exists c', List.find (by_phone phone) (customers (final_store l d)) = Some c'
    /\ Customer.id c' = Customer.id c /\ Customer.email c' = Customer.email c.
Proof.
  intros Hwf Hne. unfold final_store. revert d c Hwf.
  induction l as [|a l IH]; intros d c Hwf Hfind; [eauto|]. cbn [fold_left].
  destruct (store_after_keeps_owner a d phone c Hwf Hne Hfind) as (c1 & H1 & Hid1 & He1).
  destruct (IH _ c1 (store_after_wf a d Hwf) H1) as (c2 & H2 & Hid2 & He2).
  exists c2. split; [exact H2|]. split; congruence.
Qed.

Lemma inserted_order_customer (orderData : OrderData) (d : Db) (phone : string)
    (c : Customer.row) :
  phone ≠ "" ->
  List.find (by_phone phone) (customers d) = Some c ->
  normalizePhone (get (fields orderData) "phone") = inr phone ->
  outcome orderData d = Success ->
  exists o, o ∈ orders (store_after orderData d)
    /\ Order.bill_number o = bill_text orderData
    /\ Order.customerId o = Customer.id c.
Proof.
  intros Hne Hfind Hp Hs.
  apply store_after_inserted, orderTransaction_inserted in Hs
    as (customer & d1 & o & rows & extra & Hc & _ & Ho & Hb & Hcid & _).
  exists o. split; [rewrite Ho; apply elem_of_app; right; left|]. split; [exact Hb|].
  rewrite Hcid. rewrite findOrCreateCustomer_run, Hp in Hc. cbv zeta in Hc.
  unfold existing_customer in Hc. rewrite (proj2 (nonempty_true phone) Hne), Hfind in Hc.
  destruct (rejects d _); [discriminate|]. now injection Hc as <- _.
Qed.

End AcrossARun.

(** X8. A product master is created once per external identifier and then
    reused.  After [findOrCreateProduct] returned a product, the product has
    the item's identifier as text and is stored, the product table is the
    former one with at most that row appended, and on every store whose
    product table extends that table, an item with the same identifier text
    gets that very product and nothing is written, whatever name or HSN
    code the item carries.  A product that is the first with its identifier
    in the store before a run is the product of every item with that
    identifier on the store the run leaves. *)
Theorem product_master_reused (host : Host) :
  (forall (itemData : Item.t) (d d' : Db) (p : Product.row),
      findOrCreateProduct itemData d = (inr p, d') ->
      Product.product_id p = js_toString (Item.product_id itemData)
      /\ (p ∈ products d')
      /\ (products d' = products d \/ products d' = products d ++ [p])
      /\ (forall (itemData' : Item.t) (d2 : Db) (extra : list Product.row),
            truthy (Item.product_id itemData') = true ->
            js_toString (Item.product_id itemData')
            = js_toString (Item.product_id itemData) ->
            products d2 = products d' ++ extra ->
            findOrCreateProduct itemData' d2 = (inr p, d2)))
  /\ (forall (itemData : Item.t) (d : Db) (p : Product.row) (l : list OrderData),
        truthy (Item.product_id itemData) = true ->
        List.find (fun q => bool_decide (Product.product_id q
                                         = js_toString (Item.product_id itemData)))
          (products d) = Some p ->
        findOrCreateProduct itemData (final_store l d) = (inr p, final_store l d)).
Proof.
  split.
  - intros itemData d d' p Hrun.
    pose proof (findOrCreateProduct_first _ _ _ _ Hrun) as [Ht Hfirst].
    pose proof (find_elem_of _ _ _ Hfirst) as [Hin Hsel].
    apply bool_decide_eq_true in Hsel.
    split; [exact Hsel|]. split; [exact Hin|]. split.
    + unfold findOrCreateProduct in Hrun. rewrite Ht in Hrun. cbn [negb] in Hrun.
      unfold mbind, Tx_bind, Product_findOne, query in Hrun.
      destruct (List.find _ (products d)); [injection Hrun as _ <-; now left|].
      unfold Product_create, mbind, Tx_bind, execute in Hrun.
      destruct (rejects d _); [discriminate|]. injection Hrun as <- <-. now right.
    + intros itemData' d2 extra Ht' He Hx. apply findOrCreateProduct_found; [exact Ht'|].
      rewrite He, Hx, find_app. now rewrite Hfirst.
  - intros itemData d p l Ht Hf. apply findOrCreateProduct_found; [exact Ht|].
    destruct (final_store_products l d) as [extra ->]. rewrite find_app. now rewrite Hf.
Qed.

Lemma product_master_reused_witness :
  let pen := {| Item.product_id := JStr "P1"; Item.item_hash := JStr "P1";
                Item.item_name := JStr "Pen"; Item.hsn_code := JStr "9608";
                Item.gst_rate := JNum 18; Item.quantity := JNum 1;
                Item.unit_cost_at_sale := JNum 10; Item.order_line_tax := JNum 2 |} in
  let pencil := {| Item.product_id := JStr "P1"; Item.item_hash := JUndefined;
                   Item.item_name := JStr "Pencil"; Item.hsn_code := JUndefined;
                   Item.gst_rate := JNum 5; Item.quantity := JNum 3;
                   Item.unit_cost_at_sale := JNum 4; Item.order_line_tax := JNum 1 |} in
  exists p d',
    @findOrCreateProduct reliable_host pen empty_db = (inr p, d')
    /\ Product.item_name p = JStr "Pen"
    /\ (let d2 := @final_store reliable_host (parseFileAndGroupOrders ws_interleaved) d' in
        @findOrCreateProduct reliable_host pencil d2 = (inr p, d2)).
Proof.
  intros pen pencil.
  destruct (@findOrCreateProduct reliable_host pen empty_db) as [[e|p] d'] eqn:Hrun;
    [vm_compute in Hrun; discriminate|].
  exists p, d'. split; [reflexivity|].
  split; [vm_compute in Hrun; now injection Hrun as <- <-|].
  apply (proj2 (product_master_reused reliable_host) pencil d' p); [reflexivity|].
  vm_compute in Hrun. injection Hrun as <- <-. vm_compute. reflexivity.
Defined.

(** X11. A phone number stays with its profile.  On a store with unique
    customer ids, let a profile be the first that holds a (non-empty)
    normalized phone.  After any run the first profile holding that phone
    has the same id and the same primary email, and every aggregate of the
    run whose phone normalizes to it and that is inserted is stored with
    that customer id, whatever emails the aggregates of the run carry. *)
Theorem known_phone_keeps_its_profile (host : Host) (l : list OrderData) (d : Db)
    (phone : string) (c : Customer.row) :
  wf d -> phone ≠ "" ->
  List.find (by_phone phone) (customers d) = Some c ->
  (exists c', List.find (by_phone phone) (customers (final_store l d)) = Some c'
     /\ Customer.id c' = Customer.id c /\ Customer.email c' = Customer.email c)
  /\ (forall (i : nat) (orderData : OrderData),
        l !! i = Some orderData ->
        normalizePhone (get (fields orderData) "phone") = inr phone ->
        outcomes l d !! i = Some Success ->
        exists o, o ∈ orders (final_store l d)
          /\ Order.bill_number o = bill_text orderData
          /\ Order.customerId o = Customer.id c).
Proof.
  intros Hwf Hne Hfind. split; [now apply final_store_keeps_owner|].
  revert d c Hwf Hfind. induction l as [|a l IH]; intros d c Hwf Hfind i orderData Hl Hp Ho;
    [inversion Hl|].
  unfold final_store. cbn [fold_left]. fold (final_store l (store_after a d)).
  destruct i as [|i]; cbn in Hl, Ho.
  - injection Hl as ->. injection Ho as Ho.
    destruct (inserted_order_customer orderData d phone c Hne Hfind Hp Ho)
      as (o & Hin & Hb & Hc).
    exists o. split; [|auto].
    now apply (grows_orders _ _ (final_store_grows l (store_after orderData d))).
  - destruct (store_after_keeps_owner a d phone c Hwf Hne Hfind) as (c1 & H1 & Hid1 & _).
    rewrite <- Hid1. apply (IH _ c1 (store_after_wf a d Hwf) H1 i orderData Hl Hp Ho).
Qed.

Lemma known_phone_keeps_its_profile_witness :
  let l := parseFileAndGroupOrders ws_two_channels in
  let d' := @final_store reliable_host l db_two_profiles in
  (exists c', List.find (by_phone "9876543210") (customers d') = Some c'
     /\ Customer.id c' = 1%nat /\ Customer.email c' = "asha@x.in")
  /\ (exists o, o ∈ orders d' /\ Order.bill_number o = "B1" /\ Order.customerId o = 1%nat)
  /\ (exists o, o ∈ orders d' /\ Order.bill_number o = "B2" /\ Order.customerId o = 1%nat).
Proof.
  intros l d'.
  destruct (known_phone_keeps_its_profile reliable_host l db_two_profiles "9876543210" asha)
    as [Hkeep Horders].
  - split.
    + apply (bool_decide_unpack _). vm_compute. reflexivity.
    + cbn. repeat (constructor; [lia|]). constructor.
  - discriminate.
  - vm_compute. reflexivity.
  - split; [exact Hkeep|]. split.
    + apply (Horders 0%nat (hd no_order l)); vm_compute; reflexivity.
    + apply (Horders 1%nat (hd no_order (skipn 1 l))); vm_compute; reflexivity.
Defined.
